(** * docktesting: fingerprint registry, agent pool, stealth script and
      detection classifier

    A shallow embedding of the Go sources of the repository:
    - the profile catalog, the agents and the browser pool (the file that
      declares [BrowserProfile], [AIAgent] and [BrowserPool]);
    - the stealth script builder, [TestURL] and the summary loop of [main]
      (the file that declares [StealthConfig] and [TestResult]).

    Go strings are byte sequences: they are modelled as [string], one
    [ascii] per byte, and [len] is [String.length].  Go maps are [gmap]s;
    a map value is a reference, so maps live in a store and are named by
    locations.  The order in which [range] visits a map is not specified by
    Go: every loop over a map takes the visiting order as an argument. *)

From Stdlib Require Import ZArith String Ascii List Permutation Lia.
From Stdlib Require Import Floats.SpecFloat.
From stdpp Require Import gmap strings list fin_maps pretty.

Local Open Scope Z_scope.

(* ===================================================================== *)
(** * Part I: the embedding *)
(* ===================================================================== *)

(** ** Go strings *)

(** [s[i]] as an integer. *)
Definition byte_val (c : ascii) : Z := Z.of_N (N_of_ascii c).

(** [byte(r)]: conversion truncates to eight bits. *)
Definition byte_of (z : Z) : ascii := ascii_of_N (Z.to_N (z mod 256)).

(** [len(s)] *)
Definition len (s : string) : Z := Z.of_nat (String.length s).

(** [strings.HasPrefix] *)
Fixpoint HasPrefix (s prefix : string) {struct prefix} : bool :=
  match prefix, s with
  | EmptyString, _ => true
  | String _ _, EmptyString => false
  | String p prefix', String c s' =>
      if Ascii.eqb c p then HasPrefix s' prefix' else false
  end.

(** [strings.Contains(s, substr)]: [substr] starts at some index of [s]. *)
Fixpoint Contains (s substr : string) : bool :=
  HasPrefix s substr ||
  match s with
  | EmptyString => false
  | String _ s' => Contains s' substr
  end.

(** [s[:n]] for [0 <= n <= len(s)]. *)
Fixpoint slice_to (n : nat) (s : string) : string :=
  match n, s with
  | S n', String c s' => String c (slice_to n' s')
  | _, _ => EmptyString
  end.

(** *** [strings.ToLower]

    The standard library lower-cases an all-ASCII string byte by byte and
    every other string rune by rune ([strings.Map] with [unicode.ToLower]).
    The rune path decodes UTF-8, replaces every undecodable byte by
    U+FFFD, and encodes the mapped runes again. *)

Definition RuneError : Z := 0xFFFD.
Definition RuneSelf : Z := 0x80.

(** The ASCII branch of both [strings.ToLower] and [unicode.ToLower]. *)
Definition lower_ascii_rune (r : Z) : Z :=
  if (65 <=? r) && (r <=? 90) then r + 32 else r.

Definition lower_byte (c : ascii) : ascii :=
  if (65 <=? byte_val c) && (byte_val c <=? 90)
  then byte_of (byte_val c + 32) else c.

Fixpoint lower_bytes (s : string) : string :=
  match s with
  | EmptyString => EmptyString
  | String c s' => String (lower_byte c) (lower_bytes s')
  end.

Fixpoint isASCII (s : string) : bool :=
  match s with
  | EmptyString => true
  | String c s' => (byte_val c <? RuneSelf) && isASCII s'
  end.

Fixpoint hasUpper (s : string) : bool :=
  match s with
  | EmptyString => false
  | String c s' => ((65 <=? byte_val c) && (byte_val c <=? 90)) || hasUpper s'
  end.

(** Continuation byte test with the accept range of the lead byte. *)
Definition in_range (lo hi b : Z) : bool := (lo <=? b) && (b <=? hi).

(** [utf8.first] and [utf8.acceptRanges]: for a lead byte, the length of
    the sequence and the range allowed for the second byte; [None] for
    ASCII and for bytes that cannot start a sequence. *)
Definition lead_info (s0 : Z) : option (nat * Z * Z) :=
  if in_range 0xC2 0xDF s0 then Some (2%nat, 0x80, 0xBF)
  else if s0 =? 0xE0 then Some (3%nat, 0xA0, 0xBF)
  else if in_range 0xE1 0xEC s0 then Some (3%nat, 0x80, 0xBF)
  else if s0 =? 0xED then Some (3%nat, 0x80, 0x9F)
  else if in_range 0xEE 0xEF s0 then Some (3%nat, 0x80, 0xBF)
  else if s0 =? 0xF0 then Some (4%nat, 0x90, 0xBF)
  else if in_range 0xF1 0xF3 s0 then Some (4%nat, 0x80, 0xBF)
  else if s0 =? 0xF4 then Some (4%nat, 0x80, 0x8F)
  else None.

(** [utf8.DecodeRuneInString] on a non-empty string [String c s]: the rune
    and the number of bytes it takes. *)
Definition DecodeRuneInString (c : ascii) (s : string) : Z * nat :=
  let s0 := byte_val c in
  match lead_info s0 with
  | None => (if s0 <? RuneSelf then s0 else RuneError, 1%nat)
  | Some (sz, lo, hi) =>
      match s with
      | EmptyString => (RuneError, 1%nat)
      | String c1 t1 =>
          let s1 := byte_val c1 in
          if negb (in_range lo hi s1) then (RuneError, 1%nat)
          else if (sz <=? 2)%nat
          then (Z.lor (Z.shiftl (Z.land s0 0x1F) 6) (Z.land s1 0x3F), 2%nat)
          else
            match t1 with
            | EmptyString => (RuneError, 1%nat)
            | String c2 t2 =>
                let s2 := byte_val c2 in
                if negb (in_range 0x80 0xBF s2) then (RuneError, 1%nat)
                else if (sz <=? 3)%nat
                then (Z.lor (Z.shiftl (Z.land s0 0x0F) 12)
                        (Z.lor (Z.shiftl (Z.land s1 0x3F) 6)
                               (Z.land s2 0x3F)), 3%nat)
                else
                  match t2 with
                  | EmptyString => (RuneError, 1%nat)
                  | String c3 _ =>
                      let s3 := byte_val c3 in
                      if negb (in_range 0x80 0xBF s3) then (RuneError, 1%nat)
                      else (Z.lor (Z.shiftl (Z.land s0 0x07) 18)
                              (Z.lor (Z.shiftl (Z.land s1 0x3F) 12)
                                 (Z.lor (Z.shiftl (Z.land s2 0x3F) 6)
                                        (Z.land s3 0x3F))), 4%nat)
                  end
            end
      end
  end.

(** [utf8.AppendRune]: runes out of range and surrogates are written as
    U+FFFD. *)
Definition bytes3 (r : Z) : string :=
  String (byte_of (Z.lor 0xE0 (Z.shiftr r 12)))
    (String (byte_of (Z.lor 0x80 (Z.land (Z.shiftr r 6) 0x3F)))
       (String (byte_of (Z.lor 0x80 (Z.land r 0x3F))) EmptyString)).

Definition AppendRune (r : Z) : string :=
  if in_range 0 0x7F r then String (byte_of r) EmptyString
  else if in_range 0x80 0x7FF r then
    String (byte_of (Z.lor 0xC0 (Z.shiftr r 6)))
      (String (byte_of (Z.lor 0x80 (Z.land r 0x3F))) EmptyString)
  else if (r <? 0) || (0x10FFFF <? r) || in_range 0xD800 0xDFFF r
  then bytes3 RuneError
  else if r <=? 0xFFFF then bytes3 r
  else
    String (byte_of (Z.lor 0xF0 (Z.shiftr r 18)))
      (String (byte_of (Z.lor 0x80 (Z.land (Z.shiftr r 12) 0x3F)))
         (String (byte_of (Z.lor 0x80 (Z.land (Z.shiftr r 6) 0x3F)))
            (String (byte_of (Z.lor 0x80 (Z.land r 0x3F))) EmptyString))).

(** [strings.Map(mapping, s)]: [for _, c := range s] writes [mapping(c)]
    unless it is negative.  (The library copies the longest prefix that
    the mapping leaves alone as it is; a rune that decodes re-encodes to
    its own bytes, so the result is that of the plain loop.)  [skip]
    counts the bytes of the current rune that are still to be stepped
    over. *)
Fixpoint map_runes (mapping : Z → Z) (skip : nat) (s : string) : string :=
  match s with
  | EmptyString => EmptyString
  | String c s' =>
      match skip with
      | S k => map_runes mapping k s'
      | O =>
          let '(r, size) := DecodeRuneInString c s' in
          let r' := mapping r in
          (if 0 <=? r' then AppendRune r' else EmptyString)
            +:+ map_runes mapping (Nat.pred size) s'
      end
  end.

Definition Map (mapping : Z → Z) (s : string) : string :=
  map_runes mapping 0 s.

(** The first [n] bytes of [s] exist and lie above the ASCII range. *)
Fixpoint high_prefix (n : nat) (s : string) : Prop :=
  match n with
  | O => True
  | S k =>
      match s with
      | EmptyString => False
      | String c s' => RuneSelf ≤ byte_val c ∧ high_prefix k s'
      end
  end.

Section GoUnicode.
(** The case tables of package [unicode] ([unicode.To(LowerCase, r)] for
    a rune above [MaxASCII]) belong to the Go distribution; the
    development is parametric in them. *)
Variable unicode_To_LowerCase : Z → Z.

(** [unicode.ToLower] *)
Definition unicode_ToLower (r : Z) : Z :=
  if r <=? 0x7F then lower_ascii_rune r else unicode_To_LowerCase r.

(** [strings.ToLower] *)
Definition ToLower (s : string) : string :=
  if isASCII s then (if hasUpper s then lower_bytes s else s)
  else Map unicode_ToLower s.
End GoUnicode.

(** [s[n:]] for [0 <= n <= len(s)]. *)
Fixpoint slice_from (n : nat) (s : string) : string :=
  match n, s with
  | S n', String _ s' => slice_from n' s'
  | _, _ => s
  end.

(** A line break, and the two lines that open the override of a property
    in the script. *)
Definition nl : string := String "010"%char EmptyString.

Definition getter (object property : string) : string :=
  "Object.defineProperty(" +:+ object +:+ ", '" +:+ property +:+ "', {" +:+ nl
  +:+ "        get: () => ".

(** [strings.Repeat] of a one-byte string. *)
Fixpoint repeat_byte (c : ascii) (n : nat) : string :=
  match n with
  | O => EmptyString
  | S k => String c (repeat_byte c k)
  end.

(** [sub] occurs in [s] up to the case of ASCII letters: a stretch of [s]
    lower-cases, byte by byte, to [sub]. *)
Definition contains_fold (s sub : string) : Prop :=
  ∃ pre mid post, s = pre +:+ mid +:+ post ∧ lower_bytes mid = sub.

(** [int] is 64 bits wide; [n++] wraps around. *)
Definition wrap_int (z : Z) : Z := (z + 2 ^ 63) mod 2 ^ 64 - 2 ^ 63.
Definition MaxInt : Z := 2 ^ 63 - 1.

(** *** [fmt.Sprintf] verbs

    [%s] writes a string as it is and [%d] an integer in decimal
    ([pretty]).  [%.1f] writes a [float64] with one digit after the point,
    rounded from its exact value, ties to even. *)

(** [a / 2^k] rounded to the nearest integer, ties to even, for [k > 0]. *)
Definition round_shift (a k : Z) : Z :=
  let q := Z.shiftr a k in
  let r := a - Z.shiftl q k in
  let half := Z.shiftl 1 (k - 1) in
  if r <? half then q
  else if half <? r then q + 1
  else if Z.even q then q else q + 1.

(** The magnitude [m * 2^e] in tenths. *)
Definition tenths (m : positive) (e : Z) : Z :=
  if 0 <=? e then 10 * Z.pos m * 2 ^ e else round_shift (10 * Z.pos m) (- e).

Definition sign_string (s : bool) : string :=
  if s then "-" else EmptyString.

Definition FormatFloat1 (f : spec_float) : string :=
  match f with
  | S754_nan => "NaN"
  | S754_infinity s => if s then "-Inf" else "+Inf"
  | S754_zero s => sign_string s +:+ "0.0"
  | S754_finite s m e =>
      let n := tenths m e in
      sign_string s +:+ pretty (n / 10) +:+ "." +:+ pretty (n mod 10)
  end.

(** An [error] value is modelled by its message, [nil] by [None]. *)
Definition error : Type := option string.

(** ** References

    Go maps and [*AIAgent] values are references.  A reference is [nil] or
    a location of the store. *)

Definition loc : Type := positive.
Definition ptr : Type := option loc.

(** What a function call yields: it returns, or it panics at run time (a
    [nil] dereference). *)
Inductive go_result (A : Type) : Type :=
  | Returns (a : A)
  | Panics.
Arguments Returns {A} a.
Arguments Panics {A}.

(** ** Profiles, agents and the browser pool *)

Module Profiles.

(** [BrowserProfile] represents a complete browser fingerprint. *)
Record BrowserProfile := {
  Name : string;
  UserAgent : string;
  Platform : string;
  VendorString : string;
  Language : string;
  TimeZone : string;
  ScreenWidth : Z;
  ScreenHeight : Z;
  WebGLVendor : string;
  WebGLRenderer : string;
  MaxTouchPoints : Z;
  DeviceMemory : Z;
  HardwareConcurrency : Z
}.

Definition Windows_Chrome_120 : BrowserProfile := {|
  Name := "Windows Chrome 120";
  UserAgent := "Mozilla/5.0 (Windows NT 10.0; Win64; x64) AppleWebKit/537.36 (KHTML, like Gecko) Chrome/120.0.0.0 Safari/537.36";
  Platform := "Win32";
  VendorString := "Google Inc.";
  Language := "en-US";
  TimeZone := "America/New_York";
  ScreenWidth := 1920;
  ScreenHeight := 1080;
  WebGLVendor := "Google Inc. (Google)";
  WebGLRenderer := "ANGLE (Intel HD Graphics 630, OpenGL 4.1)";
  MaxTouchPoints := 0;
  DeviceMemory := 8;
  HardwareConcurrency := 8 |}.

Definition MacOS_Chrome_120 : BrowserProfile := {|
  Name := "MacOS Chrome 120";
  UserAgent := "Mozilla/5.0 (Macintosh; Intel Mac OS X 10_15_7) AppleWebKit/537.36 (KHTML, like Gecko) Chrome/120.0.0.0 Safari/537.36";
  Platform := "MacIntel";
  VendorString := "Google Inc.";
  Language := "en-US";
  TimeZone := "America/Los_Angeles";
  ScreenWidth := 1440;
  ScreenHeight := 900;
  WebGLVendor := "Apple Inc.";
  WebGLRenderer := "Apple M1";
  MaxTouchPoints := 0;
  DeviceMemory := 16;
  HardwareConcurrency := 8 |}.

Definition MacOS_M1_Chrome_120 : BrowserProfile := {|
  Name := "MacOS M1 Chrome 120";
  UserAgent := "Mozilla/5.0 (Macintosh; Intel Mac OS X 10_15_7) AppleWebKit/537.36 (KHTML, like Gecko) Chrome/120.0.0.0 Safari/537.36";
  Platform := "MacIntel";
  VendorString := "Google Inc.";
  Language := "en-US";
  TimeZone := "America/Denver";
  ScreenWidth := 1680;
  ScreenHeight := 1050;
  WebGLVendor := "Apple Inc.";
  WebGLRenderer := "ANGLE (Apple, Apple M1, OpenGL 4.1)";
  MaxTouchPoints := 0;
  DeviceMemory := 16;
  HardwareConcurrency := 8 |}.

Definition Linux_Chrome_120 : BrowserProfile := {|
  Name := "Linux Chrome 120";
  UserAgent := "Mozilla/5.0 (X11; Linux x86_64) AppleWebKit/537.36 (KHTML, like Gecko) Chrome/120.0.0.0 Safari/537.36";
  Platform := "Linux x86_64";
  VendorString := "Google Inc.";
  Language := "en-US";
  TimeZone := "Europe/London";
  ScreenWidth := 1920;
  ScreenHeight := 1080;
  WebGLVendor := "Google Inc. (Google)";
  WebGLRenderer := "ANGLE (Intel HD Graphics, OpenGL 4.1)";
  MaxTouchPoints := 0;
  DeviceMemory := 8;
  HardwareConcurrency := 4 |}.

Definition Windows_Edge_120 : BrowserProfile := {|
  Name := "Windows Edge 120";
  UserAgent := "Mozilla/5.0 (Windows NT 10.0; Win64; x64) AppleWebKit/537.36 (KHTML, like Gecko) Chrome/120.0.0.0 Safari/537.36 Edg/120.0.0.0";
  Platform := "Win32";
  VendorString := "Google Inc.";
  Language := "en-US";
  TimeZone := "America/Chicago";
  ScreenWidth := 1920;
  ScreenHeight := 1080;
  WebGLVendor := "Google Inc. (Google)";
  WebGLRenderer := "ANGLE (NVIDIA GeForce RTX 3090, OpenGL 4.1)";
  MaxTouchPoints := 0;
  DeviceMemory := 16;
  HardwareConcurrency := 12 |}.

Definition Windows_Firefox_121 : BrowserProfile := {|
  Name := "Windows Firefox 121";
  UserAgent := "Mozilla/5.0 (Windows NT 10.0; Win64; x64; rv:121.0) Gecko/20100101 Firefox/121.0";
  Platform := "Win32";
  VendorString := EmptyString;
  Language := "en-US";
  TimeZone := "America/New_York";
  ScreenWidth := 1920;
  ScreenHeight := 1080;
  WebGLVendor := "Google Inc. (Google)";
  WebGLRenderer := "ANGLE (NVIDIA GeForce GTX 1080, OpenGL 4.1)";
  MaxTouchPoints := 0;
  DeviceMemory := 8;
  HardwareConcurrency := 8 |}.

Definition MacOS_Firefox_121 : BrowserProfile := {|
  Name := "MacOS Firefox 121";
  UserAgent := "Mozilla/5.0 (Macintosh; Intel Mac OS X 10.15; rv:121.0) Gecko/20100101 Firefox/121.0";
  Platform := "MacIntel";
  VendorString := EmptyString;
  Language := "en-US";
  TimeZone := "America/Los_Angeles";
  ScreenWidth := 1440;
  ScreenHeight := 900;
  WebGLVendor := "Apple Inc.";
  WebGLRenderer := "Apple M1";
  MaxTouchPoints := 0;
  DeviceMemory := 16;
  HardwareConcurrency := 8 |}.

Definition Linux_Firefox_121 : BrowserProfile := {|
  Name := "Linux Firefox 121";
  UserAgent := "Mozilla/5.0 (X11; Linux x86_64; rv:121.0) Gecko/20100101 Firefox/121.0";
  Platform := "Linux x86_64";
  VendorString := EmptyString;
  Language := "en-US";
  TimeZone := "Europe/Berlin";
  ScreenWidth := 1920;
  ScreenHeight := 1080;
  WebGLVendor := "Google Inc. (Google)";
  WebGLRenderer := "ANGLE (Intel Iris Xe Graphics, OpenGL 4.1)";
  MaxTouchPoints := 0;
  DeviceMemory := 8;
  HardwareConcurrency := 4 |}.

Definition Windows_Chrome_121 : BrowserProfile := {|
  Name := "Windows Chrome 121";
  UserAgent := "Mozilla/5.0 (Windows NT 10.0; Win64; x64) AppleWebKit/537.36 (KHTML, like Gecko) Chrome/121.0.0.0 Safari/537.36";
  Platform := "Win32";
  VendorString := "Google Inc.";
  Language := "en-US";
  TimeZone := "America/New_York";
  ScreenWidth := 1920;
  ScreenHeight := 1080;
  WebGLVendor := "Google Inc. (Google)";
  WebGLRenderer := "ANGLE (Intel HD Graphics 630, OpenGL 4.1)";
  MaxTouchPoints := 0;
  DeviceMemory := 8;
  HardwareConcurrency := 8 |}.

Definition MacOS_Chrome_121 : BrowserProfile := {|
  Name := "MacOS Chrome 121";
  UserAgent := "Mozilla/5.0 (Macintosh; Intel Mac OS X 10_15_7) AppleWebKit/537.36 (KHTML, like Gecko) Chrome/121.0.0.0 Safari/537.36";
  Platform := "MacIntel";
  VendorString := "Google Inc.";
  Language := "en-US";
  TimeZone := "America/Los_Angeles";
  ScreenWidth := 1440;
  ScreenHeight := 900;
  WebGLVendor := "Apple Inc.";
  WebGLRenderer := "Apple M1";
  MaxTouchPoints := 0;
  DeviceMemory := 16;
  HardwareConcurrency := 8 |}.

Definition StealthProfiles : list BrowserProfile :=
  [ Windows_Chrome_120;
    MacOS_Chrome_120;
    MacOS_M1_Chrome_120;
    Linux_Chrome_120;
    Windows_Edge_120;
    Windows_Firefox_121;
    MacOS_Firefox_121;
    Linux_Firefox_121;
    Windows_Chrome_121;
    MacOS_Chrome_121 ].

(** [GetRandomProfile], with [idx] the number drawn by
    [rand.Intn(len(StealthProfiles))]. *)
Definition GetRandomProfile (idx : nat) : go_result BrowserProfile :=
  match StealthProfiles !! idx with
  | Some p => Returns p
  | None => Panics
  end.

(** The loop of [GetProfileByName] over a catalog: the first profile
    with the given name, if there is one. *)
Fixpoint first_named (catalog : list BrowserProfile) (name : string)
  : option BrowserProfile :=
  match catalog with
  | [] => None
  | profile :: rest =>
      if String.eqb (Name profile) name then Some profile
      else first_named rest name
  end.

(** [GetProfileByName] over a catalog; indexing an empty catalog at 0
    panics. *)
Definition GetProfileByName_in (catalog : list BrowserProfile)
           (name : string) : go_result BrowserProfile :=
  match first_named catalog name with
  | Some profile => Returns profile
  | None =>
      match catalog with
      | p0 :: _ => Returns p0
      | [] => Panics
      end
  end.

Definition GetProfileByName (name : string) : go_result BrowserProfile :=
  GetProfileByName_in StealthProfiles name.

Definition GetAllProfiles : list BrowserProfile := StealthProfiles.

(** [GetProfilesByPlatform] over a catalog: [append] in catalog order. *)
Fixpoint GetProfilesByPlatform_in (catalog : list BrowserProfile)
         (platform : string) : list BrowserProfile :=
  match catalog with
  | [] => []
  | p :: rest =>
      if String.eqb (Platform p) platform
      then p :: GetProfilesByPlatform_in rest platform
      else GetProfilesByPlatform_in rest platform
  end.

Definition GetProfilesByPlatform (platform : string) : list BrowserProfile :=
  GetProfilesByPlatform_in StealthProfiles platform.

(** [AIAgent]: [Headers] and [Cookies] are references to maps;
    [LastActivity] is a time stamp, 0 for the zero [time.Time]. *)
Record AIAgent := {
  ID : string;
  Profile : BrowserProfile;
  Headers : ptr;
  Cookies : ptr;
  RateLimit : Z;
  Delay : Z;
  RetryCount : Z;
  ProxyURL : string;
  LastActivity : Z
}.

(** The store: the [map[string]string] values and the [AIAgent] structs
    that are alive. *)
Record Store := {
  maps : gmap loc (gmap string string);
  agents : gmap loc AIAgent
}.

Definition empty_store : Store := {| maps := ∅; agents := ∅ |}.

(** Reading through a map reference; a [nil] map reads as empty. *)
Definition read_map (σ : Store) (p : ptr) : gmap string string :=
  match p with
  | Some l => default ∅ (maps σ !! l)
  | None => ∅
  end.

(** A reference is live when it is [nil] or allocated. *)
Definition live_map (σ : Store) (p : ptr) : Prop :=
  match p with
  | Some l => l ∈ dom (maps σ)
  | None => True
  end.

(** [make(map[string]string)] and map literals: a new location. *)
Definition alloc_map (m : gmap string string) (σ : Store) : loc * Store :=
  let l := fresh (dom (maps σ)) in
  (l, {| maps := <[l := m]> (maps σ); agents := agents σ |}).

(** [m[k] = v] for the map at [l]. *)
Definition map_assign (l : loc) (k v : string) (σ : Store) : Store :=
  {| maps := alter (insert k v) l (maps σ); agents := agents σ |}.

(** [&AIAgent{...}] *)
Definition alloc_agent (a : AIAgent) (σ : Store) : loc * Store :=
  let l := fresh (dom (agents σ)) in
  (l, {| maps := maps σ; agents := <[l := a]> (agents σ) |}).

Definition dq : string := String "034"%char EmptyString.

(** [generateRealisticHeaders] creates the header map of a profile. *)
Definition generateRealisticHeaders (profile : BrowserProfile) (σ : Store)
  : loc * Store :=
  let '(headers, σ) := alloc_map (list_to_map [
    ("User-Agent", UserAgent profile);
    ("Accept", "text/html,application/xhtml+xml,application/xml;q=0.9,image/webp,image/apng,*/*;q=0.8,application/signed-exchange;v=b3;q=0.7");
    ("Accept-Language", Language profile);
    ("Accept-Encoding", "gzip, deflate, br");
    ("Cache-Control", "max-age=0");
    ("Sec-Fetch-Dest", "document");
    ("Sec-Fetch-Mode", "navigate");
    ("Sec-Fetch-Site", "none");
    ("Sec-Fetch-User", "?1");
    ("Upgrade-Insecure-Requests", "1");
    ("Sec-Ch-Ua", dq +:+ "Not_A Brand" +:+ dq +:+ ";v=" +:+ dq +:+ "8" +:+ dq
                  +:+ ", " +:+ dq +:+ "Chromium" +:+ dq +:+ ";v=" +:+ dq
                  +:+ "120" +:+ dq +:+ ", " +:+ dq +:+ "Google Chrome"
                  +:+ dq +:+ ";v=" +:+ dq +:+ "120" +:+ dq);
    ("Sec-Ch-Ua-Mobile", "?0");
    ("Sec-Ch-Ua-Platform", dq +:+ "Windows" +:+ dq);
    ("DNT", "1");
    ("Connection", "keep-alive");
    ("Pragma", "no-cache") ]) σ in
  if String.eqb (Platform profile) "MacIntel" then
    (headers, map_assign headers "Sec-Ch-Ua-Platform" (dq +:+ "macOS" +:+ dq) σ)
  else if String.eqb (Platform profile) "Linux x86_64" then
    (headers, map_assign headers "Sec-Ch-Ua-Platform" (dq +:+ "Linux" +:+ dq) σ)
  else (headers, σ).

(** [NewAIAgentWithProfile]; [draw] is the value of [rand.Intn(5000)]. *)
Definition NewAIAgentWithProfile (id : string) (profile : BrowserProfile)
           (draw : Z) (σ : Store) : loc * Store :=
  let '(headers, σ) := generateRealisticHeaders profile σ in
  let '(cookies, σ) := alloc_map ∅ σ in
  alloc_agent {| ID := id; Profile := profile;
                 Headers := Some headers; Cookies := Some cookies;
                 RateLimit := 1; Delay := draw + 2000; RetryCount := 3;
                 ProxyURL := EmptyString; LastActivity := 0 |} σ.

(** [NewAIAgent]: [idx] is the draw of [GetRandomProfile]. *)
Definition NewAIAgent (id : string) (idx : nat) (draw : Z) (σ : Store)
  : go_result (loc * Store) :=
  match GetRandomProfile idx with
  | Returns profile => Returns (NewAIAgentWithProfile id profile draw σ)
  | Panics => Panics
  end.

(** A [range] loop that assigns every visited entry to the map at
    [dst]; [entries] lists the entries in the order of the visit. *)
Definition copy_entries (dst : loc) (entries : list (string * string))
           (σ : Store) : Store :=
  foldl (λ σ kv, map_assign dst kv.1 kv.2 σ) σ entries.

(** What such a loop does to the one map it assigns to. *)
Definition assign_all (entries : list (string * string))
           (m : gmap string string) : gmap string string :=
  foldl (λ m kv, <[kv.1 := kv.2]> m) m entries.

(** [range] may visit the entries of a map in any order. *)
Definition range_order {V} (m : gmap string V) (entries : list (string * V))
  : Prop :=
  entries ≡ₚ map_to_list m.

(** [HeadersWithDefaults] for given visiting orders of the two loops. *)
Definition HeadersWithDefaults_with
           (defaults customs : list (string * string)) (σ : Store)
  : loc * Store :=
  let '(merged, σ) := alloc_map ∅ σ in
  let σ := copy_entries merged defaults σ in
  let σ := copy_entries merged customs σ in
  (merged, σ).

(** [a.HeadersWithDefaults(customHeaders)]: each loop visits the map as
    it is when the loop runs. *)
Inductive HeadersWithDefaults (a : AIAgent) (customHeaders : ptr)
          (σ : Store) : loc * Store → Prop :=
  | HeadersWithDefaults_run defaults customs :
      let σ1 := (alloc_map ∅ σ).2 in
      let merged := (alloc_map ∅ σ).1 in
      range_order (read_map σ1 (Headers a)) defaults →
      range_order (read_map (copy_entries merged defaults σ1) customHeaders)
                  customs →
      HeadersWithDefaults a customHeaders σ
        (HeadersWithDefaults_with defaults customs σ).

(** One run of it, visiting both maps in the order of [map_to_list]. *)
Definition HeadersWithDefaults_run_sorted (a : AIAgent)
           (customHeaders : ptr) (σ : Store) : loc * Store :=
  HeadersWithDefaults_with
    (map_to_list (read_map σ (Headers a)))
    (map_to_list (read_map σ customHeaders)) σ.

(** [BrowserPool]; [NewBrowserPool] makes both maps, so they are kept by
    value here.  [RateLimiter] maps to time stamps. *)
Record BrowserPool := {
  Agents : gmap string ptr;
  MaxAgents : Z;
  RateLimiter : gmap string Z
}.

Definition NewBrowserPool (maxAgents : Z) : BrowserPool :=
  {| Agents := ∅; MaxAgents := maxAgents; RateLimiter := ∅ |}.

Definition pool_len (bp : BrowserPool) : Z := Z.of_nat (size (Agents bp)).

(** [AddAgent]: the error returned and the pool afterwards.  Reading
    [agent.ID] through a [nil] reference panics. *)
Definition AddAgent (σ : Store) (bp : BrowserPool) (agent : ptr)
  : go_result (error * BrowserPool) :=
  if MaxAgents bp <=? pool_len bp then
    Returns (Some ("pool is full (max " +:+ pretty (MaxAgents bp)
                     +:+ " agents)"), bp)
  else
    match agent ≫= (λ l, agents σ !! l) with
    | None => Panics
    | Some a =>
        Returns (None, {| Agents := <[ID a := agent]> (Agents bp);
                          MaxAgents := MaxAgents bp;
                          RateLimiter := RateLimiter bp |})
    end.

(** [GetAgent]: a missing key reads as [nil]. *)
Definition GetAgent (bp : BrowserPool) (id : string) : ptr :=
  default None (Agents bp !! id).

Definition RemoveAgent (bp : BrowserPool) (id : string) : BrowserPool :=
  {| Agents := delete id (Agents bp); MaxAgents := MaxAgents bp;
     RateLimiter := RateLimiter bp |}.

Definition GetPoolSize (bp : BrowserPool) : Z := pool_len bp.

(** The loop of [GetRandomAgent]: count [idx] down over the visited
    entries; falling out of the loop returns [nil]. *)
Fixpoint pick_agent (idx : Z) (entries : list (string * ptr)) : ptr :=
  match entries with
  | [] => None
  | (_, agent) :: rest =>
      if idx =? 0 then agent else pick_agent (idx - 1) rest
  end.

(** [GetRandomAgent] for a visiting order [entries] and the number [idx]
    drawn by [rand.Intn(len(bp.Agents))]. *)
Definition GetRandomAgent_with (entries : list (string * ptr)) (idx : Z)
           (bp : BrowserPool) : ptr :=
  if pool_len bp =? 0 then None else pick_agent idx entries.

(** The pools a program can build: made by [NewBrowserPool] and changed
    by [AddAgent] and [RemoveAgent]. *)
Inductive pool_built : BrowserPool → Prop :=
  | built_new maxAgents : pool_built (NewBrowserPool maxAgents)
  | built_add σ bp agent err bp' :
      pool_built bp →
      AddAgent σ bp agent = Returns (err, bp') →
      pool_built bp'
  | built_remove bp id :
      pool_built bp → pool_built (RemoveAgent bp id).

(** *** Cookies and the remaining pool operations *)

(** Reading an agent struct through a reference. *)
Definition read_agent (σ : Store) (a : ptr) : option AIAgent :=
  a ≫= (λ l, agents σ !! l).

(** [delete(m, k)] for the map at [l]. *)
Definition map_delete (l : loc) (k : string) (σ : Store) : Store :=
  {| maps := alter (delete k) l (maps σ); agents := agents σ |}.

(** [a.AddCookie(name, value)]: assigning to an entry of a [nil] map
    panics, as does reading [a.Cookies] through a [nil] receiver. *)
Definition AddCookie (a : ptr) (name value : string) (σ : Store)
  : go_result Store :=
  match read_agent σ a with
  | None => Panics
  | Some agent =>
      match Cookies agent with
      | None => Panics
      | Some cookies => Returns (map_assign cookies name value σ)
      end
  end.

(** [a.RemoveCookie(name)]: [delete] on a [nil] map does nothing. *)
Definition RemoveCookie (a : ptr) (name : string) (σ : Store)
  : go_result Store :=
  match read_agent σ a with
  | None => Panics
  | Some agent =>
      match Cookies agent with
      | None => Returns σ
      | Some cookies => Returns (map_delete cookies name σ)
      end
  end.


(** One iteration of the loop of [GetCookieHeader]. *)
Definition cookie_step (cookieStr : string) (cookie : string * string)
  : string :=
  (if negb (String.eqb cookieStr EmptyString)
   then cookieStr +:+ "; " else cookieStr)
    +:+ (cookie.1 +:+ "=" +:+ cookie.2).

(** [a.GetCookieHeader()] for the order [entries] in which the loop
    visits the cookies. *)
Definition GetCookieHeader_with (entries : list (string * string)) : string :=
  foldl cookie_step EmptyString entries.

(** A cookie as it is written in the header. *)
Definition cookie_pair (cookie : string * string) : string :=
  cookie.1 +:+ "=" +:+ cookie.2.

(** [GetAllAgents] for a visiting order: [append] of every visited
    agent. *)
Definition GetAllAgents_with (entries : list (string * ptr)) : list ptr :=
  foldl (λ agents entry, agents ++ [entry.2]) [] entries.

(** *** Sample values

    One agent made from the first catalog profile in an empty store, and a
    pool with room for one agent that holds it. *)

Definition sample_agent_ref : loc :=
  (NewAIAgentWithProfile "agent-1" Windows_Chrome_120 0 empty_store).1.

Definition sample_store : Store :=
  (NewAIAgentWithProfile "agent-1" Windows_Chrome_120 0 empty_store).2.

(** The agent itself: its profile has the language tag en-US. *)
Definition sample_agent : AIAgent :=
  default {| ID := EmptyString; Profile := Windows_Chrome_120;
             Headers := None; Cookies := None; RateLimit := 0; Delay := 0;
             RetryCount := 0; ProxyURL := EmptyString; LastActivity := 0 |}
          (agents sample_store !! sample_agent_ref).

(** An override map with one entry, made in the store of the agent. *)
Definition sample_override_ref : loc :=
  (alloc_map {[ "Accept-Language" := "fr-FR" ]} sample_store).1.

Definition sample_store_override : Store :=
  (alloc_map {[ "Accept-Language" := "fr-FR" ]} sample_store).2.

Definition sample_pool : BrowserPool :=
  match AddAgent sample_store (NewBrowserPool 1) (Some sample_agent_ref) with
  | Returns (_, bp) => bp
  | Panics => NewBrowserPool 1
  end.


End Profiles.

(** ** The stealth tester: [TestResult], [TestURL] and the summary *)

Module Stealth.

(** [StealthConfig] holds all stealth-related configurations. *)
Record StealthConfig := {
  UserAgent : string;
  Platform : string;
  VendorString : string;
  Language : string;
  TimeZoneID : string;
  DevicePixelRatio : spec_float;
  ScreenWidth : Z;
  ScreenHeight : Z;
  WebGLVendor : string;
  WebGLRenderer : string;
  MaxTouchPoints : Z;
  HasMediaDevices : bool;
  HasGeolocation : bool
}.

(** The [float64] 1.0 *)
Definition float_one : spec_float := S754_finite false 4503599627370496 (-52).

Definition DefaultStealthConfig : StealthConfig := {|
  UserAgent := "Mozilla/5.0 (Windows NT 10.0; Win64; x64) AppleWebKit/537.36 (KHTML, like Gecko) Chrome/120.0.0.0 Safari/537.36";
  Platform := "Win32";
  VendorString := "Google Inc.";
  Language := "en-US";
  TimeZoneID := "America/New_York";
  DevicePixelRatio := float_one;
  ScreenWidth := 1920;
  ScreenHeight := 1080;
  WebGLVendor := "Google Inc. (Google)";
  WebGLRenderer := "ANGLE (Intel HD Graphics 630, OpenGL 4.1)";
  MaxTouchPoints := 0;
  HasMediaDevices := true;
  HasGeolocation := true |}.

(** [BuildStealthScript]: the format string of the source, cut at its
    fifteen verbs, with the formatted arguments in between. *)
Definition BuildStealthScript (config : StealthConfig) : string :=
  String.concat EmptyString [
"
(() => {
    'use strict';
    
    // ============================================
    // 1. WEBDRIVER DETECTION REMOVAL
    // ============================================
    delete Object.getPrototypeOf(navigator).webdriver;
    
    // Additional chrome automation flags
    const originalDescriptor = Object.getOwnPropertyDescriptor(navigator, 'webdriver');
    if (originalDescriptor && originalDescriptor.configurable) {
        Object.defineProperty(navigator, 'webdriver', {
            get: () => false,
            set: () => {},
            configurable: false,
            enumerable: false
        });
    }
    
    // ============================================
    // 2. USER AGENT SPOOFING
    // ============================================
    const userAgent = '";
UserAgent config;
"';
    Object.defineProperty(navigator, 'userAgent', {
        get: () => userAgent,
        enumerable: true,
        configurable: false
    });
    
    Object.defineProperty(navigator, 'appVersion', {
        get: () => userAgent.substring(userAgent.indexOf('/') + 1),
        enumerable: true,
        configurable: false
    });
    
    // ============================================
    // 3. PLATFORM AND VENDOR
    // ============================================
    Object.defineProperty(navigator, 'platform', {
        get: () => '";
Platform config;
"',
        enumerable: true,
        configurable: false
    });
    
    Object.defineProperty(navigator, 'vendor', {
        get: () => '";
VendorString config;
"',
        enumerable: true,
        configurable: false
    });
    
    // ============================================
    // 4. PLUGIN ARRAY MOCKING (Comprehensive)
    // ============================================
    const pluginData = [
        { 
            name: 'Chrome PDF Plugin',
            filename: 'internal-pdf-viewer',
            description: 'Portable Document Format (PDF)'
        },
        { 
            name: 'Chrome PDF Viewer',
            filename: 'mhjfbmdgcfjbbpaeojofohoefgiehjai',
            description: 'Portable Document Format'
        },
        { 
            name: 'Native Client Executable',
            filename: 'internal-nacl-plugin',
            description: ''
        }
    ];
    
    const mockPluginArray = () => {
        const pluginArray = Object.create(PluginArray.prototype);
        
        Object.defineProperty(pluginArray, 'length', {
            value: pluginData.length,
            writable: false,
            enumerable: false,
            configurable: false
        });
        
        pluginData.forEach((data, index) => {
            const plugin = Object.create(Plugin.prototype);
            
            Object.defineProperties(plugin, {
                name: {
                    value: data.name,
                    writable: false,
                    enumerable: true,
                    configurable: false
                },
                filename: {
                    value: data.filename,
                    writable: false,
                    enumerable: true,
                    configurable: false
                },
                description: {
                    value: data.description,
                    writable: false,
                    enumerable: true,
                    configurable: false
                },
                length: {
                    value: 1,
                    writable: false,
                    enumerable: false,
                    configurable: false
                },
                item: {
                    value: () => plugin,
                    writable: false,
                    enumerable: false,
                    configurable: false
                }
            });
            
            Object.defineProperty(pluginArray, index, {
                value: plugin,
                writable: false,
                enumerable: true,
                configurable: false
            });
        });
        
        Object.defineProperty(pluginArray, 'namedItem', {
            value: (name) => {
                return pluginData.find(p => p.name === name) || null;
            },
            writable: false,
            enumerable: false,
            configurable: false
        });
        
        return pluginArray;
    };
    
    Object.defineProperty(navigator, 'plugins', {
        get: mockPluginArray,
        enumerable: true,
        configurable: false
    });
    
    // ============================================
    // 5. MIME TYPES MOCKING
    // ============================================
    const mimeTypes = [
        {
            type: 'application/pdf',
            suffixes: 'pdf',
            description: 'Portable Document Format',
            enabledPlugin: pluginData[0]
        },
        {
            type: 'application/x-nacl',
            suffixes: '',
            description: 'Native Client Executable',
            enabledPlugin: pluginData[2]
        }
    ];
    
    const mockMimeTypeArray = () => {
        const mimeTypeArray = Object.create(MimeTypeArray.prototype);
        
        Object.defineProperty(mimeTypeArray, 'length', {
            value: mimeTypes.length,
            writable: false,
            enumerable: false,
            configurable: false
        });
        
        mimeTypes.forEach((data, index) => {
            const mimeType = Object.create(MimeType.prototype);
            
            Object.defineProperties(mimeType, {
                type: {
                    value: data.type,
                    writable: false,
                    enumerable: true,
                    configurable: false
                },
                suffixes: {
                    value: data.suffixes,
                    writable: false,
                    enumerable: true,
                    configurable: false
                },
                description: {
                    value: data.description,
                    writable: false,
                    enumerable: true,
                    configurable: false
                },
                enabledPlugin: {
                    value: data.enabledPlugin,
                    writable: false,
                    enumerable: true,
                    configurable: false
                }
            });
            
            Object.defineProperty(mimeTypeArray, index, {
                value: mimeType,
                writable: false,
                enumerable: true,
                configurable: false
            });
        });
        
        return mimeTypeArray;
    };
    
    Object.defineProperty(navigator, 'mimeTypes', {
        get: mockMimeTypeArray,
        enumerable: true,
        configurable: false
    });
    
    // ============================================
    // 6. CHROME EXTENSION OBJECT
    // ============================================
    const chromeRuntime = {
        connect: function(extensionId, connectInfo) {
            return {
                onMessage: { addListener: () => {} },
                onDisconnect: { addListener: () => {} },
                postMessage: () => {}
            };
        },
        sendMessage: function(extensionId, message, options, callback) {
            return Promise.resolve();
        },
        getURL: function(path) {
            return 'chrome-extension://invalid/' + path;
        },
        getManifest: function() {
            return {};
        },
        id: 'invalid'
    };
    
    if (!window.chrome) {
        Object.defineProperty(window, 'chrome', {
            get: () => ({
                runtime: chromeRuntime,
                loadTimes: () => ({}),
                csi: () => ({})
            }),
            enumerable: true,
            configurable: false
        });
    } else {
        if (!window.chrome.runtime) {
            window.chrome.runtime = chromeRuntime;
        }
    }
    
    // ============================================
    // 7. PERMISSIONS API FIX
    // ============================================
    const originalQuery = navigator.permissions.query;
    navigator.permissions.query = function(parameters) {
        if (parameters.name === 'notifications') {
            return Promise.resolve({ state: Notification.permission });
        }
        if (parameters.name === 'geolocation') {
            return Promise.resolve({ state: 'denied' });
        }
        return originalQuery.call(navigator.permissions, parameters);
    };
    
    // ============================================
    // 8. LANGUAGES AND LOCALES
    // ============================================
    Object.defineProperty(navigator, 'languages', {
        get: () => ['";
Language config;
"'],
        enumerable: true,
        configurable: false
    });
    
    Object.defineProperty(navigator, 'language', {
        get: () => '";
Language config;
"',
        enumerable: true,
        configurable: false
    });
    
    // ============================================
    // 9. WEBGL MASKING (Critical for Detection)
    // ============================================
    const glVendor = '";
WebGLVendor config;
"';
    const glRenderer = '";
WebGLRenderer config;
"';
    
    const patchWebGL = () => {
        const getParameter = WebGLRenderingContext.prototype.getParameter;
        WebGLRenderingContext.prototype.getParameter = function(parameter) {
            // 37445 = UNMASKED_VENDOR_WEBGL
            // 37446 = UNMASKED_RENDERER_WEBGL
            if (parameter === 37445) {
                return glVendor;
            }
            if (parameter === 37446) {
                return glRenderer;
            }
            return getParameter.call(this, parameter);
        };
    };
    
    const patchWebGL2 = () => {
        if (typeof WebGL2RenderingContext === 'undefined') return;
        const getParameter = WebGL2RenderingContext.prototype.getParameter;
        WebGL2RenderingContext.prototype.getParameter = function(parameter) {
            if (parameter === 37445) {
                return glVendor;
            }
            if (parameter === 37446) {
                return glRenderer;
            }
            return getParameter.call(this, parameter);
        };
    };
    
    patchWebGL();
    patchWebGL2();
    
    // ============================================
    // 10. CANVAS FINGERPRINT RANDOMIZATION
    // ============================================
    const originalToDataURL = HTMLCanvasElement.prototype.toDataURL;
    HTMLCanvasElement.prototype.toDataURL = function(type, quality) {
        const ctx = this.getContext('2d');
        const imageData = ctx.getImageData(0, 0, this.width, this.height);
        
        // Slightly modify canvas to break fingerprinting
        for (let i = 0; i < 100 && i < imageData.data.length; i += 4) {
            if (Math.random() > 0.95) {
                imageData.data[i] = (imageData.data[i] + Math.floor(Math.random() * 3) - 1) & 0xFF;
            }
        }
        ctx.putImageData(imageData, 0, 0);
        return originalToDataURL.call(this, type, quality);
    };
    
    // ============================================
    // 11. NAVIGATOR PROPERTIES
    // ============================================
    Object.defineProperty(navigator, 'hardwareConcurrency', {
        get: () => 8,
        enumerable: true,
        configurable: false
    });
    
    Object.defineProperty(navigator, 'deviceMemory', {
        get: () => 8,
        enumerable: true,
        configurable: false
    });
    
    Object.defineProperty(navigator, 'maxTouchPoints', {
        get: () => ";
pretty (MaxTouchPoints config);
",
        enumerable: true,
        configurable: false
    });
    
    Object.defineProperty(navigator, 'connection', {
        get: () => ({
            downlink: 10,
            effectiveType: '4g',
            rtt: 50,
            saveData: false,
            onchange: null
        }),
        enumerable: true,
        configurable: false
    });
    
    // ============================================
    // 12. SCREEN PROPERTIES
    // ============================================
    Object.defineProperty(screen, 'width', {
        get: () => ";
pretty (ScreenWidth config);
",
        enumerable: true,
        configurable: false
    });
    
    Object.defineProperty(screen, 'height', {
        get: () => ";
pretty (ScreenHeight config);
",
        enumerable: true,
        configurable: false
    });
    
    Object.defineProperty(screen, 'availWidth', {
        get: () => ";
pretty (ScreenWidth config);
",
        enumerable: true,
        configurable: false
    });
    
    Object.defineProperty(screen, 'availHeight', {
        get: () => ";
pretty (ScreenHeight config);
" - 40,
        enumerable: true,
        configurable: false
    });
    
    Object.defineProperty(screen, 'devicePixelRatio', {
        get: () => ";
FormatFloat1 (DevicePixelRatio config);
",
        enumerable: true,
        configurable: false
    });
    
    Object.defineProperty(screen, 'colorDepth', {
        get: () => 24,
        enumerable: true,
        configurable: false
    });
    
    Object.defineProperty(screen, 'pixelDepth', {
        get: () => 24,
        enumerable: true,
        configurable: false
    });
    
    // ============================================
    // 13. TIMEZONE SPOOFING
    // ============================================
    const originalToLocaleString = Date.prototype.toLocaleString;
    Date.prototype.toLocaleString = function(locales, options) {
        const opts = Object.assign({ timeZone: '";
TimeZoneID config;
"' }, options);
        return originalToLocaleString.call(this, locales, opts);
    };
    
    // ============================================
    // 14. MEDIA DEVICES
    // ============================================
    if (navigator.mediaDevices) {
        const originalEnumerateDevices = navigator.mediaDevices.enumerateDevices;
        navigator.mediaDevices.enumerateDevices = function() {
            return originalEnumerateDevices.call(this).then(devices => {
                return devices.map(device => ({
                    deviceId: device.deviceId.substring(0, 16) + '...',
                    groupId: device.groupId,
                    kind: device.kind,
                    label: device.label.replace(/.*/, 'Device'),
                    toJSON: () => ({})
                }));
            });
        };
    }
    
    // ============================================
    // 15. GEOLOCATION SPOOFING
    // ============================================
    if (navigator.geolocation) {
        const mockGeolocation = {
            getCurrentPosition: function(success, error) {
                setTimeout(() => {
                    success({
                        coords: {
                            latitude: 40.7128 + (Math.random() - 0.5) * 0.1,
                            longitude: -74.0060 + (Math.random() - 0.5) * 0.1,
                            accuracy: 50,
                            altitude: null,
                            altitudeAccuracy: null,
                            heading: null,
                            speed: null
                        },
                        timestamp: Date.now()
                    });
                }, 100);
            },
            watchPosition: function(success) {
                return this.getCurrentPosition(success);
            },
            clearWatch: function() {}
        };
        Object.defineProperty(navigator, 'geolocation', {
            get: () => mockGeolocation,
            enumerable: true,
            configurable: false
        });
    }
    
    // ============================================
    // 16. FETCH INTERCEPTION FOR HEADERS
    // ============================================
    const originalFetch = window.fetch;
    window.fetch = function(input, init) {
        const headers = init && init.headers ? new Headers(init.headers) : new Headers();
        
        // Ensure proper headers
        if (!headers.has('User-Agent')) {
            headers.set('User-Agent', userAgent);
        }
        if (!headers.has('Accept-Language')) {
            headers.set('Accept-Language', '";
Language config;
"');
        }
        if (!headers.has('Accept')) {
            headers.set('Accept', 'text/html,application/xhtml+xml,application/xml;q=0.9,*/*;q=0.8');
        }
        if (!headers.has('Sec-Fetch-Dest')) {
            headers.set('Sec-Fetch-Dest', 'document');
        }
        if (!headers.has('Sec-Fetch-Mode')) {
            headers.set('Sec-Fetch-Mode', 'navigate');
        }
        if (!headers.has('Sec-Fetch-Site')) {
            headers.set('Sec-Fetch-Site', 'none');
        }
        
        return originalFetch.call(this, input, Object.assign({}, init, { headers }));
    };
    
    // ============================================
    // 17. XMLHTTPREQUEST INTERCEPTION
    // ============================================
    const originalSetRequestHeader = XMLHttpRequest.prototype.setRequestHeader;
    XMLHttpRequest.prototype.setRequestHeader = function(header, value) {
        if (header === 'User-Agent') {
            value = userAgent;
        }
        return originalSetRequestHeader.call(this, header, value);
    };
    
    console.log('[Stealth] All patches applied successfully');
})();
" ].

(** [TestResult] holds information about a test. *)
Record TestResult := {
  URL : string;
  Title : string;
  ContentLength : Z;
  HasCloudflare : bool;
  Success : bool;
  ErrorMessage : string;
  ContentSnippet : string
}.

Definition set_Title (v : string) (r : TestResult) : TestResult :=
  {| URL := URL r; Title := v; ContentLength := ContentLength r;
     HasCloudflare := HasCloudflare r; Success := Success r;
     ErrorMessage := ErrorMessage r; ContentSnippet := ContentSnippet r |}.
Definition set_ContentLength (v : Z) (r : TestResult) : TestResult :=
  {| URL := URL r; Title := Title r; ContentLength := v;
     HasCloudflare := HasCloudflare r; Success := Success r;
     ErrorMessage := ErrorMessage r; ContentSnippet := ContentSnippet r |}.
Definition set_HasCloudflare (v : bool) (r : TestResult) : TestResult :=
  {| URL := URL r; Title := Title r; ContentLength := ContentLength r;
     HasCloudflare := v; Success := Success r;
     ErrorMessage := ErrorMessage r; ContentSnippet := ContentSnippet r |}.
Definition set_Success (v : bool) (r : TestResult) : TestResult :=
  {| URL := URL r; Title := Title r; ContentLength := ContentLength r;
     HasCloudflare := HasCloudflare r; Success := v;
     ErrorMessage := ErrorMessage r; ContentSnippet := ContentSnippet r |}.
Definition set_ErrorMessage (v : string) (r : TestResult) : TestResult :=
  {| URL := URL r; Title := Title r; ContentLength := ContentLength r;
     HasCloudflare := HasCloudflare r; Success := Success r;
     ErrorMessage := v; ContentSnippet := ContentSnippet r |}.
Definition set_ContentSnippet (v : string) (r : TestResult) : TestResult :=
  {| URL := URL r; Title := Title r; ContentLength := ContentLength r;
     HasCloudflare := HasCloudflare r; Success := Success r;
     ErrorMessage := ErrorMessage r; ContentSnippet := v |}.

(** [TestResult{URL: testURL}]: every other field has its zero value. *)
Definition new_result (testURL : string) : TestResult :=
  {| URL := testURL; Title := EmptyString; ContentLength := 0;
     HasCloudflare := false; Success := false;
     ErrorMessage := EmptyString; ContentSnippet := EmptyString |}.

Definition cfIndicators : list string :=
  [ "cloudflare";
    "challenge";
    "checking your browser";
    "error 1020";
    "please wait";
    "ray id";
    "cf-challenge";
    "cf-chl";
    "just a moment" ].

Section Classifier.
Variable unicode_To_LowerCase : Z → Z.

(** The loop over [cfIndicators]: the first indicator found in the
    lower-cased body sets the flag and leaves the loop. *)
Fixpoint scan_indicators (indicators : list string) (bodyHTML : string)
         (result : TestResult) : TestResult :=
  match indicators with
  | [] => result
  | indicator :: rest =>
      if Contains (ToLower unicode_To_LowerCase bodyHTML) indicator
      then set_HasCloudflare true result
      else scan_indicators rest bodyHTML result
  end.

(** The part of [TestURL] that classifies a page that was read without
    error: the indicator loop and the success test. *)
Definition classify (title bodyHTML : string) (result : TestResult)
  : TestResult :=
  let result := scan_indicators cfIndicators bodyHTML result in
  if negb (HasCloudflare result) && (500 <? len bodyHTML) && (0 <? len title)
  then set_Success true result
  else result.

(** Some indicator is found in the lower-cased body. *)
Definition marker_found (bodyHTML : string) : bool :=
  existsb (Contains (ToLower unicode_To_LowerCase bodyHTML)) cfIndicators.

(** [TestURL] from the point where [chromedp.Run] has returned: the
    browser session handed back [title], [bodyHTML] and [err].  The
    screenshot written to disk is not part of the result. *)
Definition TestURL (testURL title bodyHTML : string) (err : error)
  : TestResult :=
  let result := new_result testURL in
  let result := set_Title title result in
  let result := set_ContentLength (len bodyHTML) result in
  match err with
  | Some errStr =>
      if Contains errStr "ERR_HTTP2_PROTOCOL_ERROR"
      then set_ErrorMessage
             "HTTP/2 protocol error (site may block automated access)" result
      else set_ErrorMessage errStr result
  | None =>
      let result := classify title bodyHTML result in
      if 300 <? len bodyHTML
      then set_ContentSnippet (slice_to 300 bodyHTML) result
      else set_ContentSnippet bodyHTML result
  end.
End Classifier.

(** The three counters of the summary in [main]. *)
Record Counts := {
  successCount : Z;
  blockCount : Z;
  errorCount : Z
}.

(** One iteration of [for i, result := range results]. *)
Definition summary_step (c : Counts) (result : TestResult) : Counts :=
  if negb (String.eqb (ErrorMessage result) EmptyString) then
    {| successCount := successCount c; blockCount := blockCount c;
       errorCount := wrap_int (errorCount c + 1) |}
  else if HasCloudflare result then
    {| successCount := successCount c;
       blockCount := wrap_int (blockCount c + 1);
       errorCount := errorCount c |}
  else if Success result then
    {| successCount := wrap_int (successCount c + 1);
       blockCount := blockCount c; errorCount := errorCount c |}
  else c.

Definition summary (results : list TestResult) : Counts :=
  fold_left summary_step results
    {| successCount := 0; blockCount := 0; errorCount := 0 |}.

(** *** The outcome classes of the summary

    The branch of [summary_step] an outcome takes; an outcome that takes
    none (no error, no challenge marker, no success) is indeterminate. *)

Definition is_error (r : TestResult) : bool :=
  negb (String.eqb (ErrorMessage r) EmptyString).

Definition is_blocked (r : TestResult) : bool :=
  negb (is_error r) && HasCloudflare r.

Definition is_success (r : TestResult) : bool :=
  negb (is_error r) && negb (HasCloudflare r) && Success r.

Definition is_indeterminate (r : TestResult) : bool :=
  negb (is_error r) && negb (HasCloudflare r) && negb (Success r).

Definition count_of (f : TestResult → bool) (results : list TestResult) : Z :=
  Z.of_nat (length (List.filter f results)).

(** The fields the classifier does not write. *)
Definition same_page (r r' : TestResult) : Prop :=
  URL r' = URL r ∧ Title r' = Title r ∧ ContentLength r' = ContentLength r ∧
  ErrorMessage r' = ErrorMessage r ∧ ContentSnippet r' = ContentSnippet r.

End Stealth.


(** ** The proxy configuration

    The methods of [ProxyConfig] take its lock for their whole body; they
    are modelled as they run one at a time.  [os.Getenv] is the
    environment, a function from names to values that is empty for a name
    that is not set. *)

Module Proxy.

Record ProxyConfig := {
  URL : string;
  Username : string;
  Password : string;
  Server : string;
  Port : string;
  Type_ : string;  (* the field [Type] *)
  RotationEnabled : bool;
  ProxyList : list string;
  CurrentIndex : Z
}.

Definition set_Type (v : string) (pc : ProxyConfig) : ProxyConfig :=
  {| URL := URL pc; Username := Username pc; Password := Password pc;
     Server := Server pc; Port := Port pc; Type_ := v;
     RotationEnabled := RotationEnabled pc; ProxyList := ProxyList pc;
     CurrentIndex := CurrentIndex pc |}.

Definition set_CurrentIndex (v : Z) (pc : ProxyConfig) : ProxyConfig :=
  {| URL := URL pc; Username := Username pc; Password := Password pc;
     Server := Server pc; Port := Port pc; Type_ := Type_ pc;
     RotationEnabled := RotationEnabled pc; ProxyList := ProxyList pc;
     CurrentIndex := v |}.

Section Environment.
Variable unicode_To_LowerCase : Z → Z.
Variable Getenv : string → string.

(** [NewProxyConfig] creates a proxy configuration from the environment;
    a type that is not set is inferred from the URL. *)
Definition NewProxyConfig : ProxyConfig :=
  let config :=
    {| URL := Getenv "PROXY_URL";
       Username := Getenv "PROXY_USERNAME";
       Password := Getenv "PROXY_PASSWORD";
       Server := Getenv "PROXY_SERVER";
       Port := Getenv "PROXY_PORT";
       Type_ := Getenv "PROXY_TYPE";
       RotationEnabled :=
         String.eqb (ToLower unicode_To_LowerCase
                             (Getenv "PROXY_ROTATION_ENABLED")) "true";
       ProxyList := [];
       CurrentIndex := 0 |} in
  if String.eqb (Type_ config) EmptyString
     && negb (String.eqb (URL config) EmptyString)
  then
    if HasPrefix (URL config) "socks5://" then set_Type "socks5" config
    else if HasPrefix (URL config) "https://" then set_Type "https" config
    else set_Type "http" config
  else config.
End Environment.

(** [IsEnabled] checks if a proxy is configured. *)
Definition IsEnabled (pc : ProxyConfig) : bool :=
  negb (String.eqb (URL pc) EmptyString)
  && negb (String.eqb (URL pc) "none")
  && negb (String.eqb (URL pc) "disabled").

Definition GetProxyURL (pc : ProxyConfig) : string := URL pc.

Definition SetProxyURL (url : string) (pc : ProxyConfig) : ProxyConfig :=
  {| URL := url; Username := Username pc; Password := Password pc;
     Server := Server pc; Port := Port pc; Type_ := Type_ pc;
     RotationEnabled := RotationEnabled pc; ProxyList := ProxyList pc;
     CurrentIndex := CurrentIndex pc |}.

Definition AddProxyToList (proxy : string) (pc : ProxyConfig) : ProxyConfig :=
  {| URL := URL pc; Username := Username pc; Password := Password pc;
     Server := Server pc; Port := Port pc; Type_ := Type_ pc;
     RotationEnabled := RotationEnabled pc;
     ProxyList := ProxyList pc ++ [proxy];
     CurrentIndex := CurrentIndex pc |}.

(** [GetNextProxy]: the proxy returned and the configuration afterwards.
    Indexing the list outside its bounds panics. *)
Definition GetNextProxy (pc : ProxyConfig) : go_result (string * ProxyConfig) :=
  if negb (RotationEnabled pc) || (Z.of_nat (length (ProxyList pc)) =? 0)
  then Returns (URL pc, pc)
  else if Z.of_nat (length (ProxyList pc)) =? 0 then Returns (URL pc, pc)
  else
    if (CurrentIndex pc <? 0)
       || (Z.of_nat (length (ProxyList pc)) <=? CurrentIndex pc)
    then Panics
    else
      match ProxyList pc !! Z.to_nat (CurrentIndex pc) with
      | None => Panics
      | Some proxy =>
          Returns
            (proxy,
             set_CurrentIndex
               (Z.rem (wrap_int (CurrentIndex pc + 1))
                      (Z.of_nat (length (ProxyList pc)))) pc)
      end.

(** [validTypes] of [ValidateConfiguration]. *)
Definition validTypes : gmap string bool :=
  {[ "http" := true; "https" := true; "socks5" := true ]}.

(** [ValidateConfiguration] checks if the proxy configuration is valid. *)
Definition ValidateConfiguration (pc : ProxyConfig) : error :=
  if negb (IsEnabled pc) then None
  else if String.eqb (URL pc) EmptyString then Some "proxy URL is empty"
  else if negb (Contains (URL pc) "://")
  then Some ("invalid proxy URL format: " +:+ URL pc)
  else if negb (String.eqb (Type_ pc) EmptyString)
          && negb (default false (validTypes !! Type_ pc))
  then Some ("invalid proxy type: " +:+ Type_ pc)
  else None.

(** The bounds that [SleepBetweenProxyRequests] draws its delay from:
    [minMs] after the first test, and [maxMs] after the second, which
    compares it with the new [minMs]. *)
Definition sleep_min (minMs : Z) : Z := if minMs <=? 0 then 1000 else minMs.

Definition sleep_max (minMs maxMs : Z) : Z :=
  if maxMs <=? minMs then wrap_int (minMs + 2000) else maxMs.

(** [SleepBetweenProxyRequests]: the delay it sleeps for and returns, in
    nanoseconds; [draw] is the value of [rand.Intn], which panics for an
    argument that is not positive. *)
Definition SleepBetweenProxyRequests (minMs maxMs draw : Z) : go_result Z :=
  let minMs := sleep_min minMs in
  let maxMs := sleep_max minMs maxMs in
  if wrap_int (maxMs - minMs) <=? 0 then Panics
  else Returns (wrap_int (wrap_int (minMs + draw) * 1000000)).

(** The configurations a program can reach: made from the environment
    and changed through the methods. *)
Inductive config_built : ProxyConfig → Prop :=
  | built_env table env : config_built (NewProxyConfig table env)
  | built_set_url url pc : config_built pc → config_built (SetProxyURL url pc)
  | built_add_proxy proxy pc :
      config_built pc → config_built (AddProxyToList proxy pc)
  | built_next pc proxy pc' :
      config_built pc → GetNextProxy pc = Returns (proxy, pc') →
      config_built pc'.

(** [n] calls of [GetNextProxy] in a row: the proxies returned, in order,
    and the configuration afterwards. *)
Fixpoint next_proxies (n : nat) (pc : ProxyConfig)
  : go_result (list string * ProxyConfig) :=
  match n with
  | O => Returns ([], pc)
  | S k =>
      match GetNextProxy pc with
      | Panics => Panics
      | Returns (proxy, pc') =>
          match next_proxies k pc' with
          | Panics => Panics
          | Returns (proxies, pc'') => Returns (proxy :: proxies, pc'')
          end
      end
  end.

(** *** Sample values: an environment that sets a SOCKS proxy and turns
    rotation on, and its configuration with three proxies listed. *)

Definition sample_env (name : string) : string :=
  if String.eqb name "PROXY_URL" then "socks5://proxy.example.com:1080"
  else if String.eqb name "PROXY_ROTATION_ENABLED" then "TRUE"
  else EmptyString.

Definition sample_config : ProxyConfig :=
  AddProxyToList "http://c:3"
    (AddProxyToList "http://b:2"
       (AddProxyToList "http://a:1" (NewProxyConfig (λ r, r) sample_env))).

End Proxy.

(** ** The ScraperAPI configuration *)

Module Scraper.

Record ScraperAPIConfig := {
  APIKey : string;
  Enabled : bool;
  RenderJS : bool;
  CountryCode : string;
  Timeout : Z
}.

Section Environment.
Variable unicode_To_LowerCase : Z → Z.
Variable Getenv : string → string.

(** [NewScraperAPIConfig] creates a configuration from the environment. *)
Definition NewScraperAPIConfig : ScraperAPIConfig :=
  let apiKey := Getenv "SCRAPER_API_KEY" in
  {| APIKey := apiKey;
     Enabled := negb (String.eqb apiKey EmptyString)
                && negb (String.eqb apiKey "none");
     RenderJS :=
       String.eqb (ToLower unicode_To_LowerCase (Getenv "SCRAPER_RENDER_JS"))
                  "true";
     CountryCode := Getenv "SCRAPER_COUNTRY_CODE";
     Timeout := 10000 |}.
End Environment.

(** [url.shouldEscape] in the mode of a query component: letters, digits
    and the four marks [-], [_], [.] and [~] are kept. *)
Definition shouldEscape (c : ascii) : bool :=
  let b := byte_val c in
  if in_range 97 122 b || in_range 65 90 b || in_range 48 57 b then false
  else if (b =? 45) || (b =? 95) || (b =? 46) || (b =? 126) then false
  else true.

(** [upperhex[n]] for [0 <= n < 16]. *)
Definition upperhex (n : Z) : ascii :=
  match String.get (Z.to_nat n) "0123456789ABCDEF" with
  | Some c => c
  | None => "0"%char
  end.

(** [url.QueryEscape]: a space becomes [+], a byte to escape becomes [%]
    and its two hexadecimal digits. *)
Fixpoint QueryEscape (s : string) : string :=
  match s with
  | EmptyString => EmptyString
  | String c s' =>
      if Ascii.eqb c " "%char then String "+"%char (QueryEscape s')
      else if shouldEscape c then
        String "%"%char
          (String (upperhex (Z.shiftr (byte_val c) 4))
             (String (upperhex (Z.land (byte_val c) 15)) (QueryEscape s')))
      else String c (QueryEscape s')
  end.

(** [GetScraperURL] converts a regular URL to a ScraperAPI URL. *)
Definition GetScraperURL (sc : ScraperAPIConfig) (targetURL : string)
  : string :=
  if negb (Enabled sc) then targetURL
  else
    let scraperURL := "http://api.scraperapi.com?api_key=" +:+ APIKey sc in
    let scraperURL := scraperURL +:+ ("&url=" +:+ QueryEscape targetURL) in
    let scraperURL :=
      if RenderJS sc then scraperURL +:+ "&render=true" else scraperURL in
    let scraperURL :=
      if negb (String.eqb (CountryCode sc) EmptyString)
      then scraperURL +:+ ("&country_code=" +:+ CountryCode sc)
      else scraperURL in
    let scraperURL :=
      if 0 <? Timeout sc
      then scraperURL +:+ ("&timeout=" +:+ pretty (Timeout sc))
      else scraperURL in
    scraperURL.

Definition IsEnabled (sc : ScraperAPIConfig) : bool := Enabled sc.

(** [ValidateConfiguration] checks if the configuration is valid. *)
Definition ValidateConfiguration (sc : ScraperAPIConfig) : error :=
  if negb (Enabled sc) then None
  else if String.eqb (APIKey sc) EmptyString
  then Some "SCRAPER_API_KEY environment variable is not set"
  else if len (APIKey sc) <? 10
  then Some "API key appears to be invalid (too short)"
  else None.

(** [PrintConfiguration]: what is written to the console, and whether the
    call returns; slicing the key outside its bounds panics. *)
Definition PrintConfiguration (sc : ScraperAPIConfig)
  : string * go_result unit :=
  if negb (Enabled sc) then
    ("🔗 ScraperAPI Configuration:" +:+ nl
     +:+ "   • Status: ❌ DISABLED (no API key configured)" +:+ nl
     +:+ "   • Setup: export SCRAPER_API_KEY=your_key" +:+ nl
     +:+ nl, Returns tt)
  else
    let out := "🔗 ScraperAPI Configuration:" +:+ nl
               +:+ "   • Status: ✅ ENABLED" +:+ nl in
    if len (APIKey sc) <? 4 then (out, Panics)
    else
      let out :=
        out +:+ "   • API Key: " +:+ slice_to 4 (APIKey sc) +:+ "..."
            +:+ slice_from (String.length (APIKey sc) - 4) (APIKey sc)
            +:+ nl in
      let out :=
        out +:+ "   • JavaScript Rendering: "
            +:+ (if RenderJS sc then "true" else "false") +:+ nl in
      let out :=
        if negb (String.eqb (CountryCode sc) EmptyString)
        then out +:+ "   • Country Code: " +:+ CountryCode sc +:+ nl
        else out in
      let out := out +:+ "   • Timeout: " +:+ pretty (Timeout sc) +:+ "ms"
                     +:+ nl in
      (out +:+ "   • Cloudflare Bypass: ✅ YES" +:+ nl
           +:+ "   • Free Tier: 1,000 requests/month" +:+ nl
           +:+ nl, Returns tt).

(** The inverse of [QueryEscape] on its image: [+] is a space, [%] and
    two hexadecimal digits are a byte. *)
Definition unhex (c : ascii) : Z :=
  let b := byte_val c in
  if in_range 48 57 b then b - 48
  else if in_range 65 70 b then b - 65 + 10
  else if in_range 97 102 b then b - 97 + 10
  else 0.

Fixpoint unescape (s : string) : string :=
  match s with
  | EmptyString => EmptyString
  | String c s' =>
      if Ascii.eqb c "+"%char then String " "%char (unescape s')
      else if Ascii.eqb c "%"%char then
        match s' with
        | String h (String l s'') =>
            String (byte_of (Z.lor (Z.shiftl (unhex h) 4) (unhex l)))
                   (unescape s'')
        | _ => String c (unescape s')
        end
      else String c (unescape s')
  end.

(** A byte that [QueryEscape] may write: a letter, a digit or one of
    [-], [_], [.], [~], [%] and [+]. *)
Definition query_safe (c : ascii) : bool :=
  negb (shouldEscape c) || Ascii.eqb c "%"%char || Ascii.eqb c "+"%char.

Fixpoint all_bytes (f : ascii → bool) (s : string) : bool :=
  match s with
  | EmptyString => true
  | String c s' => f c && all_bytes f s'
  end.

(** What [GetScraperURL] puts behind the escaped target. *)
Definition url_options (sc : ScraperAPIConfig) : string :=
  (if RenderJS sc then "&render=true" else EmptyString)
  +:+ (if negb (String.eqb (CountryCode sc) EmptyString)
       then "&country_code=" +:+ CountryCode sc else EmptyString)
  +:+ (if 0 <? Timeout sc then "&timeout=" +:+ pretty (Timeout sc)
       else EmptyString).

End Scraper.

(** ** The behaviour simulator *)

Module Behavior.





End Behavior.

(* ===================================================================== *)
(** * Part II: properties *)
(* ===================================================================== *)

Import Profiles.

(** ** The profile registry *)

Section Registry.
Implicit Types (catalog : list BrowserProfile) (name platform : string).

Lemma first_named_None catalog name :
  first_named catalog name = None ↔ ∀ p, p ∈ catalog → Name p ≠ name.
Proof.
  induction catalog as [|q rest IH]; simpl.
  - split; [intros _ p Hp; inversion Hp | done].
  - destruct (String.eqb_spec (Name q) name) as [Heq|Hne].
    + split; [done|]. intros H. exfalso. apply (H q); [left | exact Heq].
    + rewrite IH. split.
      * intros H p Hp. apply elem_of_cons in Hp as [->|Hp]; auto.
      * intros H p Hp. apply H. by right.
Qed.

Lemma first_named_Some catalog name p :
  first_named catalog name = Some p → p ∈ catalog ∧ Name p = name.
Proof.
  induction catalog as [|q rest IH]; simpl; [done|].
  destruct (String.eqb_spec (Name q) name) as [Heq|Hne].
  - intros [= <-]. split; [left | done].
  - intros H. destruct (IH H) as [Hin Hn]. split; [by right | done].
Qed.

(** With pairwise different names, the loop finds the profile itself. *)
Lemma first_named_unique catalog p :
  NoDup (Name <$> catalog) → p ∈ catalog →
  first_named catalog (Name p) = Some p.
Proof.
  induction catalog as [|q rest IH]; simpl.
  - intros _ Hp. inversion Hp.
  - rewrite NoDup_cons. intros [Hq Hnd] Hp.
    destruct (String.eqb_spec (Name q) (Name p)) as [Heq|Hne].
    + apply elem_of_cons in Hp as [->|Hp]; [done|].
      exfalso. apply Hq. rewrite Heq. apply list_elem_of_fmap. eauto.
    + apply elem_of_cons in Hp as [->|Hp]; [done | auto].
Qed.

Lemma StealthProfiles_names_NoDup : NoDup (Name <$> StealthProfiles).
Proof. refine (bool_decide_unpack _ _). vm_compute. exact I. Qed.

Lemma StealthProfiles_NoDup : NoDup StealthProfiles.
Proof. eapply NoDup_fmap_1, StealthProfiles_names_NoDup. Qed.

Lemma by_platform_nil platform tags :
  concat ((GetProfilesByPlatform_in [] : string → _) <$> tags) = [].
Proof. induction tags as [|t tags IH]; simpl; auto. Qed.

Lemma by_platform_elem catalog platform p :
  p ∈ GetProfilesByPlatform_in catalog platform ↔
  p ∈ catalog ∧ Platform p = platform.
Proof.
  induction catalog as [|q rest IH]; simpl.
  - split; [intros H; inversion H | intros [H _]; inversion H].
  - destruct (String.eqb_spec (Platform q) platform) as [Heq|Hne].
    + rewrite !elem_of_cons, IH. intuition congruence.
    + rewrite elem_of_cons, IH. intuition congruence.
Qed.

(** A profile of another platform does not change the answer for the
    tags of a list. *)
Lemma by_platform_skip q rest tags :
  Platform q ∉ tags →
  concat (GetProfilesByPlatform_in (q :: rest) <$> tags) =
  concat (GetProfilesByPlatform_in rest <$> tags).
Proof.
  induction tags as [|t tags IH]; [done|].
  rewrite not_elem_of_cons. intros [Hne Hnin].
  rewrite !fmap_cons. cbn [concat]. rewrite (IH Hnin). f_equal.
  simpl. by destruct (String.eqb_spec (Platform q) t).
Qed.

(** The answers for a duplicate-free list of tags that covers the catalog
    partition the catalog. *)
Lemma by_platform_partition catalog tags :
  NoDup tags →
  (∀ p, p ∈ catalog → Platform p ∈ tags) →
  concat (GetProfilesByPlatform_in catalog <$> tags) ≡ₚ catalog.
Proof.
  intros Hnd. induction catalog as [|q rest IH]; intros Hcov.
  - by rewrite (by_platform_nil EmptyString).
  - assert (Hq : Platform q ∈ tags) by (apply Hcov; left).
    apply elem_of_Permutation in Hq as [others Hperm].
    assert (Hnd' : NoDup (Platform q :: others)) by by rewrite <- Hperm.
    apply NoDup_cons in Hnd' as [Hfresh _].
    rewrite Hperm at 1. rewrite fmap_cons. cbn [concat].
    rewrite (by_platform_skip q rest others Hfresh).
    cbn [GetProfilesByPlatform_in]. rewrite String.eqb_refl.
    rewrite <- app_comm_cons. constructor.
    etrans; [|apply IH; intros p Hp; apply Hcov; by right].
    by rewrite Hperm.
Qed.

End Registry.

(** C4: a name that matches no catalog profile yields the default profile,
    the first entry of the catalog, and not a failure; a name that matches
    a catalog profile yields that profile. *)
Theorem GetProfileByName_default_on_miss (name : string) :
  head StealthProfiles = Some Windows_Chrome_120 ∧
  ((∀ p, p ∈ StealthProfiles → Name p ≠ name) →
   GetProfileByName name = Returns Windows_Chrome_120) ∧
  (∀ p, p ∈ StealthProfiles → Name p = name →
   GetProfileByName name = Returns p).
Proof.
  split; [reflexivity|]. unfold GetProfileByName, GetProfileByName_in. split.
  - intros Hmiss. apply first_named_None in Hmiss. by rewrite Hmiss.
  - intros p Hp <-.
    by rewrite (first_named_unique _ _ StealthProfiles_names_NoDup Hp).
Qed.

Lemma GetProfileByName_default_on_miss_witness :
  GetProfileByName "Opera 99" = Returns Windows_Chrome_120 ∧
  GetProfileByName "Linux Firefox 121" = Returns Linux_Firefox_121.
Proof.
  split.
  - destruct (GetProfileByName_default_on_miss "Opera 99") as (_ & Hmiss & _).
    apply Hmiss. apply Forall_forall. vm_compute.
    repeat constructor; discriminate.
  - destruct (GetProfileByName_default_on_miss "Linux Firefox 121")
      as (_ & _ & Hhit).
    apply Hhit; [|reflexivity]. vm_compute. do 7 right. left.
Defined.

(** C7: every platform tag that occurs in the catalog has a non-empty
    answer, and the answers for the distinct tags of the catalog, put
    together, hold every catalog profile exactly once. *)
Theorem GetProfilesByPlatform_covers_catalog :
  let tags := remove_dups (Platform <$> StealthProfiles) in
  Forall (λ p, ∃ q rest, GetProfilesByPlatform (Platform p) = q :: rest)
         StealthProfiles ∧
  NoDup tags ∧
  concat (GetProfilesByPlatform <$> tags) ≡ₚ StealthProfiles ∧
  NoDup StealthProfiles.
Proof.
  intros tags. repeat split.
  - apply Forall_forall. intros p Hp.
    assert (Hin : p ∈ GetProfilesByPlatform (Platform p))
      by (apply by_platform_elem; done).
    destruct (GetProfilesByPlatform (Platform p)) as [|q rest]; [|eauto].
    inversion Hin.
  - apply NoDup_remove_dups.
  - apply by_platform_partition; [apply NoDup_remove_dups|].
    intros p Hp. apply elem_of_remove_dups, list_elem_of_fmap. eauto.
  - apply StealthProfiles_NoDup.
Qed.

Example GetProfilesByPlatform_tags :
  remove_dups (Platform <$> StealthProfiles) = ["Linux x86_64"; "Win32"; "MacIntel"]
  ∧ Name <$> GetProfilesByPlatform "Linux x86_64"
    = ["Linux Chrome 120"; "Linux Firefox 121"]
  ∧ GetProfilesByPlatform "Android" = [].
Proof. vm_compute. done. Qed.

(** ** The browser pool *)

Section Pool.
Implicit Types (bp : BrowserPool) (agent : ptr) (σ : Store).

Lemma AddAgent_full σ bp agent :
  MaxAgents bp ≤ pool_len bp →
  AddAgent σ bp agent =
  Returns (Some ("pool is full (max " +:+ pretty (MaxAgents bp) +:+ " agents)"),
           bp).
Proof.
  intros Hfull. unfold AddAgent.
  destruct (Z.leb_spec (MaxAgents bp) (pool_len bp)); [done | lia].
Qed.

(** A pool built through its interface stores no [nil] agent. *)
Lemma pool_built_no_nil bp id agent :
  pool_built bp → Agents bp !! id = Some agent → agent ≠ None.
Proof.
  intros Hb. revert id agent.
  induction Hb as [m | σ bp new err bp' Hb IH Hadd | bp id' Hb IH];
    intros id agent.
  - simpl. by rewrite lookup_empty.
  - unfold AddAgent in Hadd.
    destruct (MaxAgents bp <=? pool_len bp); [simplify_eq; by apply IH|].
    revert Hadd. destruct new as [l|]; simpl; [|done].
    destruct (agents σ !! l) as [a|]; [|done].
    intros Hadd. simplify_eq. simpl.
    destruct (decide (ID a = id)) as [->|Hne].
    + rewrite lookup_insert_eq. by intros [= <-].
    + rewrite lookup_insert_ne by done. apply IH.
  - simpl. intros Hl. apply lookup_delete_Some in Hl as [_ Hl]. eauto.
Qed.

(** Counting down from a drawn index below the number of entries
    reaches an entry. *)
Lemma pick_agent_elem (entries : list (string * ptr)) idx :
  0 ≤ idx < Z.of_nat (length entries) →
  ∃ id, (id, pick_agent idx entries) ∈ entries.
Proof.
  revert idx. induction entries as [|[id agent] rest IH]; intros idx Hidx.
  - simpl in Hidx. lia.
  - simpl. destruct (Z.eqb_spec idx 0) as [->|Hne].
    + exists id. left.
    + destruct (IH (idx - 1)) as [id' Hin].
      { rewrite length_cons in Hidx. lia. }
      exists id'. by right.
Qed.

End Pool.

(** C6: a pool that holds as many agents as its ceiling rejects one more
    with an error and stays as it is: nothing is inserted, nothing is
    evicted, the size is the same. *)
Theorem AddAgent_rejected_when_full (σ : Store) (bp : BrowserPool) (agent : ptr) :
  pool_len bp = MaxAgents bp →
  ∃ msg bp',
    AddAgent σ bp agent = Returns (Some msg, bp') ∧
    bp' = bp ∧ Agents bp' = Agents bp ∧ GetPoolSize bp' = GetPoolSize bp.
Proof.
  intros Hfull. eexists _, bp. rewrite AddAgent_full by lia. done.
Qed.

(** C10: for a pool built through its interface, whatever order the loop
    visits the agents in and whatever index below the pool size is drawn,
    the selection is [nil] exactly when the pool is empty, and for a
    non-empty pool it is a non-[nil] agent stored in the pool. *)
Theorem GetRandomAgent_nil_iff_empty
        (bp : BrowserPool) (entries : list (string * ptr)) (idx : Z) :
  pool_built bp →
  range_order (Agents bp) entries →
  (pool_len bp ≠ 0 → 0 ≤ idx < pool_len bp) →
  (GetRandomAgent_with entries idx bp = None ↔ Agents bp = ∅) ∧
  (Agents bp ≠ ∅ →
   ∃ l id, GetRandomAgent_with entries idx bp = Some l ∧
           Agents bp !! id = Some (Some l)).
Proof.
  intros Hb Hord Hidx. unfold GetRandomAgent_with, pool_len in *.
  destruct (decide (Agents bp = ∅)) as [Hempty|Hne].
  - rewrite Hempty, map_size_empty. simpl. split; [done|]. by intros [].
  - assert (Hsz : size (Agents bp) ≠ 0%nat) by by apply map_size_non_empty_iff.
    destruct (Z.eqb_spec (Z.of_nat (size (Agents bp))) 0) as [|_]; [lia|].
    destruct (pick_agent_elem entries idx) as [id Hin].
    { unfold range_order in Hord.
      rewrite Hord, length_map_to_list. apply Hidx. lia. }
    apply (elem_of_Permutation_proper _ _ _ Hord), elem_of_map_to_list in Hin.
    pose proof (pool_built_no_nil _ _ _ Hb Hin) as Hnil.
    destruct (pick_agent idx entries) as [l|]; [|done].
    split; [split; [done | intros; done]|]. intros _. eauto.
Qed.

Lemma sample_pool_built : pool_built sample_pool.
Proof.
  apply (built_add sample_store (NewBrowserPool 1) (Some sample_agent_ref) None).
  - apply built_new.
  - vm_compute. reflexivity.
Qed.

Lemma AddAgent_rejected_when_full_witness :
  ∃ msg bp',
    AddAgent sample_store sample_pool (Some sample_agent_ref)
    = Returns (Some msg, bp') ∧
    bp' = sample_pool ∧ Agents bp' = Agents sample_pool ∧
    GetPoolSize bp' = GetPoolSize sample_pool.
Proof.
  apply (AddAgent_rejected_when_full sample_store sample_pool
           (Some sample_agent_ref)).
  vm_compute. reflexivity.
Defined.

Lemma GetRandomAgent_nil_iff_empty_witness :
  (GetRandomAgent_with (map_to_list (Agents sample_pool)) 0 sample_pool = None
   ↔ Agents sample_pool = ∅) ∧
  (Agents sample_pool ≠ ∅ →
   ∃ l id,
     GetRandomAgent_with (map_to_list (Agents sample_pool)) 0 sample_pool
     = Some l ∧
     Agents sample_pool !! id = Some (Some l)).
Proof.
  apply (GetRandomAgent_nil_iff_empty sample_pool
           (map_to_list (Agents sample_pool)) 0).
  - apply sample_pool_built.
  - unfold range_order. reflexivity.
  - intros _. vm_compute. split; [discriminate | reflexivity].
Defined.

Example sample_pool_selection :
  GetRandomAgent_with (map_to_list (Agents sample_pool)) 0 sample_pool
  = Some sample_agent_ref
  ∧ GetRandomAgent_with [] 0 (NewBrowserPool 1) = None
  ∧ AddAgent sample_store sample_pool (Some sample_agent_ref)
    = Returns (Some "pool is full (max 1 agents)", sample_pool).
Proof. vm_compute. done. Qed.

(** ** Agent headers *)

Section Headers.
Implicit Types (σ : Store) (a : AIAgent) (p customHeaders : ptr)
         (entries defaults customs : list (string * string))
         (m src : gmap string string).

Lemma assign_all_cons k v entries m :
  assign_all ((k, v) :: entries) m = assign_all entries (<[k:=v]> m).
Proof. reflexivity. Qed.

Lemma copy_entries_cons dst k v entries σ :
  copy_entries dst ((k, v) :: entries) σ =
  copy_entries dst entries (map_assign dst k v σ).
Proof. reflexivity. Qed.

Lemma assign_all_union entries m :
  assign_all entries m = list_to_map (reverse entries) ∪ m.
Proof.
  revert m. induction entries as [|[k v] rest IH]; intros m.
  - simpl. by rewrite (left_id ∅ (∪)).
  - rewrite assign_all_cons, IH, reverse_cons, list_to_map_app. simpl.
    rewrite <- (assoc (∪)). f_equal.
    rewrite insert_empty. by rewrite <- insert_union_singleton_l.
Qed.

(** Assigning the entries of a map, in whatever order they are visited,
    lays that map over the target. *)
Lemma assign_all_range src entries m :
  range_order src entries → assign_all entries m = src ∪ m.
Proof.
  unfold range_order. intros Hord. rewrite assign_all_union. f_equal.
  rewrite <- (list_to_map_to_list src).
  apply list_to_map_proper.
  - rewrite reverse_Permutation, Hord. apply NoDup_fst_map_to_list.
  - by rewrite reverse_Permutation.
Qed.

Lemma copy_entries_maps dst entries σ :
  maps (copy_entries dst entries σ) = alter (assign_all entries) dst (maps σ) ∧
  agents (copy_entries dst entries σ) = agents σ.
Proof.
  revert σ. induction entries as [|[k v] rest IH]; intros σ.
  - simpl. split; [|done]. apply map_eq. intros l.
    destruct (decide (dst = l)) as [->|Hne].
    + rewrite lookup_alter_eq. by destruct (maps σ !! l).
    + by rewrite lookup_alter_ne.
  - rewrite copy_entries_cons.
    destruct (IH (map_assign dst k v σ)) as [-> ->]. simpl.
    split; [|done]. by rewrite alter_alter_eq.
Qed.

(** What a run of [HeadersWithDefaults] returns, whatever the visiting
    orders: a new location that holds the overrides laid over the
    defaults, in a store that is otherwise the same. *)
Lemma HeadersWithDefaults_with_result defaults customs σ :
  HeadersWithDefaults_with defaults customs σ =
  (fresh (dom (maps σ)),
   {| maps := <[fresh (dom (maps σ)) := assign_all customs (assign_all defaults ∅)]>
                (maps σ);
      agents := agents σ |}).
Proof.
  unfold HeadersWithDefaults_with, alloc_map.
  set (merged := fresh (dom (maps σ))).
  set (σ1 := {| maps := <[merged:=∅]> (maps σ); agents := agents σ |}).
  destruct (copy_entries_maps merged defaults σ1) as [Hm1 Ha1].
  destruct (copy_entries_maps merged customs (copy_entries merged defaults σ1))
    as [Hm2 Ha2].
  destruct (copy_entries merged customs (copy_entries merged defaults σ1))
    as [ms ags].
  simpl in *. subst ms ags. rewrite Hm1, Ha1. f_equal. f_equal.
  subst σ1. simpl. by rewrite !alter_insert_eq.
Qed.

Lemma HeadersWithDefaults_with_range defaults customs σ m src :
  range_order m defaults → range_order src customs →
  HeadersWithDefaults_with defaults customs σ =
  (fresh (dom (maps σ)),
   {| maps := <[fresh (dom (maps σ)) := src ∪ m]> (maps σ);
      agents := agents σ |}).
Proof.
  intros Hd Hc. rewrite HeadersWithDefaults_with_result.
  rewrite (assign_all_range _ _ _ Hd), (assign_all_range _ _ _ Hc).
  by rewrite (right_id ∅ (∪)).
Qed.

Lemma fresh_map_not_live σ : fresh (dom (maps σ)) ∉ dom (maps σ).
Proof. apply is_fresh. Qed.

(** A live map reads the same after a new map has been made and filled. *)
Lemma read_map_frame σ p m :
  live_map σ p →
  read_map {| maps := <[fresh (dom (maps σ)) := m]> (maps σ);
              agents := agents σ |} p = read_map σ p.
Proof.
  destruct p as [l|]; [|done]. simpl. intros Hl.
  rewrite lookup_insert_ne; [done|].
  intros <-. by apply (fresh_map_not_live σ).
Qed.

(** The visiting orders of a run are orders of the two maps as they were
    before the call. *)
Lemma HeadersWithDefaults_orders a customHeaders σ res :
  live_map σ (Headers a) → live_map σ customHeaders →
  HeadersWithDefaults a customHeaders σ res →
  ∃ defaults customs,
    range_order (read_map σ (Headers a)) defaults ∧
    range_order (read_map σ customHeaders) customs ∧
    res = HeadersWithDefaults_with defaults customs σ.
Proof.
  intros Hlive Hlive' Hrun.
  destruct Hrun as [defaults customs σ1 merged Hd Hc].
  exists defaults, customs. subst σ1 merged. unfold alloc_map in *.
  cbn [fst snd] in *.
  rewrite read_map_frame in Hd by done.
  split; [done|]. split; [|done].
  destruct (copy_entries_maps (fresh (dom (maps σ))) defaults
              {| maps := <[fresh (dom (maps σ)):=∅]> (maps σ);
                 agents := agents σ |}) as [Hm Ha].
  destruct (copy_entries _ defaults _) as [ms ags]. simpl in Hm, Ha.
  subst ms ags. simpl in Hc. rewrite alter_insert_eq in Hc.
  by rewrite read_map_frame in Hc.
Qed.

(** The run that visits both maps in the order of [map_to_list] is a
    run. *)
Lemma HeadersWithDefaults_run_sorted_runs a customHeaders σ :
  live_map σ (Headers a) → live_map σ customHeaders →
  HeadersWithDefaults a customHeaders σ
    (HeadersWithDefaults_run_sorted a customHeaders σ).
Proof.
  intros Hlive Hlive'. unfold HeadersWithDefaults_run_sorted.
  constructor; unfold range_order, alloc_map; cbn [fst snd].
  - by rewrite read_map_frame.
  - destruct (copy_entries_maps (fresh (dom (maps σ)))
                (map_to_list (read_map σ (Headers a)))
                {| maps := <[fresh (dom (maps σ)):=∅]> (maps σ);
                   agents := agents σ |}) as [Hm Ha].
    destruct (copy_entries _ _ _) as [ms ags]. simpl in Hm, Ha.
    subst ms ags. simpl. rewrite alter_insert_eq.
    by rewrite read_map_frame.
Qed.

End Headers.

(** C5: merging an override map into the default headers of an agent has
    one result, whatever order the two maps are visited in: the overrides
    laid over the defaults.  Every key of the override map has the
    override value in the result, and every other key has its default
    value. *)
Theorem HeadersWithDefaults_override_wins
        (a : AIAgent) (customHeaders : ptr) (σ : Store)
        (res1 res2 : loc * Store) :
  live_map σ (Headers a) → live_map σ customHeaders →
  HeadersWithDefaults a customHeaders σ res1 →
  HeadersWithDefaults a customHeaders σ res2 →
  res1 = res2 ∧
  read_map res1.2 (Some res1.1)
    = read_map σ customHeaders ∪ read_map σ (Headers a) ∧
  (∀ k v, read_map σ customHeaders !! k = Some v →
          read_map res1.2 (Some res1.1) !! k = Some v) ∧
  (∀ k, read_map σ customHeaders !! k = None →
        read_map res1.2 (Some res1.1) !! k = read_map σ (Headers a) !! k).
Proof.
  intros Hlive Hlive' Hrun1 Hrun2.
  destruct (HeadersWithDefaults_orders _ _ _ _ Hlive Hlive' Hrun1)
    as (d1 & c1 & Hd1 & Hc1 & ->).
  destruct (HeadersWithDefaults_orders _ _ _ _ Hlive Hlive' Hrun2)
    as (d2 & c2 & Hd2 & Hc2 & ->).
  rewrite (HeadersWithDefaults_with_range _ _ _ _ _ Hd1 Hc1).
  rewrite (HeadersWithDefaults_with_range _ _ _ _ _ Hd2 Hc2).
  assert (Hread : read_map
            {| maps := <[fresh (dom (maps σ)) :=
                          read_map σ customHeaders ∪ read_map σ (Headers a)]>
                         (maps σ);
               agents := agents σ |} (Some (fresh (dom (maps σ))))
          = read_map σ customHeaders ∪ read_map σ (Headers a)).
  { simpl. by rewrite lookup_insert_eq. }
  cbn [fst snd]. rewrite Hread. repeat split.
  - intros k v Hk. by apply lookup_union_Some_l.
  - intros k Hk. by apply lookup_union_r.
Qed.

(** C9: the merge returns a map at a location that was not in use before
    the call, and changes nothing else: every map of the store, the
    default header map of the agent among them, and every agent is as
    before, also when the override map redefines keys of the defaults and
    when it is the default map itself. *)
Theorem HeadersWithDefaults_frame
        (a : AIAgent) (customHeaders : ptr) (σ : Store) (res : loc * Store) :
  live_map σ (Headers a) → live_map σ customHeaders →
  HeadersWithDefaults a customHeaders σ res →
  (res.1 ∉ dom (maps σ)) ∧
  Some (res.1) ≠ Headers a ∧
  (∀ l, l ∈ dom (maps σ) → maps res.2 !! l = maps σ !! l) ∧
  agents res.2 = agents σ ∧
  read_map res.2 (Headers a) = read_map σ (Headers a).
Proof.
  intros Hlive Hlive' Hrun.
  destruct (HeadersWithDefaults_orders _ _ _ _ Hlive Hlive' Hrun)
    as (d & c & _ & _ & ->).
  rewrite HeadersWithDefaults_with_result. cbn [fst snd].
  split; [apply fresh_map_not_live|]. split.
  { intros Heq. rewrite <- Heq in Hlive. by apply (fresh_map_not_live σ). }
  split; [|split; [done | by apply read_map_frame]].
  intros l Hl. simpl. rewrite lookup_insert_ne; [done|].
  intros <-. by apply (fresh_map_not_live σ).
Qed.

(** The header map made for a profile is a new map that carries the
    navigation identity and the language tag of the profile. *)
Lemma generateRealisticHeaders_spec (profile : BrowserProfile) σ :
  let res := generateRealisticHeaders profile σ in
  res.1 = fresh (dom (maps σ)) ∧
  res.1 ∈ dom (maps res.2) ∧
  agents res.2 = agents σ ∧
  read_map res.2 (Some res.1) !! "User-Agent" = Some (UserAgent profile) ∧
  read_map res.2 (Some res.1) !! "Accept-Language" = Some (Language profile).
Proof.
  unfold generateRealisticHeaders, alloc_map, map_assign.
  set (h := fresh (dom (maps σ))).
  destruct (Platform profile =? "MacIntel")%string;
    [|destruct (Platform profile =? "Linux x86_64")%string];
    cbn [fst snd maps agents read_map];
    rewrite ?alter_insert_eq, ?dom_insert_L, ?lookup_insert_eq;
    (split; [done|]); (split; [set_solver|]); (split; [done|]);
    split; vm_compute; reflexivity.
Qed.

(** An agent made for a profile has a live header map with the language
    tag of the profile, so the merge applies to it. *)
Lemma NewAIAgentWithProfile_headers id (profile : BrowserProfile) draw σ :
  let res := NewAIAgentWithProfile id profile draw σ in
  ∃ a, agents res.2 !! res.1 = Some a ∧
       ID a = id ∧ Profile a = profile ∧
       live_map res.2 (Headers a) ∧
       read_map res.2 (Headers a) !! "Accept-Language"
         = Some (Language profile).
Proof.
  unfold NewAIAgentWithProfile.
  pose proof (generateRealisticHeaders_spec profile σ) as Hgen.
  destruct (generateRealisticHeaders profile σ) as [h σ1].
  cbn [fst snd] in Hgen. destruct Hgen as (_ & Hlive & _ & _ & Hlang).
  unfold alloc_map, alloc_agent. cbn [fst snd maps agents].
  eexists. split; [apply lookup_insert_eq|].
  cbn [ID Profile Headers live_map maps]. repeat split.
  - rewrite dom_insert_L. set_solver.
  - cbn [read_map maps] in *. rewrite lookup_insert_ne; [done|].
    intros Heq. rewrite <- Heq in Hlive. by apply (is_fresh (dom (maps σ1))).
Qed.

Lemma sample_maps_live :
  live_map sample_store_override (Headers sample_agent) ∧
  live_map sample_store_override (Some sample_override_ref).
Proof.
  assert (Hh : Headers sample_agent = Some 1%positive)
    by (vm_compute; reflexivity).
  unfold live_map. rewrite Hh.
  split; apply (proj2 (elem_of_dom _ _)); vm_compute; eauto.
Qed.

Lemma HeadersWithDefaults_override_wins_witness :
  let res := HeadersWithDefaults_run_sorted sample_agent
               (Some sample_override_ref) sample_store_override in
  read_map sample_store_override (Headers sample_agent) !! "Accept-Language"
    = Some "en-US" ∧
  read_map res.2 (Some res.1) !! "Accept-Language" = Some "fr-FR".
Proof.
  intros res. split; [vm_compute; reflexivity|].
  destruct sample_maps_live as [Hlive Hlive'].
  pose proof (HeadersWithDefaults_run_sorted_runs _ _ _ Hlive Hlive') as Hrun.
  destruct (HeadersWithDefaults_override_wins _ _ _ _ _ Hlive Hlive' Hrun Hrun)
    as (_ & _ & Hwins & _).
  apply Hwins. vm_compute. reflexivity.
Defined.

Lemma HeadersWithDefaults_frame_witness :
  let res := HeadersWithDefaults_run_sorted sample_agent
               (Headers sample_agent) sample_store_override in
  (res.1 ∉ dom (maps sample_store_override)) ∧
  read_map res.2 (Headers sample_agent)
    = read_map sample_store_override (Headers sample_agent).
Proof.
  intros res.
  destruct sample_maps_live as [Hlive _].
  pose proof (HeadersWithDefaults_run_sorted_runs _ _ _ Hlive Hlive) as Hrun.
  destruct (HeadersWithDefaults_frame _ _ _ _ Hlive Hlive Hrun)
    as (Hfresh & _ & _ & _ & Hsame).
  split; [exact Hfresh | exact Hsame].
Defined.

(** The header map made for a profile carries its language tag and the
    platform hint of its platform. *)
Example generateRealisticHeaders_sample :
  let '(h, σ) := generateRealisticHeaders MacOS_Firefox_121 empty_store in
  read_map σ (Some h) !! "Accept-Language" = Some "en-US" ∧
  read_map σ (Some h) !! "Sec-Ch-Ua-Platform" = Some (dq +:+ "macOS" +:+ dq) ∧
  size (read_map σ (Some h)) = 16%nat.
Proof. vm_compute. done. Qed.

(** ** New agents *)

Section Agents.
Implicit Types (σ : Store) (profile : BrowserProfile) (a : ptr).

Lemma generateRealisticHeaders_frame profile σ :
  let res := generateRealisticHeaders profile σ in
  dom (maps res.2) = {[ fresh (dom (maps σ)) ]} ∪ dom (maps σ) ∧
  ∀ l, l ≠ fresh (dom (maps σ)) → maps res.2 !! l = maps σ !! l.
Proof.
  unfold generateRealisticHeaders, alloc_map, map_assign.
  set (h := fresh (dom (maps σ))).
  destruct (Platform profile =? "MacIntel")%string;
    [|destruct (Platform profile =? "Linux x86_64")%string];
    cbn [fst snd maps agents];
    rewrite ?alter_insert_eq, ?dom_insert_L;
    (split; [done|]); intros l Hl; by rewrite lookup_insert_ne.
Qed.

End Agents.

(** The header map of a profile always has sixteen entries, and its
    platform hint follows the platform tag: macOS for MacIntel, Linux for
    Linux x86_64, and Windows for every other tag. *)
Theorem generateRealisticHeaders_platform_hint
        (profile : BrowserProfile) (σ : Store) :
  let res := generateRealisticHeaders profile σ in
  size (read_map res.2 (Some res.1)) = 16%nat ∧
  read_map res.2 (Some res.1) !! "Sec-Ch-Ua-Platform" =
    Some (dq +:+
          (if String.eqb (Platform profile) "MacIntel" then "macOS"
           else if String.eqb (Platform profile) "Linux x86_64" then "Linux"
           else "Windows") +:+ dq).
Proof.
  unfold generateRealisticHeaders, alloc_map, map_assign.
  destruct (Platform profile =? "MacIntel")%string;
    [|destruct (Platform profile =? "Linux x86_64")%string];
    cbn [fst snd maps agents read_map];
    rewrite ?alter_insert_eq, ?lookup_insert_eq;
    split; vm_compute; reflexivity.
Qed.

(** An agent made for a profile sits at a new location and owns two new
    maps, different from each other: its headers and an empty cookie map.
    Its delay is between 2 and 7 seconds, and nothing that was in the
    store before is changed. *)
Theorem NewAIAgentWithProfile_fresh_agent
        (id : string) (profile : BrowserProfile) (draw : Z) (σ : Store) :
  0 ≤ draw < 5000 →
  let res := NewAIAgentWithProfile id profile draw σ in
  (res.1 ∉ dom (agents σ)) ∧
  (∃ agent h c,
     agents res.2 !! res.1 = Some agent ∧
     ID agent = id ∧ Profile agent = profile ∧
     Headers agent = Some h ∧ Cookies agent = Some c ∧ h ≠ c ∧
     (h ∉ dom (maps σ)) ∧ (c ∉ dom (maps σ)) ∧
     read_map res.2 (Some c) = ∅ ∧
     2000 ≤ Delay agent < 7000 ∧ RateLimit agent = 1 ∧
     RetryCount agent = 3) ∧
  (∀ l, l ∈ dom (maps σ) → maps res.2 !! l = maps σ !! l) ∧
  (∀ l, l ∈ dom (agents σ) → agents res.2 !! l = agents σ !! l).
Proof.
  intros Hdraw. unfold NewAIAgentWithProfile.
  pose proof (generateRealisticHeaders_spec profile σ) as Hspec.
  pose proof (generateRealisticHeaders_frame profile σ) as Hframe.
  destruct (generateRealisticHeaders profile σ) as [h σ1].
  cbn [fst snd] in Hspec, Hframe.
  destruct Hspec as (-> & Hin & Hag & _ & _).
  destruct Hframe as [Hdom Hsame].
  unfold alloc_map, alloc_agent. cbn [fst snd maps agents].
  set (h := fresh (dom (maps σ))) in *.
  set (c := fresh (dom (maps σ1))).
  assert (Hh : h ∉ dom (maps σ)) by apply is_fresh.
  assert (Hc : c ∉ dom (maps σ1)) by apply is_fresh.
  assert (Hhc : h ≠ c) by (intros Heq; apply Hc; by rewrite <- Heq).
  rewrite Hag. split; [apply is_fresh|]. split; [|split].
  - eexists _, h, c. rewrite lookup_insert_eq.
    cbn [ID Profile Headers Cookies Delay RateLimit RetryCount read_map maps].
    rewrite lookup_insert_eq. cbn [default].
    repeat split; try done; try (simpl; lia).
    intros Hcin. apply Hc. rewrite Hdom. apply elem_of_union. by right.
  - intros l Hl. rewrite lookup_insert_ne.
    + apply Hsame. intros ->. by apply Hh.
    + intros <-. apply Hc. rewrite Hdom. apply elem_of_union. by right.
  - intros l Hl. rewrite lookup_insert_ne; [done|].
    intros <-. by apply (is_fresh (dom (agents σ))).
Qed.

Lemma NewAIAgentWithProfile_fresh_agent_witness :
  0 ≤ 4999 < 5000 ∧
  agents (NewAIAgentWithProfile "agent-2" Linux_Firefox_121 4999
                                sample_store).2 !! sample_agent_ref
  = agents sample_store !! sample_agent_ref.
Proof.
  split; [lia|].
  destruct (NewAIAgentWithProfile_fresh_agent "agent-2" Linux_Firefox_121
              4999 sample_store) as (_ & _ & _ & Hagents); [lia|].
  apply Hagents. apply (proj2 (elem_of_dom _ _)). vm_compute. eauto.
Defined.

Lemma generateRealisticHeaders_client_hint (profile : BrowserProfile) (σ : Store) :
  let res := generateRealisticHeaders profile σ in
  read_map res.2 (Some res.1) !! "Sec-Ch-Ua" =
    Some (dq +:+ "Not_A Brand" +:+ dq +:+ ";v=" +:+ dq +:+ "8" +:+ dq
          +:+ ", " +:+ dq +:+ "Chromium" +:+ dq +:+ ";v=" +:+ dq
          +:+ "120" +:+ dq +:+ ", " +:+ dq +:+ "Google Chrome"
          +:+ dq +:+ ";v=" +:+ dq +:+ "120" +:+ dq).
Proof.
  unfold generateRealisticHeaders, alloc_map, map_assign.
  destruct (Platform profile =? "MacIntel")%string;
    [|destruct (Platform profile =? "Linux x86_64")%string];
    cbn [fst snd maps agents read_map];
    rewrite ?alter_insert_eq, ?lookup_insert_eq;
    vm_compute; reflexivity.
Qed.

(** [NewAIAgent] never panics for a draw below the size of the catalog:
    the agent gets the catalog profile at the draw, and its headers carry
    the user agent and the language of that profile.  The client hint
    [Sec-Ch-Ua] does not follow the profile: it names Chrome 120 for
    every profile, also for a Firefox or a Safari one. *)
Theorem NewAIAgent_catalog_profile
        (id : string) (idx : nat) (draw : Z) (σ : Store) :
  (idx < length StealthProfiles)%nat →
  ∃ a σ' agent h profile,
    NewAIAgent id idx draw σ = Returns (a, σ') ∧
    StealthProfiles !! idx = Some profile ∧
    agents σ' !! a = Some agent ∧
    ID agent = id ∧ Profile agent = profile ∧ Headers agent = Some h ∧
    read_map σ' (Some h) !! "User-Agent" = Some (UserAgent profile) ∧
    read_map σ' (Some h) !! "Accept-Language" = Some (Language profile) ∧
    read_map σ' (Some h) !! "Sec-Ch-Ua" =
      Some (dq +:+ "Not_A Brand" +:+ dq +:+ ";v=" +:+ dq +:+ "8" +:+ dq
            +:+ ", " +:+ dq +:+ "Chromium" +:+ dq +:+ ";v=" +:+ dq
            +:+ "120" +:+ dq +:+ ", " +:+ dq +:+ "Google Chrome"
            +:+ dq +:+ ";v=" +:+ dq +:+ "120" +:+ dq).
Proof.
  intros Hidx. destruct (lookup_lt_is_Some_2 _ _ Hidx) as [profile Hp].
  unfold NewAIAgent, GetRandomProfile. rewrite Hp.
  unfold NewAIAgentWithProfile.
  pose proof (generateRealisticHeaders_spec profile σ) as Hgen.
  pose proof (generateRealisticHeaders_client_hint profile σ) as Hhint.
  destruct (generateRealisticHeaders profile σ) as [h σ1].
  cbn [fst snd] in Hgen, Hhint.
  destruct Hgen as (_ & Hlive & _ & Hua & Hlang).
  unfold alloc_map, alloc_agent. cbn [fst snd maps agents].
  assert (Hne : fresh (dom (maps σ1)) ≠ h).
  { intros Heq. rewrite <- Heq in Hlive. by apply (is_fresh (dom (maps σ1))). }
  eexists _, _, _, h, profile. split; [reflexivity|]. split; [done|].
  split; [apply lookup_insert_eq|].
  cbn [ID Profile Headers read_map maps] in *.
  rewrite lookup_insert_ne by done. done.
Qed.

Lemma NewAIAgent_catalog_profile_witness :
  (7 < length StealthProfiles)%nat ∧
  StealthProfiles !! 7%nat = Some Linux_Firefox_121 ∧
  ∃ res, NewAIAgent "agent-7" 7 0 empty_store = Returns res.
Proof.
  assert (Hidx : (7 < length StealthProfiles)%nat) by (simpl; lia).
  split; [exact Hidx|]. split; [reflexivity|].
  destruct (NewAIAgent_catalog_profile "agent-7" 7 0 empty_store Hidx)
    as (a & σ' & _ & _ & _ & Hret & _).
  exists (a, σ'). exact Hret.
Defined.

(** ** The summary of a run *)

Import Stealth.

Section Summary.
Implicit Types (c : Counts) (r : TestResult) (results : list TestResult).

Lemma wrap_int_small z : 0 ≤ z ≤ MaxInt → wrap_int z = z.
Proof.
  unfold wrap_int, MaxInt. intros Hz.
  rewrite Z.mod_small by lia. lia.
Qed.

(** Two iterations of the loop commute. *)
Lemma summary_step_comm c r1 r2 :
  summary_step (summary_step c r1) r2 = summary_step (summary_step c r2) r1.
Proof.
  unfold summary_step.
  destruct (negb (ErrorMessage r1 =? EmptyString)%string),
    (negb (ErrorMessage r2 =? EmptyString)%string),
    (HasCloudflare r1), (HasCloudflare r2), (Success r1), (Success r2);
    reflexivity.
Qed.

Lemma fold_summary_step_perm results results' :
  results ≡ₚ results' →
  ∀ c, fold_left summary_step results c = fold_left summary_step results' c.
Proof.
  induction 1 as [|r l l' _ IH|r1 r2 l|l1 l2 l3 _ IH1 _ IH2]; intros c; simpl.
  - reflexivity.
  - apply IH.
  - by rewrite summary_step_comm.
  - by rewrite IH1, IH2.
Qed.

(** Every outcome is in exactly one class. *)
Lemma classes_partition results :
  count_of is_success results + count_of is_blocked results
  + count_of is_error results + count_of is_indeterminate results
  = Z.of_nat (length results).
Proof.
  unfold count_of. induction results as [|r l IH]; [reflexivity|].
  cbn [List.filter length].
  unfold is_success, is_blocked, is_indeterminate in *.
  destruct (is_error r), (HasCloudflare r), (Success r); simpl; lia.
Qed.

Lemma count_of_nonneg f results : 0 ≤ count_of f results.
Proof. unfold count_of. lia. Qed.

(** While the counters cannot overflow, the loop adds to each counter the
    number of outcomes of its class. *)
Lemma fold_summary_step_counts results c :
  0 ≤ successCount c → 0 ≤ blockCount c → 0 ≤ errorCount c →
  successCount c + blockCount c + errorCount c + Z.of_nat (length results)
    ≤ MaxInt →
  fold_left summary_step results c =
  {| successCount := successCount c + count_of is_success results;
     blockCount := blockCount c + count_of is_blocked results;
     errorCount := errorCount c + count_of is_error results |}.
Proof.
  revert c. induction results as [|r l IH]; intros [s b e]; simpl.
  - intros. unfold count_of. simpl. f_equal; lia.
  - intros Hs Hb He Hlen.
    unfold count_of, is_success, is_blocked, summary_step, is_error in *.
    cbn [successCount blockCount errorCount List.filter].
    destruct (negb (ErrorMessage r =? EmptyString)%string);
      [|destruct (HasCloudflare r); [|destruct (Success r)]];
      cbn [negb andb successCount blockCount errorCount];
      rewrite ?wrap_int_small by lia;
      rewrite IH by (cbn [successCount blockCount errorCount]; lia);
      cbn [successCount blockCount errorCount length];
      f_equal; lia.
Qed.

End Summary.

(** C3, as the code has it: the summary keeps three counters, for
    succeeded, blocked and errored outcomes, and none for indeterminate
    ones.  For a sequence whose length fits in an [int], each counter is
    the number of outcomes of its class, the three counters and the number
    of indeterminate outcomes add up to the length of the sequence, and a
    permutation of the sequence has the same counters. *)
Theorem summary_counts_and_order (results : list TestResult) :
  Z.of_nat (length results) ≤ MaxInt →
  successCount (summary results) = count_of is_success results ∧
  blockCount (summary results) = count_of is_blocked results ∧
  errorCount (summary results) = count_of is_error results ∧
  successCount (summary results) + blockCount (summary results)
  + errorCount (summary results) + count_of is_indeterminate results
  = Z.of_nat (length results) ∧
  (∀ results', results ≡ₚ results' → summary results' = summary results).
Proof.
  intros Hlen. unfold summary.
  rewrite fold_summary_step_counts by (simpl; lia). simpl.
  repeat split.
  - apply classes_partition.
  - intros results' Hperm.
    rewrite <- (fold_summary_step_perm _ _ Hperm).
    by rewrite fold_summary_step_counts by (simpl; lia).
Qed.

(** ** Go strings: substrings and lower-casing *)

Section GoStrings.
Implicit Types (s t pre mid post sub : string) (c : ascii).

Lemma string_app_cons c s t : String c s +:+ t = String c (s +:+ t).
Proof. reflexivity. Qed.

Lemma string_app_nil_l s : EmptyString +:+ s = s.
Proof. reflexivity. Qed.

Lemma string_app_assoc s t u : (s +:+ t) +:+ u = s +:+ (t +:+ u).
Proof.
  induction s as [|c s IH]; [done|]. by rewrite !string_app_cons, IH.
Qed.

Lemma string_app_nil_r s : s +:+ EmptyString = s.
Proof.
  induction s as [|c s IH]; [done|]. by rewrite string_app_cons, IH.
Qed.

Lemma HasPrefix_spec s sub :
  HasPrefix s sub = true ↔ ∃ post, s = sub +:+ post.
Proof.
  revert s. induction sub as [|p sub IH]; intros s; simpl.
  - split; [intros _; by exists s | done].
  - destruct s as [|c s].
    + split; [done | intros [post H]; discriminate H].
    + destruct (Ascii.eqb_spec c p) as [->|Hne].
      * rewrite IH. split; intros [post H]; exists post;
          rewrite string_app_cons in *; congruence.
      * split; [done|]. intros [post H].
        rewrite string_app_cons in H. congruence.
Qed.

(** [Contains] is the substring relation. *)
Lemma Contains_spec s sub :
  Contains s sub = true ↔ ∃ pre post, s = pre +:+ sub +:+ post.
Proof.
  induction s as [|c s IH].
  - simpl. rewrite orb_false_r, HasPrefix_spec. split.
    + intros [post H]. by exists EmptyString, post.
    + intros (pre & post & H). exists post.
      destruct pre; [done | discriminate H].
  - cbn [Contains]. rewrite orb_true_iff, HasPrefix_spec, IH. split.
    + intros [[post H] | (pre & post & H)].
      * by exists EmptyString, post.
      * exists (String c pre), post. by rewrite string_app_cons, H.
    + intros (pre & post & H). destruct pre as [|c' pre].
      * left. eauto.
      * right. exists pre, post. rewrite string_app_cons in H. congruence.
Qed.

Lemma lower_bytes_app s t :
  lower_bytes (s +:+ t) = lower_bytes s +:+ lower_bytes t.
Proof.
  induction s as [|c s IH]; [done|].
  rewrite string_app_cons. simpl. by rewrite string_app_cons, IH.
Qed.

Lemma lower_bytes_no_upper s : hasUpper s = false → lower_bytes s = s.
Proof.
  induction s as [|c s IH]; simpl; [done|].
  rewrite orb_false_iff. intros [Hc Hs].
  unfold lower_byte. rewrite Hc. by rewrite IH.
Qed.

Lemma isASCII_app s t : isASCII (s +:+ t) = isASCII s && isASCII t.
Proof.
  induction s as [|c s IH]; [done|].
  rewrite string_app_cons. simpl. by rewrite IH, andb_assoc.
Qed.

(** Lower-casing bytes keeps the bytes above the ASCII range. *)
Lemma lower_byte_ascii c :
  (byte_val (lower_byte c) <? RuneSelf) = (byte_val c <? RuneSelf).
Proof. by destruct c as [[] [] [] [] [] [] [] []]. Qed.

Lemma isASCII_lower_bytes s : isASCII (lower_bytes s) = isASCII s.
Proof.
  induction s as [|c s IH]; simpl; [done|]. by rewrite lower_byte_ascii, IH.
Qed.

(** *** The rune path on ASCII bytes *)

Section Runes.
Variable unicode_To_LowerCase : Z → Z.
Local Abbreviation ToLower := (ToLower unicode_To_LowerCase).
Local Abbreviation lower_rune := (unicode_ToLower unicode_To_LowerCase).

(** An ASCII byte is a rune of its own, and its lower case is written
    back as one byte. *)
Lemma decode_ascii c s :
  byte_val c < RuneSelf → DecodeRuneInString c s = (byte_val c, 1%nat).
Proof.
  destruct c as [[] [] [] [] [] [] [] []]; intros H;
    first [reflexivity | vm_compute in H; discriminate H].
Qed.

Lemma lower_rune_ascii c :
  byte_val c < RuneSelf →
(0 <=? lower_rune (byte_val c)) = true ∧
  AppendRune (lower_rune (byte_val c)) = String (lower_byte c) EmptyString.
Proof.
  destruct c as [[] [] [] [] [] [] [] []]; intros H;
    first [by split | vm_compute in H; discriminate H].
Qed.

Lemma map_runes_ascii mid post :
  isASCII mid = true →
  map_runes lower_rune 0 (mid +:+ post) =
  lower_bytes mid +:+ map_runes lower_rune 0 post.
Proof.
  induction mid as [|c mid IH]; [done|].
  cbn [isASCII]. rewrite andb_true_iff, Z.ltb_lt. intros [Hc Hmid].
  rewrite string_app_cons. cbn [map_runes lower_bytes].
  rewrite (decode_ascii c _ Hc).
  destruct (lower_rune_ascii c Hc) as [-> ->].
  cbn [Nat.pred]. by rewrite IH.
Qed.

(** *** The decoder never steps over an ASCII byte *)

Lemma lead_info_range (b0 : Z) sz lo hi :
  lead_info b0 = Some (sz, lo, hi) → RuneSelf ≤ lo.
Proof.
  unfold lead_info, RuneSelf.
  repeat match goal with
         | |- context [if ?b then _ else _] => destruct b
         end; intros [= <- <- <-]; lia.
Qed.

Lemma decode_size c s :
  high_prefix (Nat.pred (DecodeRuneInString c s).2) s.
Proof.
  unfold DecodeRuneInString.
  destruct (lead_info (byte_val c)) as [[[sz lo] hi]|] eqn:Hlead; [|exact I].
  apply lead_info_range in Hlead. unfold RuneSelf in *.
  destruct s as [|c1 t1]; [exact I|].
  unfold in_range.
  destruct (Z.leb_spec lo (byte_val c1)); [|exact I].
  destruct (Z.leb_spec (byte_val c1) hi); [|exact I].
  cbn [negb andb].
  destruct (sz <=? 2)%nat;
    [cbn [high_prefix Nat.pred snd]; unfold RuneSelf; split; [lia | exact I]|].
  destruct t1 as [|c2 t2]; [exact I|].
  destruct (Z.leb_spec 0x80 (byte_val c2)); [|exact I].
  destruct (Z.leb_spec (byte_val c2) 0xBF); [|exact I].
  cbn [negb andb].
  destruct (sz <=? 3)%nat;
    [cbn [high_prefix Nat.pred snd]; unfold RuneSelf; repeat split; lia|].
  destruct t2 as [|c3 t3]; [exact I|].
  destruct (Z.leb_spec 0x80 (byte_val c3)); [|exact I].
  destruct (Z.leb_spec (byte_val c3) 0xBF); [|exact I].
  cbn [high_prefix Nat.pred snd negb andb]. unfold RuneSelf.
  repeat split; lia.
Qed.

(** Whatever precedes an ASCII byte, the loop of [Map] arrives at that
    byte at the start of a rune. *)
Lemma map_runes_reaches_ascii (mapping : Z → Z) pre c rest skip :
  byte_val c < RuneSelf →
  high_prefix skip (pre +:+ String c rest) →
  ∃ out, map_runes mapping skip (pre +:+ String c rest) =
         out +:+ map_runes mapping 0 (String c rest).
Proof.
  intros Hc. revert skip.
  induction pre as [|b pre IH]; intros skip Hskip.
  - destruct skip as [|k]; [by exists EmptyString|].
    simpl in Hskip. lia.
  - rewrite string_app_cons. cbn [map_runes]. destruct skip as [|k].
    + pose proof (decode_size b (pre +:+ String c rest)) as Hsize.
      destruct (DecodeRuneInString b (pre +:+ String c rest)) as [r size].
      cbn [snd] in Hsize. destruct (IH _ Hsize) as [out ->].
      exists ((if 0 <=? mapping r then AppendRune (mapping r) else EmptyString)
                +:+ out).
      by rewrite string_app_assoc.
    + apply IH. simpl in Hskip. apply Hskip.
Qed.

(** [strings.ToLower] turns an ASCII stretch of its argument into the
    byte-wise lower case of the stretch. *)
Lemma ToLower_ascii_segment pre mid post :
  isASCII mid = true →
  ∃ pre' post',
    ToLower (pre +:+ mid +:+ post) = pre' +:+ lower_bytes mid +:+ post'.
Proof.
  intros Hmid. unfold ToLower.
  destruct (isASCII (pre +:+ mid +:+ post)) eqn:Hall.
  - exists (lower_bytes pre), (lower_bytes post).
    rewrite <- !lower_bytes_app.
    destruct (hasUpper (pre +:+ mid +:+ post)) eqn:Hup; [done|].
    by rewrite lower_bytes_no_upper.
  - destruct mid as [|c mid].
    + exists (Map lower_rune (pre +:+ post)), EmptyString.
      by rewrite !string_app_nil_l, string_app_nil_r.
    + cbn [isASCII] in Hmid. apply andb_true_iff in Hmid as [Hc Hmid'].
      apply Z.ltb_lt in Hc.
      destruct (map_runes_reaches_ascii lower_rune pre c (mid +:+ post) 0 Hc I)
        as [out Hout].
      exists out, (map_runes lower_rune 0 post).
      unfold Map. rewrite string_app_cons, Hout, <- string_app_cons.
      rewrite map_runes_ascii; [done|].
      cbn [isASCII]. apply andb_true_iff. split; [by apply Z.ltb_lt | done].
Qed.

Lemma ToLower_Contains_fold body pre mid post sub :
  body = pre +:+ mid +:+ post →
  lower_bytes mid = sub → isASCII sub = true →
  Contains (ToLower body) sub = true.
Proof.
  intros -> <- Hsub. rewrite isASCII_lower_bytes in Hsub.
  destruct (ToLower_ascii_segment pre mid post Hsub) as (pre' & post' & ->).
  apply Contains_spec. eauto.
Qed.

End Runes.
End GoStrings.

(** ** The classifier *)

Section ClassifierFacts.
Variable unicode_To_LowerCase : Z → Z.
Local Abbreviation ToLower := (ToLower unicode_To_LowerCase).
Local Abbreviation scan_indicators := (scan_indicators unicode_To_LowerCase).
Local Abbreviation classify := (classify unicode_To_LowerCase).
Local Abbreviation TestURL := (TestURL unicode_To_LowerCase).
Implicit Types (title bodyHTML testURL : string) (result : TestResult).

Local Abbreviation marker_found := (marker_found unicode_To_LowerCase).

Lemma scan_indicators_flag indicators bodyHTML result :
  HasCloudflare (scan_indicators indicators bodyHTML result) =
  HasCloudflare result || existsb (Contains (ToLower bodyHTML)) indicators.
Proof.
  induction indicators as [|i rest IH]; simpl.
  - by rewrite orb_false_r.
  - destruct (Contains (ToLower bodyHTML) i); simpl.
    + by rewrite orb_true_r.
    + exact IH.
Qed.

Lemma scan_indicators_Success indicators bodyHTML result :
  Success (scan_indicators indicators bodyHTML result) = Success result.
Proof.
  induction indicators as [|i rest IH]; simpl; [done|].
  by destruct (Contains (ToLower bodyHTML) i).
Qed.

Lemma classify_flags title bodyHTML result :
  HasCloudflare result = false → Success result = false →
  HasCloudflare (classify title bodyHTML result) = marker_found bodyHTML ∧
  Success (classify title bodyHTML result) =
    negb (marker_found bodyHTML) && (500 <? len bodyHTML) && (0 <? len title).
Proof.
  intros Hcf Hs. unfold classify, marker_found.
  pose proof (scan_indicators_flag cfIndicators bodyHTML result) as Hflag.
  pose proof (scan_indicators_Success cfIndicators bodyHTML result) as Hsucc.
  rewrite Hcf in Hflag. rewrite Hs in Hsucc. cbn [orb] in Hflag.
  destruct (scan_indicators cfIndicators bodyHTML result) as [u t n cf ok e sn].
  cbn [HasCloudflare Success] in *. subst cf ok.
  destruct (negb _ && (500 <? len bodyHTML) && (0 <? len title)); done.
Qed.

(** The two flags of a page read without error. *)
Lemma TestURL_flags testURL title bodyHTML :
  HasCloudflare (TestURL testURL title bodyHTML None) = marker_found bodyHTML ∧
  Success (TestURL testURL title bodyHTML None) =
    negb (marker_found bodyHTML) && (500 <? len bodyHTML) && (0 <? len title).
Proof.
  unfold TestURL.
  match goal with
  | |- context [classify title bodyHTML ?r] =>
      destruct (classify_flags title bodyHTML r eq_refl eq_refl) as [Hcf Hs]
  end.
  by destruct (300 <? len bodyHTML).
Qed.

(** A page read without error carries no error message. *)
Lemma TestURL_no_error testURL title bodyHTML :
  ErrorMessage (TestURL testURL title bodyHTML None) = EmptyString.
Proof.
  unfold TestURL, Stealth.classify.
  match goal with
  | |- context [scan_indicators ?l bodyHTML ?r] =>
      assert (Hscan : ErrorMessage (scan_indicators l bodyHTML r)
                      = EmptyString);
      [|destruct (scan_indicators l bodyHTML r) as [u t n cf ok e sn]]
  end.
  { induction cfIndicators as [|i rest IH]; simpl; [done|].
    by destruct (Contains (ToLower bodyHTML) i). }
  cbn [ErrorMessage HasCloudflare] in *.
  destruct (negb cf && _ && _), (300 <? len bodyHTML); exact Hscan.
Qed.

Lemma marker_found_true bodyHTML :
  marker_found bodyHTML = true ↔
  ∃ indicator, indicator ∈ cfIndicators ∧
               Contains (ToLower bodyHTML) indicator = true.
Proof.
  unfold marker_found. rewrite existsb_exists.
  by setoid_rewrite list_elem_of_In.
Qed.

Lemma marker_found_false bodyHTML :
  marker_found bodyHTML = false ↔
  ∀ indicator, indicator ∈ cfIndicators →
               Contains (ToLower bodyHTML) indicator = false.
Proof.
  rewrite <- not_true_iff_false, marker_found_true. split.
  - intros Hno indicator Hin. apply not_true_iff_false. eauto.
  - intros Hall (indicator & Hin & Hc). by rewrite Hall in Hc.
Qed.

Lemma len_pos_nonempty s : (0 <? len s) = true ↔ s ≠ EmptyString.
Proof.
  unfold len. rewrite Z.ltb_lt. destruct s; cbn [String.length].
  - split; [lia | done].
  - split; [done | lia].
Qed.

End ClassifierFacts.

Lemma cfIndicators_ascii : Forall (λ i, isASCII i = true) cfIndicators.
Proof. repeat constructor. Qed.

(** C1, as the code has it: the classifier lower-cases the body, and only
    the body; when an indicator of the fixed list is found in the
    lower-cased body, and so whenever an indicator occurs in the body up
    to the case of its letters, the outcome has the challenge flag set and
    is not a success, whatever the length of the body and whatever the
    title.  In particular this holds for a body that contains "checking
    your browser" in any case. *)
Theorem TestURL_marker_in_body
        (unicode_To_LowerCase : Z → Z) (testURL title bodyHTML : string) :
  let result := TestURL unicode_To_LowerCase testURL title bodyHTML None in
  ((∃ indicator, indicator ∈ cfIndicators ∧
      Contains (ToLower unicode_To_LowerCase bodyHTML) indicator = true) →
   HasCloudflare result = true ∧ Success result = false) ∧
  ((∃ indicator, indicator ∈ cfIndicators ∧ contains_fold bodyHTML indicator) →
   HasCloudflare result = true ∧ Success result = false) ∧
  (contains_fold bodyHTML "checking your browser" →
   HasCloudflare result = true ∧ Success result = false).
Proof.
  intros result.
  destruct (TestURL_flags unicode_To_LowerCase testURL title bodyHTML)
    as [Hcf Hs].
  fold result in Hcf, Hs.
  assert (Hfound : (∃ indicator, indicator ∈ cfIndicators ∧
      Contains (ToLower unicode_To_LowerCase bodyHTML) indicator = true) →
      HasCloudflare result = true ∧ Success result = false).
  { intros Hex. apply marker_found_true in Hex.
    rewrite Hcf, Hs, Hex. done. }
  assert (Hfold : (∃ indicator, indicator ∈ cfIndicators ∧
                      contains_fold bodyHTML indicator) →
      HasCloudflare result = true ∧ Success result = false).
  { intros (indicator & Hin & pre & mid & post & Hbody & Hmid).
    apply Hfound. exists indicator. split; [done|].
    eapply ToLower_Contains_fold; [exact Hbody | exact Hmid |].
    by apply (proj1 (Forall_forall _ _) cfIndicators_ascii). }
  split; [exact Hfound | split; [exact Hfold|]].
  intros Hc. apply Hfold. exists "checking your browser".
  split; [|exact Hc]. do 2 right. left.
Qed.

Lemma TestURL_marker_in_body_witness :
  let result :=
    TestURL (λ r, r) "https://example.test/" "Example"
            ("<h1>Checking Your Browser</h1>" +:+ repeat_byte "a" 1000) None in
  HasCloudflare result = true ∧ Success result = false.
Proof.
  apply (TestURL_marker_in_body (λ r, r) "https://example.test/" "Example"
           ("<h1>Checking Your Browser</h1>" +:+ repeat_byte "a" 1000)).
  exists "<h1>", "Checking Your Browser", ("</h1>" +:+ repeat_byte "a" 1000).
  split; reflexivity.
Defined.

(** A challenge signature in the title alone is not seen: the page below
    has "just a moment" in its title, and is a success. *)
Lemma TestURL_marker_in_title_missed :
  let result :=
    TestURL (λ r, r) "https://example.test/" "Just a moment..."
            (repeat_byte "a" 1000) None in
  "just a moment" ∈ cfIndicators ∧
  contains_fold "Just a moment..." "just a moment" ∧
  ¬ (HasCloudflare result = true ∧ Success result = false).
Proof.
  split; [do 8 right; left|]. split.
  - exists EmptyString, "Just a moment", "...". split; reflexivity.
  - vm_compute. intros [H _]. discriminate H.
Qed.

(** C2: when no indicator is found in the lower-cased body, the outcome
    is a success exactly when the title is not empty and the body is
    longer than 500 bytes; so a body of 1000 bytes with a title is a
    success, and a body of 10 bytes with a title is indeterminate: neither
    a success nor a challenge. *)
Theorem TestURL_success_iff
        (unicode_To_LowerCase : Z → Z) (testURL title bodyHTML : string) :
  (∀ indicator, indicator ∈ cfIndicators →
     Contains (ToLower unicode_To_LowerCase bodyHTML) indicator = false) →
  let result := TestURL unicode_To_LowerCase testURL title bodyHTML None in
  HasCloudflare result = false ∧
  (Success result = true ↔ title ≠ EmptyString ∧ 500 < len bodyHTML) ∧
  (title ≠ EmptyString → len bodyHTML = 1000 → Success result = true) ∧
  (title ≠ EmptyString → len bodyHTML = 10 →
   Success result = false ∧ HasCloudflare result = false ∧
   is_indeterminate result = true).
Proof.
  intros Hno result. apply marker_found_false in Hno.
  destruct (TestURL_flags unicode_To_LowerCase testURL title bodyHTML)
    as [Hcf Hs].
  fold result in Hcf, Hs. rewrite Hno in Hcf, Hs. cbn [negb andb] in Hs.
  assert (Hiff : Success result = true ↔
                 title ≠ EmptyString ∧ 500 < len bodyHTML).
  { rewrite Hs, andb_true_iff, Z.ltb_lt, len_pos_nonempty. tauto. }
  split; [exact Hcf|]. split; [exact Hiff|]. split.
  - intros Ht Hl. apply Hiff. split; [done | lia].
  - intros Ht Hl.
    assert (Hok : Success result = false)
      by (apply not_true_iff_false; rewrite Hiff; lia).
    split; [exact Hok|]. split; [exact Hcf|].
    unfold is_indeterminate, is_error. rewrite Hcf, Hok.
    unfold result. by rewrite TestURL_no_error.
Qed.

Lemma TestURL_success_iff_witness :
  let result :=
    TestURL (λ r, r) "https://example.test/" "Example"
            (repeat_byte "a" 1000) None in
  HasCloudflare result = false ∧ Success result = true.
Proof.
  destruct (TestURL_success_iff (λ r, r) "https://example.test/" "Example"
              (repeat_byte "a" 1000)) as (Hcf & _ & Hlong & _).
  - apply Forall_forall. vm_compute. repeat constructor.
  - split; [exact Hcf|]. apply Hlong; [discriminate | reflexivity].
Defined.

Example TestURL_scenarios :
  let short := TestURL (λ r, r) "https://example.test/" "Example"
                       "<html><body>OK</body></html>" None in
  let gate := TestURL (λ r, r) "https://example.test/" "Example"
                      ("Just a moment..." +:+ repeat_byte "x" (Z.to_nat 5984)) None in
  ContentLength short = 28 ∧ HasCloudflare short = false ∧
  Success short = false ∧
  ContentLength gate = 6000 ∧ HasCloudflare gate = true ∧
  Success gate = false.
Proof. vm_compute. done. Qed.

(** The summary has no counter for indeterminate outcomes: for the one
    indeterminate outcome below, its counters add up to 0, not to 1. *)
Lemma summary_counters_miss_indeterminate :
  let results :=
    [TestURL (λ r, r) "https://example.test/" "Example"
             "<html><body>OK</body></html>" None] in
  is_indeterminate (hd (new_result EmptyString) results) = true ∧
  successCount (summary results) + blockCount (summary results)
  + errorCount (summary results) ≠ Z.of_nat (length results).
Proof. vm_compute. split; [reflexivity | discriminate]. Qed.

Lemma summary_counts_and_order_witness :
  let results :=
    [TestURL (λ r, r) "https://a.test/" "A" (repeat_byte "a" 1000) None;
     TestURL (λ r, r) "https://b.test/" "B" "<html></html>" None;
     TestURL (λ r, r) "https://c.test/" "C" "Ray ID: 1" None;
     TestURL (λ r, r) "https://d.test/" EmptyString EmptyString
             (Some "timeout")] in
  summary results =
    {| successCount := 1; blockCount := 1; errorCount := 1 |} ∧
  count_of is_indeterminate results = 1 ∧
  summary (rev results) = summary results.
Proof.
  intros results.
  destruct (summary_counts_and_order results) as (Hs & Hb & He & Hsum & Hperm).
  - vm_compute. discriminate.
  - split; [|split].
    + destruct (summary results) as [s b e]. simpl in Hs, Hb, He.
      rewrite Hs, Hb, He. vm_compute. reflexivity.
    + vm_compute. reflexivity.
    + apply Hperm. apply Permutation_rev.
Defined.

(** ** The stealth script *)

(** C8: the script is a function of the configuration alone, and of the
    eleven fields that are formatted into it: two configurations that
    agree on these fields, identical ones in particular, give the same
    script, byte for byte. *)
Theorem BuildStealthScript_deterministic (config1 config2 : StealthConfig) :
  UserAgent config1 = UserAgent config2 →
  Platform config1 = Platform config2 →
  VendorString config1 = VendorString config2 →
  Language config1 = Language config2 →
  TimeZoneID config1 = TimeZoneID config2 →
  DevicePixelRatio config1 = DevicePixelRatio config2 →
  ScreenWidth config1 = ScreenWidth config2 →
  ScreenHeight config1 = ScreenHeight config2 →
  WebGLVendor config1 = WebGLVendor config2 →
  WebGLRenderer config1 = WebGLRenderer config2 →
  MaxTouchPoints config1 = MaxTouchPoints config2 →
  BuildStealthScript config1 = BuildStealthScript config2.
Proof.
  intros Hua Hpl Hvs Hla Htz Hdp Hsw Hsh Hgv Hgr Hmt.
  unfold BuildStealthScript.
  rewrite Hua, Hpl, Hvs, Hla, Htz, Hdp, Hsw, Hsh, Hgv, Hgr, Hmt.
  reflexivity.
Qed.

Lemma BuildStealthScript_deterministic_witness :
  BuildStealthScript DefaultStealthConfig =
  BuildStealthScript
    {| UserAgent := UserAgent DefaultStealthConfig;
       Platform := "Win32";
       VendorString := "Google Inc.";
       Language := "en-US";
       TimeZoneID := "America/New_York";
       DevicePixelRatio := float_one;
       ScreenWidth := 1920;
       ScreenHeight := 1080;
       WebGLVendor := "Google Inc. (Google)";
       WebGLRenderer := "ANGLE (Intel HD Graphics 630, OpenGL 4.1)";
       MaxTouchPoints := 0;
       HasMediaDevices := false;
       HasGeolocation := false |}.
Proof.
  apply BuildStealthScript_deterministic; reflexivity.
Defined.

(** The slots of the default configuration, as they appear in the
    script. *)
Example BuildStealthScript_default_slots :
  let script := BuildStealthScript DefaultStealthConfig in
  len script = 17256 ∧
  Contains script "const userAgent = 'Mozilla/5.0 (Windows NT 10.0;" = true ∧
  Contains script "get: () => 1080 - 40," = true ∧
  Contains script "get: () => 1.0," = true ∧
  Contains script "timeZone: 'America/New_York'" = true ∧
  Contains script "headers.set('Accept-Language', 'en-US');" = true.
Proof. vm_compute. done. Qed.

Example FormatFloat1_rounding :
  FormatFloat1 float_one = "1.0" ∧
  FormatFloat1 (S754_finite false 5 (-1)) = "2.5" ∧
  FormatFloat1 (S754_finite true 5 (-2)) = "-1.2" ∧
  FormatFloat1 (S754_finite false 7 (-2)) = "1.8" ∧
  FormatFloat1 (S754_zero true) = "-0.0".
Proof. vm_compute. done. Qed.

(** ** Cookies *)

Section Cookies.
Implicit Types (σ : Store) (a : ptr) (agent : AIAgent) (c : loc)
         (name value : string) (entries : list (string * string)).

Lemma str_app_nonempty_l (s t : string) :
  s ≠ EmptyString → s +:+ t ≠ EmptyString.
Proof. destruct s; [done|]. by rewrite string_app_cons. Qed.

Lemma cookie_pair_nonempty cookie : cookie_pair cookie ≠ EmptyString.
Proof.
  unfold cookie_pair. destruct (cookie.1) as [|ch s]; [done|].
  by rewrite string_app_cons.
Qed.

Lemma cookie_step_nonempty acc cookie :
  acc ≠ EmptyString →
  cookie_step acc cookie = acc +:+ "; " +:+ cookie_pair cookie.
Proof.
  intros Hacc. unfold cookie_step, cookie_pair.
  destruct (String.eqb_spec acc EmptyString) as [->|_]; [done|].
  cbn [negb]. by rewrite string_app_assoc.
Qed.

(** Once the header is not empty, the loop appends every further cookie
    behind a separator. *)
Lemma cookie_loop_from acc entries :
  acc ≠ EmptyString →
  foldl cookie_step acc entries =
  match entries with
  | [] => acc
  | _ => acc +:+ "; " +:+ String.concat "; " (cookie_pair <$> entries)
  end.
Proof.
  revert acc. induction entries as [|cookie rest IH]; intros acc Hacc.
  - reflexivity.
  - cbn [foldl]. rewrite (cookie_step_nonempty _ _ Hacc).
    rewrite IH by (by apply str_app_nonempty_l).
    destruct rest as [|cookie' rest]; [reflexivity|].
    cbn [fmap list_fmap String.concat].
    by rewrite !string_app_assoc.
Qed.

Lemma Contains_app_r (s t sub : string) :
  Contains t sub = true → Contains (s +:+ t) sub = true.
Proof.
  rewrite !Contains_spec. intros (pre & post & ->).
  exists (s +:+ pre), post. by rewrite string_app_assoc.
Qed.

Lemma Contains_app_l (s t sub : string) :
  Contains s sub = true → Contains (s +:+ t) sub = true.
Proof.
  rewrite !Contains_spec. intros (pre & post & ->).
  exists pre, (post +:+ t). by rewrite !string_app_assoc.
Qed.

Lemma Contains_self (s : string) : Contains s s = true.
Proof.
  apply Contains_spec. exists EmptyString, EmptyString.
  by rewrite string_app_nil_r.
Qed.

Lemma concat_cookie_Contains entries cookie :
  cookie ∈ entries →
  Contains (String.concat "; " (cookie_pair <$> entries)) (cookie_pair cookie)
  = true.
Proof.
  induction entries as [|e rest IH]; [intros H; inversion H|].
  intros Hin. cbn [fmap list_fmap String.concat].
  destruct rest as [|e' rest].
  - apply elem_of_cons in Hin as [->|Hin]; [|inversion Hin].
    apply Contains_self.
  - apply elem_of_cons in Hin as [->|Hin].
    + apply Contains_app_l, Contains_self.
    + apply Contains_app_r, Contains_app_r. by apply IH.
Qed.

Lemma alter_same {A} (f : A → A) (l : loc) (m : gmap loc A) x :
  m !! l = Some x → f x = x → alter f l m = m.
Proof.
  intros Hl Hf. apply map_eq. intros l'.
  destruct (decide (l = l')) as [<-|Hne].
  - rewrite lookup_alter_eq, Hl. simpl. by rewrite Hf.
  - by rewrite lookup_alter_ne.
Qed.

Lemma GetCookieHeader_with_concat entries :
  GetCookieHeader_with entries = String.concat "; " (cookie_pair <$> entries).
Proof.
  unfold GetCookieHeader_with. destruct entries as [|cookie rest]; [done|].
  cbn [foldl]. change (cookie_step EmptyString cookie) with (cookie_pair cookie).
  rewrite cookie_loop_from by apply cookie_pair_nonempty.
  by destruct rest.
Qed.

End Cookies.

(** The cookie header is the cookies, each written name=value, joined by
    "; " in the order the loop visits them; it is empty exactly when
    there is no cookie, and it contains every cookie. *)
Theorem GetCookieHeader_join (entries : list (string * string)) :
  GetCookieHeader_with entries = String.concat "; " (cookie_pair <$> entries) ∧
  (GetCookieHeader_with entries = EmptyString ↔ entries = []) ∧
  Forall (λ cookie,
            Contains (GetCookieHeader_with entries) (cookie_pair cookie) = true)
         entries.
Proof.
  pose proof (GetCookieHeader_with_concat entries) as Hjoin.
  split; [exact Hjoin|]. split.
  - destruct entries as [|cookie rest]; [done|]. split; [|done].
    unfold GetCookieHeader_with. cbn [foldl].
    change (cookie_step EmptyString cookie) with (cookie_pair cookie).
    rewrite cookie_loop_from by apply cookie_pair_nonempty.
    pose proof (cookie_pair_nonempty cookie) as Hne.
    destruct rest; [done|]. intros H. by apply (str_app_nonempty_l _ _ Hne) in H.
  - apply Forall_forall. intros cookie Hin. rewrite Hjoin.
    by apply concat_cookie_Contains.
Qed.

Lemma GetCookieHeader_join_witness :
  GetCookieHeader_with [("session", "abc"); ("lang", "en")]
  = "session=abc; lang=en" ∧
  GetCookieHeader_with [] = EmptyString.
Proof.
  destruct (GetCookieHeader_join [("session", "abc"); ("lang", "en")])
    as (Hjoin & _ & _).
  destruct (GetCookieHeader_join []) as (_ & Hempty & _).
  split; [rewrite Hjoin; reflexivity | by apply Hempty].
Defined.

(** A cookie added to an agent is stored under its name in the cookie
    map of the agent, replaces an earlier cookie of that name, and shows
    up in the cookie header whatever order the header loop visits the
    cookies in; no other map and no agent struct is changed.  *)
Theorem AddCookie_stored
        (a : ptr) (agent : AIAgent) (c : loc) (name value : string)
        (σ : Store) :
  read_agent σ a = Some agent → Cookies agent = Some c →
  c ∈ dom (maps σ) →
  ∃ σ',
    AddCookie a name value σ = Returns σ' ∧
    read_map σ' (Some c) = <[name := value]> (read_map σ (Some c)) ∧
    (∀ l, l ≠ c → maps σ' !! l = maps σ !! l) ∧
    agents σ' = agents σ ∧
    (∀ entries, range_order (read_map σ' (Cookies agent)) entries →
       Contains (GetCookieHeader_with entries) (name +:+ "=" +:+ value) = true).
Proof.
  intros Hagent Hc Hlive. unfold AddCookie. rewrite Hagent, Hc.
  eexists. split; [reflexivity|].
  apply elem_of_dom in Hlive as [m Hm].
  assert (Hread : read_map (map_assign c name value σ) (Some c)
                  = <[name:=value]> (read_map σ (Some c))).
  { simpl. by rewrite lookup_alter_eq, Hm. }
  split; [exact Hread|]. split; [|split; [done|]].
  - intros l Hl. simpl. by rewrite lookup_alter_ne.
  - intros entries Hord. rewrite Hread in Hord.
    rewrite GetCookieHeader_with_concat.
    apply (concat_cookie_Contains entries (name, value)).
    apply (elem_of_Permutation_proper _ _ _ Hord), elem_of_map_to_list.
    apply lookup_insert_eq.
Qed.


(** Removing a cookie deletes its name from the cookie map and changes
    nothing else; removing a name that is not there leaves the store as
    it is, and removing a cookie right after it was added under a new
    name gives back the store from before. *)
Theorem RemoveCookie_deletes
        (a : ptr) (agent : AIAgent) (c : loc) (name value : string)
        (σ : Store) :
  read_agent σ a = Some agent → Cookies agent = Some c →
  c ∈ dom (maps σ) →
  (∃ σ', RemoveCookie a name σ = Returns σ' ∧
         read_map σ' (Some c) = delete name (read_map σ (Some c)) ∧
         (∀ l, l ≠ c → maps σ' !! l = maps σ !! l) ∧
         agents σ' = agents σ) ∧
  (read_map σ (Some c) !! name = None →
   RemoveCookie a name σ = Returns σ ∧
   ∃ σ1, AddCookie a name value σ = Returns σ1 ∧
         RemoveCookie a name σ1 = Returns σ).
Proof.
  intros Hagent Hc Hlive.
  apply elem_of_dom in Hlive as [m Hm].
  unfold RemoveCookie, AddCookie. rewrite Hagent, Hc. split.
  - eexists. split; [reflexivity|]. split; [|split; [|done]].
    + simpl. by rewrite lookup_alter_eq, Hm.
    + intros l Hl. simpl. by rewrite lookup_alter_ne.
  - simpl. rewrite Hm. simpl. intros Hname.
    destruct σ as [ms ags]. simpl in *. split.
    + f_equal. unfold map_delete. simpl. f_equal.
      apply (alter_same _ _ _ m Hm). by apply delete_id.
    + eexists. split; [reflexivity|].
      unfold read_agent in *. simpl in *. rewrite Hagent, Hc.
      f_equal. unfold map_delete, map_assign. simpl. f_equal.
      rewrite alter_alter_eq. apply (alter_same _ _ _ m Hm). simpl.
      rewrite delete_insert_eq. by apply delete_id.
Qed.


Lemma sample_agent_live :
  read_agent sample_store (Some sample_agent_ref) = Some sample_agent ∧
  Cookies sample_agent = Some 2%positive ∧
  2%positive ∈ dom (maps sample_store).
Proof.
  split; [vm_compute; reflexivity|]. split; [vm_compute; reflexivity|].
  apply (proj2 (elem_of_dom _ _)). vm_compute. eauto.
Qed.

Lemma AddCookie_stored_witness :
  ∃ σ', AddCookie (Some sample_agent_ref) "session" "abc" sample_store
        = Returns σ' ∧
        read_map σ' (Some 2%positive) !! "session" = Some "abc".
Proof.
  destruct sample_agent_live as (Hagent & Hc & Hlive).
  destruct (AddCookie_stored _ _ _ "session" "abc" _ Hagent Hc Hlive)
    as (σ' & Hret & Hread & _).
  exists σ'. split; [exact Hret|].
  etrans; [exact (f_equal (λ m, m !! "session") Hread)|].
  apply lookup_insert_eq.
Defined.


Lemma RemoveCookie_deletes_witness :
  RemoveCookie (Some sample_agent_ref) "session" sample_store
  = Returns sample_store ∧
  ∃ σ1, AddCookie (Some sample_agent_ref) "session" "abc" sample_store
        = Returns σ1 ∧
        RemoveCookie (Some sample_agent_ref) "session" σ1
        = Returns sample_store.
Proof.
  destruct sample_agent_live as (Hagent & Hc & Hlive).
  destruct (RemoveCookie_deletes _ _ _ "session" "abc" _ Hagent Hc Hlive)
    as [_ Hfresh].
  apply Hfresh. vm_compute. reflexivity.
Defined.


(** ** More on the browser pool *)

Section PoolOperations.
Implicit Types (bp : BrowserPool) (σ : Store) (id : string).

Lemma AddAgent_not_full σ bp l agent :
  pool_len bp < MaxAgents bp → agents σ !! l = Some agent →
  AddAgent σ bp (Some l) =
  Returns (None, {| Agents := <[ID agent := Some l]> (Agents bp);
                    MaxAgents := MaxAgents bp;
                    RateLimiter := RateLimiter bp |}).
Proof.
  intros Hroom Hl. unfold AddAgent.
  destruct (Z.leb_spec (MaxAgents bp) (pool_len bp)); [lia|].
  simpl. by rewrite Hl.
Qed.

Lemma GetAllAgents_with_values (entries : list (string * ptr)) :
  GetAllAgents_with entries = entries.*2.
Proof.
  unfold GetAllAgents_with.
  induction entries as [|e rest IH] using rev_ind; [done|].
  by rewrite foldl_snoc, IH, fmap_app.
Qed.

End PoolOperations.

(** Adding an agent to a pool with room returns no error and stores the
    agent under its ID: an agent already stored under that ID is
    replaced and the size stays the same, otherwise the size grows by
    one.  The other entries and the ceiling are kept. *)
Theorem AddAgent_inserts
        (σ : Store) (bp : BrowserPool) (l : loc) (agent : AIAgent) :
  pool_len bp < MaxAgents bp → agents σ !! l = Some agent →
  ∃ bp',
    AddAgent σ bp (Some l) = Returns (None, bp') ∧
    GetAgent bp' (ID agent) = Some l ∧
    (∀ id, id ≠ ID agent → GetAgent bp' id = GetAgent bp id) ∧
    MaxAgents bp' = MaxAgents bp ∧
    GetPoolSize bp' =
      match Agents bp !! ID agent with
      | Some _ => GetPoolSize bp
      | None => GetPoolSize bp + 1
      end.
Proof.
  intros Hroom Hl. eexists. split; [by apply AddAgent_not_full|].
  unfold GetAgent, GetPoolSize, pool_len. cbn [Agents MaxAgents].
  rewrite lookup_insert_eq. split; [done|]. split; [|split; [done|]].
  - intros id Hne. by rewrite lookup_insert_ne.
  - rewrite map_size_insert. destruct (Agents bp !! ID agent); simpl; lia.
Qed.

Lemma AddAgent_inserts_witness :
  ∃ bp',
    AddAgent sample_store (NewBrowserPool 2) (Some sample_agent_ref)
    = Returns (None, bp') ∧
    GetAgent bp' "agent-1" = Some sample_agent_ref ∧ GetPoolSize bp' = 1.
Proof.
  destruct (AddAgent_inserts sample_store (NewBrowserPool 2) sample_agent_ref
              sample_agent) as (bp' & Hret & Hget & _ & _ & Hsize).
  - vm_compute. reflexivity.
  - vm_compute. reflexivity.
  - exists bp'. split; [exact Hret|]. split; [exact Hget | exact Hsize].
Defined.

(** A pool built through its interface never holds more agents than its
    ceiling (none at all when the ceiling is zero or negative). *)
Theorem pool_built_within_capacity (bp : BrowserPool) :
  pool_built bp → GetPoolSize bp ≤ Z.max 0 (MaxAgents bp).
Proof.
  unfold GetPoolSize, pool_len.
  induction 1 as [m | σ bp new err bp' Hb IH Hadd | bp id Hb IH].
  - simpl. rewrite map_size_empty. lia.
  - unfold AddAgent, pool_len in Hadd.
    destruct (Z.leb_spec (MaxAgents bp) (Z.of_nat (size (Agents bp))))
      as [Hfull|Hroom]; [by simplify_eq|].
    destruct (new ≫= λ l, agents σ !! l) as [a|]; [|done].
    simplify_eq. cbn [Agents MaxAgents]. rewrite map_size_insert.
    destruct (Agents bp !! ID a); simpl; lia.
  - cbn [RemoveAgent Agents MaxAgents]. rewrite map_size_delete.
    destruct (Agents bp !! id); simpl; lia.
Qed.

Lemma pool_built_within_capacity_witness :
  GetPoolSize sample_pool ≤ Z.max 0 (MaxAgents sample_pool).
Proof. apply pool_built_within_capacity, sample_pool_built. Defined.

(** In a pool with room, adding a [nil] agent panics; a pool whose
    ceiling is zero or negative rejects every agent, [nil] included,
    with the error. *)
Theorem AddAgent_nil_and_no_room (σ : Store) (bp : BrowserPool) :
  (pool_len bp < MaxAgents bp → AddAgent σ bp None = Panics) ∧
  (MaxAgents bp ≤ 0 →
   ∀ agent, ∃ msg, AddAgent σ bp agent = Returns (Some msg, bp)).
Proof.
  split.
  - intros Hroom. unfold AddAgent.
    by destruct (Z.leb_spec (MaxAgents bp) (pool_len bp)); [lia|].
  - intros Hmax agent. eexists. apply AddAgent_full. unfold pool_len. lia.
Qed.

Lemma AddAgent_nil_and_no_room_witness :
  AddAgent sample_store (NewBrowserPool 2) None = Panics ∧
  ∃ msg, AddAgent sample_store (NewBrowserPool 0) (Some sample_agent_ref)
         = Returns (Some msg, NewBrowserPool 0).
Proof.
  split.
  - apply (AddAgent_nil_and_no_room sample_store (NewBrowserPool 2)).
    vm_compute. reflexivity.
  - apply (AddAgent_nil_and_no_room sample_store (NewBrowserPool 0)).
    vm_compute. discriminate.
Defined.

(** Removing an ID makes its lookup [nil] and keeps every other entry;
    removing an ID that is not stored changes nothing, removing a stored
    one makes the pool one smaller, and removing an agent right after it
    was added under a new ID gives back the pool from before. *)
Theorem RemoveAgent_lookup
        (σ : Store) (bp : BrowserPool) (id : string) (l : loc)
        (agent : AIAgent) :
  GetAgent (RemoveAgent bp id) id = None ∧
  (∀ id', id' ≠ id → GetAgent (RemoveAgent bp id) id' = GetAgent bp id') ∧
  (Agents bp !! id = None → RemoveAgent bp id = bp) ∧
  (is_Some (Agents bp !! id) →
   GetPoolSize (RemoveAgent bp id) = GetPoolSize bp - 1) ∧
  (pool_len bp < MaxAgents bp → agents σ !! l = Some agent →
   Agents bp !! ID agent = None →
   ∃ bp', AddAgent σ bp (Some l) = Returns (None, bp') ∧
          RemoveAgent bp' (ID agent) = bp).
Proof.
  unfold GetAgent, GetPoolSize, pool_len, RemoveAgent. cbn [Agents].
  rewrite lookup_delete_eq. split; [done|]. split; [|split; [|split]].
  - intros id' Hne. by rewrite lookup_delete_ne.
  - intros Hnone. destruct bp as [ags mx rl]. simpl in *.
    by rewrite delete_id.
  - intros [x Hx]. rewrite map_size_delete, Hx. simpl.
    assert (size (Agents bp) ≠ 0%nat).
    { apply map_size_non_empty_iff. intros Hempty.
      by rewrite Hempty, lookup_empty in Hx. }
    lia.
  - intros Hroom Hl Hnone. eexists.
    split; [by apply AddAgent_not_full|].
    destruct bp as [ags mx rl]. simpl in *.
    by rewrite delete_insert_id.
Qed.

Lemma RemoveAgent_lookup_witness :
  GetPoolSize (RemoveAgent sample_pool "agent-1") = GetPoolSize sample_pool - 1
  ∧ ∃ bp', AddAgent sample_store (NewBrowserPool 1) (Some sample_agent_ref)
           = Returns (None, bp') ∧
           RemoveAgent bp' "agent-1" = NewBrowserPool 1.
Proof.
  destruct (RemoveAgent_lookup sample_store sample_pool "agent-1"
              sample_agent_ref sample_agent) as (_ & _ & _ & Hsize & _).
  destruct (RemoveAgent_lookup sample_store (NewBrowserPool 1) "agent-1"
              sample_agent_ref sample_agent) as (_ & _ & _ & _ & Hround).
  split.
  - apply Hsize. vm_compute. eauto.
  - apply Hround; vm_compute; reflexivity.
Defined.

(** Removing a stored agent from a full pool makes room: the pool that
    rejected an agent accepts it afterwards, and is again within its
    ceiling. *)
Theorem RemoveAgent_makes_room
        (σ : Store) (bp : BrowserPool) (id : string) (l : loc)
        (agent : AIAgent) :
  pool_len bp = MaxAgents bp → is_Some (Agents bp !! id) →
  agents σ !! l = Some agent →
  (∃ msg, AddAgent σ bp (Some l) = Returns (Some msg, bp)) ∧
  ∃ bp', AddAgent σ (RemoveAgent bp id) (Some l) = Returns (None, bp') ∧
         GetAgent bp' (ID agent) = Some l ∧
         GetPoolSize bp' ≤ MaxAgents bp.
Proof.
  intros Hfull [x Hx] Hl. split.
  { eexists. apply AddAgent_full. lia. }
  assert (Hpos : size (Agents bp) ≠ 0%nat).
  { apply map_size_non_empty_iff. intros Hempty.
    by rewrite Hempty, lookup_empty in Hx. }
  assert (Hsize : pool_len (RemoveAgent bp id) = pool_len bp - 1).
  { unfold pool_len, RemoveAgent. cbn [Agents].
    rewrite map_size_delete, Hx. simpl. lia. }
  eexists. split.
  - apply AddAgent_not_full; [|done].
    rewrite Hsize. cbn [RemoveAgent MaxAgents]. lia.
  - unfold GetAgent, GetPoolSize, pool_len in *. cbn [Agents RemoveAgent] in *.
    rewrite lookup_insert_eq. split; [done|].
    rewrite map_size_insert.
    destruct (delete id (Agents bp) !! ID agent); simpl; lia.
Qed.

Lemma RemoveAgent_makes_room_witness :
  ∃ bp', AddAgent sample_store (RemoveAgent sample_pool "agent-1")
                  (Some sample_agent_ref) = Returns (None, bp') ∧
         GetAgent bp' "agent-1" = Some sample_agent_ref.
Proof.
  destruct (RemoveAgent_makes_room sample_store sample_pool "agent-1"
              sample_agent_ref sample_agent) as (_ & bp' & Hret & Hget & _).
  - vm_compute. reflexivity.
  - vm_compute. eauto.
  - vm_compute. reflexivity.
  - exists bp'. split; [exact Hret | exact Hget].
Defined.

(** [GetAllAgents] returns as many agents as the pool holds, and exactly
    the stored ones: an agent is in the answer when it is stored under
    some ID; for a pool built through the interface none of them is
    [nil]. *)
Theorem GetAllAgents_stored
        (bp : BrowserPool) (entries : list (string * ptr)) :
  range_order (Agents bp) entries →
  Z.of_nat (length (GetAllAgents_with entries)) = GetPoolSize bp ∧
  (∀ agent, agent ∈ GetAllAgents_with entries ↔
            ∃ id, Agents bp !! id = Some agent) ∧
  (pool_built bp → None ∉ GetAllAgents_with entries).
Proof.
  intros Hord. rewrite GetAllAgents_with_values.
  assert (Hin : ∀ agent, agent ∈ entries.*2 ↔
                         ∃ id, Agents bp !! id = Some agent).
  { intros agent. rewrite list_elem_of_fmap. split.
    - intros ([id agent'] & -> & Hin). exists id.
      by apply (elem_of_Permutation_proper _ _ _ Hord), elem_of_map_to_list
        in Hin.
    - intros [id Hid]. exists (id, agent). split; [done|].
      by apply (elem_of_Permutation_proper _ _ _ Hord), elem_of_map_to_list. }
  split; [|split; [exact Hin|]].
  - unfold GetPoolSize, pool_len, range_order in *.
    by rewrite length_fmap, Hord, length_map_to_list.
  - intros Hb Hnil. apply Hin in Hnil as [id Hid].
    by apply (pool_built_no_nil _ _ _ Hb Hid).
Qed.

Lemma GetAllAgents_stored_witness :
  Z.of_nat (length (GetAllAgents_with (map_to_list (Agents sample_pool))))
  = GetPoolSize sample_pool.
Proof.
  apply (GetAllAgents_stored sample_pool (map_to_list (Agents sample_pool))).
  unfold range_order. reflexivity.
Defined.

(** ** More on [TestURL] *)

(** An ASCII string is lower-cased byte by byte. *)
Lemma ToLower_ascii (unicode_To_LowerCase : Z → Z) (s : string) :
  isASCII s = true → ToLower unicode_To_LowerCase s = lower_bytes s.
Proof.
  intros Hascii. unfold ToLower. rewrite Hascii.
  destruct (hasUpper s) eqn:Hup; [done|]. by rewrite lower_bytes_no_upper.
Qed.

Section TestURLFacts.
Variable unicode_To_LowerCase : Z → Z.
Local Abbreviation ToLower := (ToLower unicode_To_LowerCase).
Local Abbreviation scan_indicators := (scan_indicators unicode_To_LowerCase).
Local Abbreviation classify := (classify unicode_To_LowerCase).
Local Abbreviation TestURL := (TestURL unicode_To_LowerCase).
Local Abbreviation marker_found := (marker_found unicode_To_LowerCase).
Implicit Types (title bodyHTML testURL : string) (result : TestResult).

Lemma scan_indicators_same_page indicators bodyHTML result :
  same_page result (scan_indicators indicators bodyHTML result).
Proof.
  induction indicators as [|i rest IH]; simpl; [done|].
  by destruct (Contains (ToLower bodyHTML) i).
Qed.

Lemma classify_same_page title bodyHTML result :
  same_page result (classify title bodyHTML result).
Proof.
  unfold Stealth.classify.
  pose proof (scan_indicators_same_page cfIndicators bodyHTML result) as Hs.
  destruct (scan_indicators cfIndicators bodyHTML result) as [u t n cf ok e sn].
  by destruct (negb _ && _ && _).
Qed.

Lemma slice_to_prefix (n : nat) (s : string) :
  ∃ rest, s = slice_to n s +:+ rest.
Proof.
  revert s. induction n as [|n IH]; intros s.
  - by exists s.
  - destruct s as [|c s]; [by exists EmptyString|].
    destruct (IH s) as [rest Hrest]. exists rest. simpl.
    by rewrite string_app_cons, <- Hrest.
Qed.

Lemma slice_to_length (n : nat) (s : string) :
  String.length (slice_to n s) = Nat.min n (String.length s).
Proof.
  revert s. induction n as [|n IH]; intros s; [done|].
  destruct s as [|c s]; [done|]. simpl. by rewrite IH.
Qed.

(** Lower-casing byte by byte commutes with cutting a string in two. *)
Lemma lower_bytes_split (s a b : string) :
  lower_bytes s = a +:+ b →
  ∃ s1 s2, s = s1 +:+ s2 ∧ lower_bytes s1 = a ∧ lower_bytes s2 = b.
Proof.
  revert s. induction a as [|c a IH]; intros s Hs.
  - by exists EmptyString, s.
  - destruct s as [|d s]; [discriminate Hs|].
    rewrite string_app_cons in Hs. simpl in Hs. injection Hs as Hc Hrest.
    destruct (IH s Hrest) as (s1 & s2 & -> & H1 & H2).
    exists (String d s1), s2. rewrite string_app_cons. simpl.
    by rewrite Hc, H1, H2.
Qed.

End TestURLFacts.

Lemma count_of_ext (f g : TestResult → bool) (results : list TestResult) :
  Forall (λ r, f r = g r) results → count_of f results = count_of g results.
Proof.
  unfold count_of. induction 1 as [|r l Hr _ IH]; [done|].
  cbn [List.filter]. rewrite Hr. destruct (g r); cbn [length]; lia.
Qed.

Lemma TestURL_error_flags
      (unicode_To_LowerCase : Z → Z) (testURL title bodyHTML errStr : string) :
  let result :=
    TestURL unicode_To_LowerCase testURL title bodyHTML (Some errStr) in
  HasCloudflare result = false ∧ Success result = false.
Proof.
  unfold TestURL.
  by destruct (Contains errStr "ERR_HTTP2_PROTOCOL_ERROR").
Qed.

Lemma TestURL_classes
      (unicode_To_LowerCase : Z → Z) (testURL title bodyHTML : string)
      (err : error) :
  let result := TestURL unicode_To_LowerCase testURL title bodyHTML err in
  is_blocked result = HasCloudflare result ∧
  is_success result = Success result.
Proof.
  intros result. subst result. destruct err as [errStr|].
  - destruct (TestURL_error_flags unicode_To_LowerCase testURL title
                bodyHTML errStr) as (Hcf & Hs).
    unfold is_blocked, is_success. rewrite Hcf, Hs.
    by rewrite !andb_false_r.
  - destruct (TestURL_flags unicode_To_LowerCase testURL title bodyHTML)
      as [Hcf Hs].
    pose proof (TestURL_no_error unicode_To_LowerCase testURL title bodyHTML)
      as He.
    unfold is_blocked, is_success, is_error. rewrite Hcf, Hs, He.
    by destruct (marker_found unicode_To_LowerCase bodyHTML),
      (500 <? len bodyHTML), (0 <? len title).
Qed.

(** When the browser run fails, the page is not classified, whatever its
    body holds: both flags stay false and no snippet is taken, while the
    title and the body length are still recorded.  The message is the
    text of the error, or the fixed HTTP/2 message when the text
    mentions ERR_HTTP2_PROTOCOL_ERROR; the summary counts the outcome as
    an error unless the text is empty. *)
Theorem TestURL_error_outcome
        (unicode_To_LowerCase : Z → Z)
        (testURL title bodyHTML errStr : string) :
  let result :=
    TestURL unicode_To_LowerCase testURL title bodyHTML (Some errStr) in
  HasCloudflare result = false ∧ Success result = false ∧
  ContentSnippet result = EmptyString ∧
  URL result = testURL ∧ Title result = title ∧
  ContentLength result = len bodyHTML ∧
  ErrorMessage result =
    (if Contains errStr "ERR_HTTP2_PROTOCOL_ERROR"
     then "HTTP/2 protocol error (site may block automated access)"
     else errStr) ∧
  (is_error result = true ↔ errStr ≠ EmptyString).
Proof.
  intros result. subst result. unfold TestURL, is_error.
  destruct (Contains errStr "ERR_HTTP2_PROTOCOL_ERROR") eqn:Hc;
    cbn [HasCloudflare Success ContentSnippet URL Title ContentLength
         ErrorMessage set_ErrorMessage set_ContentLength set_Title
         new_result];
    (do 7 (split; [reflexivity|])).
  - split; [|reflexivity]. intros _ ->. discriminate Hc.
  - destruct (String.eqb_spec errStr EmptyString) as [->|Hne]; simpl.
    + split; [discriminate | done].
    + done.
Qed.

Lemma TestURL_error_outcome_witness :
  let result :=
    TestURL (λ r, r) "https://example.test/" EmptyString
            "<h1>Just a moment...</h1>"
            (Some "net::ERR_HTTP2_PROTOCOL_ERROR at https://example.test/") in
  HasCloudflare result = false ∧ is_error result = true ∧
  ErrorMessage result
  = "HTTP/2 protocol error (site may block automated access)".
Proof.
  intros result.
  destruct (TestURL_error_outcome (λ r, r) "https://example.test/"
              EmptyString "<h1>Just a moment...</h1>"
              "net::ERR_HTTP2_PROTOCOL_ERROR at https://example.test/")
    as (Hcf & _ & _ & _ & _ & _ & Hmsg & Herr).
  split; [exact Hcf|]. split; [by apply Herr | exact Hmsg].
Defined.

(** No outcome is both a success and a challenge, and an outcome with
    either flag carries no error message. *)
Theorem TestURL_flags_exclusive
        (unicode_To_LowerCase : Z → Z)
        (testURL title bodyHTML : string) (err : error) :
  let result := TestURL unicode_To_LowerCase testURL title bodyHTML err in
  (HasCloudflare result && Success result = false) ∧
  (HasCloudflare result || Success result = true →
   ErrorMessage result = EmptyString) ∧
  is_blocked result = HasCloudflare result ∧
  is_success result = Success result.
Proof.
  intros result. subst result.
  split; [|split;
    [|exact (TestURL_classes unicode_To_LowerCase testURL title bodyHTML err)]];
    destruct err as [errStr|].
  - destruct (TestURL_error_flags unicode_To_LowerCase testURL title
                bodyHTML errStr) as (Hcf & Hs).
    by rewrite Hcf, Hs.
  - destruct (TestURL_flags unicode_To_LowerCase testURL title bodyHTML)
      as [Hcf Hs].
    rewrite Hcf, Hs.
    by destruct (marker_found unicode_To_LowerCase bodyHTML).
  - destruct (TestURL_error_flags unicode_To_LowerCase testURL title
                bodyHTML errStr) as (Hcf & Hs).
    rewrite Hcf, Hs. discriminate.
  - intros _.
    exact (TestURL_no_error unicode_To_LowerCase testURL title bodyHTML).
Qed.

Lemma TestURL_flags_exclusive_witness :
  let result :=
    TestURL (λ r, r) "https://example.test/" "Example"
            (repeat_byte "a" 600) None in
  Success result = true ∧ HasCloudflare result = false ∧
  ErrorMessage result = EmptyString.
Proof.
  intros result.
  destruct (TestURL_flags_exclusive (λ r, r) "https://example.test/"
              "Example" (repeat_byte "a" 600) None) as (Hex & Hmsg & _ & _).
  fold result in Hex, Hmsg.
  assert (Hs : Success result = true) by (vm_compute; reflexivity).
  rewrite Hs in Hex, Hmsg. rewrite andb_true_r in Hex.
  split; [exact Hs|]. split; [exact Hex|].
  apply Hmsg. by rewrite orb_true_r.
Defined.

(** For outcomes that [TestURL] produced, the counters of the summary
    are the plain flag counts: [successCount] is the number of outcomes
    with [Success], [blockCount] the number with [HasCloudflare]. *)
Theorem summary_of_TestURL_outcomes
        (unicode_To_LowerCase : Z → Z) (results : list TestResult) :
  Forall (λ r, ∃ testURL title bodyHTML err,
            r = TestURL unicode_To_LowerCase testURL title bodyHTML err)
         results →
  Z.of_nat (length results) ≤ MaxInt →
  successCount (summary results) = count_of Success results ∧
  blockCount (summary results) = count_of HasCloudflare results ∧
  errorCount (summary results) = count_of is_error results.
Proof.
  intros Hmade Hlen. unfold summary.
  rewrite fold_summary_step_counts by (simpl; lia). simpl.
  split; [|split; [|done]]; apply count_of_ext;
    (eapply Forall_impl; [exact Hmade|]);
    intros r (u & t & b & e & ->);
    by destruct (TestURL_classes unicode_To_LowerCase u t b e) as (Hb & Hs).
Qed.

Lemma summary_of_TestURL_outcomes_witness :
  let results :=
    [TestURL (λ r, r) "https://a.test/" "A" (repeat_byte "a" 1000) None;
     TestURL (λ r, r) "https://c.test/" "C" "Ray ID: 1" None;
     TestURL (λ r, r) "https://d.test/" "D" "cloudflare" (Some "timeout")] in
  successCount (summary results) = count_of Success results ∧
  blockCount (summary results) = count_of HasCloudflare results ∧
  errorCount (summary results) = count_of is_error results.
Proof.
  intros results.
  apply (summary_of_TestURL_outcomes (λ r, r) results).
  - repeat constructor; eexists _, _, _, _; reflexivity.
  - vm_compute. discriminate.
Defined.

(** The snippet of a page read without error is the first 300 bytes of
    the body, or the whole body when it is shorter; the outcome records
    the URL, the title and the full body length. *)
Theorem TestURL_snippet
        (unicode_To_LowerCase : Z → Z) (testURL title bodyHTML : string) :
  let result := TestURL unicode_To_LowerCase testURL title bodyHTML None in
  (∃ rest, bodyHTML = ContentSnippet result +:+ rest) ∧
  len (ContentSnippet result) = Z.min 300 (len bodyHTML) ∧
  (len bodyHTML ≤ 300 → ContentSnippet result = bodyHTML) ∧
  URL result = testURL ∧ Title result = title ∧
  ContentLength result = len bodyHTML.
Proof.
  intros result. subst result. unfold TestURL.
  match goal with
  | |- context [classify _ title bodyHTML ?r] =>
      destruct (classify_same_page unicode_To_LowerCase title bodyHTML r)
        as (Hu & Ht & Hn & _ & _);
      destruct (classify unicode_To_LowerCase title bodyHTML r)
        as [u t n cf ok e sn]
  end.
  cbn in Hu, Ht, Hn. subst u t n.
  destruct (Z.ltb_spec 300 (len bodyHTML)) as [Hlong|Hshort];
    cbn [ContentSnippet set_ContentSnippet URL Title ContentLength].
  - split; [apply slice_to_prefix|]. unfold len in *.
    rewrite slice_to_length. repeat split; try done; lia.
  - split; [exists EmptyString; by rewrite string_app_nil_r|].
    repeat split; try done. lia.
Qed.

Lemma TestURL_snippet_witness :
  ContentSnippet (TestURL (λ r, r) "https://example.test/" "Example"
                          "<html><body>OK</body></html>" None)
  = "<html><body>OK</body></html>".
Proof.
  destruct (TestURL_snippet (λ r, r) "https://example.test/" "Example"
              "<html><body>OK</body></html>") as (_ & _ & Hshort & _).
  apply Hshort. vm_compute. discriminate.
Defined.

(** For an ASCII body read without error, the challenge flag is set
    exactly when an indicator of the list occurs in the body up to the
    case of its letters, and the outcome is a success exactly when no
    indicator occurs so, the title is not empty and the body is longer
    than 500 bytes. *)
Theorem TestURL_ascii_body
        (unicode_To_LowerCase : Z → Z) (testURL title bodyHTML : string) :
  isASCII bodyHTML = true →
  let result := TestURL unicode_To_LowerCase testURL title bodyHTML None in
  (HasCloudflare result = true ↔
   ∃ indicator, indicator ∈ cfIndicators ∧ contains_fold bodyHTML indicator) ∧
  (Success result = true ↔
   (¬ ∃ indicator, indicator ∈ cfIndicators ∧
                   contains_fold bodyHTML indicator) ∧
   title ≠ EmptyString ∧ 500 < len bodyHTML).
Proof.
  intros Hascii result.
  destruct (TestURL_flags unicode_To_LowerCase testURL title bodyHTML)
    as [Hcf Hs].
  fold result in Hcf, Hs.
  assert (Hiff : marker_found unicode_To_LowerCase bodyHTML = true ↔
                 ∃ indicator, indicator ∈ cfIndicators ∧
                              contains_fold bodyHTML indicator).
  { rewrite marker_found_true. split.
    - intros (indicator & Hin & Hc). exists indicator. split; [done|].
      rewrite ToLower_ascii in Hc by done.
      apply Contains_spec in Hc as (pre & post & Hc).
      apply lower_bytes_split in Hc as (s1 & s2 & -> & <- & Hc).
      apply lower_bytes_split in Hc as (s3 & s4 & -> & <- & _).
      by exists s1, s3, s4.
    - intros (indicator & Hin & pre & mid & post & Hbody & Hmid).
      exists indicator. split; [done|].
      eapply ToLower_Contains_fold; [exact Hbody | exact Hmid |].
      by apply (proj1 (Forall_forall _ _) cfIndicators_ascii). }
  split; [by rewrite Hcf|].
  rewrite Hs, !andb_true_iff, negb_true_iff, <- not_true_iff_false, Hiff.
  rewrite Z.ltb_lt, len_pos_nonempty. tauto.
Qed.

Lemma TestURL_ascii_body_witness :
  let result :=
    TestURL (λ r, r) "https://example.test/" "Example"
            "<p>Please Wait</p>" None in
  HasCloudflare result = true ↔
  ∃ indicator, indicator ∈ cfIndicators ∧
               contains_fold "<p>Please Wait</p>" indicator.
Proof.
  intros result.
  destruct (TestURL_ascii_body (λ r, r) "https://example.test/" "Example"
              "<p>Please Wait</p>") as [Hcf _].
  - reflexivity.
  - exact Hcf.
Defined.

(** ** The slots of the stealth script *)

Section ScriptSlots.
Implicit Types (s t lit v a b : string) (l rest : list string).

Lemma slice_split (n : nat) s : s = slice_to n s +:+ slice_from n s.
Proof.
  revert s. induction n as [|n IH]; intros s; [by destruct s|].
  destruct s as [|c s]; [done|]. simpl.
  by rewrite string_app_cons, <- IH.
Qed.

Lemma concat_empty_cons s l :
  String.concat EmptyString (s :: l) = s +:+ String.concat EmptyString l.
Proof. destruct l; [by rewrite string_app_nil_r | reflexivity]. Qed.

Lemma concat_empty_app l rest :
  String.concat EmptyString (l ++ rest) =
  String.concat EmptyString l +:+ String.concat EmptyString rest.
Proof.
  induction l as [|s l IH]; [done|].
  rewrite <- app_comm_cons, !concat_empty_cons, IH.
  by rewrite string_app_assoc.
Qed.

(** A value formatted between two literal pieces stands in the result
    between the end of the first and the start of the second. *)
Lemma concat_slot_at l (i : nat) lit v rest a b :
  drop i l = lit :: v :: rest →
  slice_from (String.length lit - String.length a) lit = a →
  HasPrefix (String.concat EmptyString rest) b = true →
  Contains (String.concat EmptyString l) (a +:+ v +:+ b) = true.
Proof.
  intros Hdrop Ha Hb.
  rewrite <- (take_drop i l), Hdrop, concat_empty_app, !concat_empty_cons.
  apply HasPrefix_spec in Hb as [q ->].
  rewrite (slice_split (String.length lit - String.length a) lit), Ha.
  apply Contains_spec.
  exists (String.concat EmptyString (take i l)
          +:+ slice_to (String.length lit - String.length a) lit), q.
  by rewrite !string_app_assoc.
Qed.

End ScriptSlots.

Ltac script_slot i :=
  unfold BuildStealthScript;
  eapply (concat_slot_at _ i);
  [reflexivity | vm_compute; reflexivity | vm_compute; reflexivity].

(** Every field that the script is built from reaches its place in the
    script, as it is (nothing is escaped): the navigation identity,
    platform and vendor, the language in its three places, the two
    graphics strings, the touch points, the screen metrics, the pixel
    ratio and the time zone. *)
Theorem BuildStealthScript_slots (config : StealthConfig) :
  let script := BuildStealthScript config in
  let has a v b := Contains script (a +:+ v +:+ b) = true in
  has "const userAgent = '" (UserAgent config) "';" ∧
  has (getter "navigator" "platform" +:+ "'") (Platform config) "'," ∧
  has (getter "navigator" "vendor" +:+ "'") (VendorString config) "'," ∧
  has (getter "navigator" "languages" +:+ "['") (Language config) "']," ∧
  has (getter "navigator" "language" +:+ "'") (Language config) "'," ∧
  has "const glVendor = '" (WebGLVendor config) "';" ∧
  has "const glRenderer = '" (WebGLRenderer config) "';" ∧
  has (getter "navigator" "maxTouchPoints")
      (pretty (MaxTouchPoints config)) "," ∧
  has (getter "screen" "width") (pretty (ScreenWidth config)) "," ∧
  has (getter "screen" "height") (pretty (ScreenHeight config)) "," ∧
  has (getter "screen" "availWidth") (pretty (ScreenWidth config)) "," ∧
  has (getter "screen" "availHeight")
      (pretty (ScreenHeight config)) " - 40," ∧
  has (getter "screen" "devicePixelRatio")
      (FormatFloat1 (DevicePixelRatio config)) "," ∧
  has "Object.assign({ timeZone: '" (TimeZoneID config) "' }, options);" ∧
  has "headers.set('Accept-Language', '" (Language config) "');".
Proof.
  intros script has. subst script has. cbv beta.
  split; [script_slot 0%nat|]. split; [script_slot 2%nat|].
  split; [script_slot 4%nat|]. split; [script_slot 6%nat|].
  split; [script_slot 8%nat|]. split; [script_slot 10%nat|].
  split; [script_slot 12%nat|]. split; [script_slot 14%nat|].
  split; [script_slot 16%nat|]. split; [script_slot 18%nat|].
  split; [script_slot 20%nat|]. split; [script_slot 22%nat|].
  split; [script_slot 24%nat|]. split; [script_slot 26%nat|].
  script_slot 28%nat.
Qed.

Import Proxy.

(** ** The proxy configuration *)

Section ProxyFacts.
Implicit Types (pc : ProxyConfig) (t url : string).

Lemma validTypes_lookup t :
  default false (validTypes !! t) = true ↔
  t = "http" ∨ t = "https" ∨ t = "socks5".
Proof.
  unfold validTypes.
  destruct (decide (t = "http")) as [->|H1]; [by intuition|].
  destruct (decide (t = "https")) as [->|H2]; [by intuition|].
  destruct (decide (t = "socks5")) as [->|H3]; [by intuition|].
  rewrite !lookup_insert_ne, lookup_singleton_ne by done. simpl.
  intuition congruence.
Qed.

Lemma IsEnabled_true pc :
  IsEnabled pc = true ↔
  URL pc ≠ EmptyString ∧ URL pc ≠ "none" ∧ URL pc ≠ "disabled".
Proof.
  unfold IsEnabled.
  destruct (String.eqb_spec (URL pc) EmptyString),
    (String.eqb_spec (URL pc) "none"),
    (String.eqb_spec (URL pc) "disabled"); simpl; intuition congruence.
Qed.

Lemma Proxy_validate_None pc :
  ValidateConfiguration pc = None ↔
  IsEnabled pc = false ∨
  (Contains (URL pc) "://" = true ∧
   (Type_ pc = EmptyString ∨ Type_ pc = "http" ∨ Type_ pc = "https"
    ∨ Type_ pc = "socks5")).
Proof.
  unfold ValidateConfiguration.
  destruct (IsEnabled pc) eqn:Hen; cbn [negb].
  2:{ by intuition. }
  apply IsEnabled_true in Hen as (Hne & _ & _).
  destruct (String.eqb_spec (URL pc) EmptyString) as [|_]; [done|].
  destruct (Contains (URL pc) "://"); cbn [negb].
  2:{ split; [done|]. intros [|[]]; done. }
  pose proof (validTypes_lookup (Type_ pc)) as Hvalid.
  destruct (String.eqb_spec (Type_ pc) EmptyString) as [Ht|Ht]; cbn [negb andb].
  { by intuition. }
  destruct (default false (validTypes !! Type_ pc)); cbn [negb].
  - split; [|done]. intros _. right. split; [done|].
    right. by apply Hvalid.
  - split; [done|].
    intros [|[_ [|Hv]]]; [done | done |]. apply Hvalid in Hv. done.
Qed.

End ProxyFacts.

(** The validation accepts a configuration exactly when the proxy is
    disabled, or the URL contains "://" and the type is empty or one of
    http, https and socks5.  Its error for an empty URL is never
    returned: an empty URL means that the proxy is disabled. *)
Theorem ValidateConfiguration_accepts (pc : ProxyConfig) :
  (ValidateConfiguration pc = None ↔
   IsEnabled pc = false ∨
   (Contains (URL pc) "://" = true ∧
    (Type_ pc = EmptyString ∨ Type_ pc = "http" ∨ Type_ pc = "https"
     ∨ Type_ pc = "socks5"))) ∧
  ValidateConfiguration pc ≠ Some "proxy URL is empty".
Proof.
  split; [apply Proxy_validate_None|].
  unfold ValidateConfiguration.
  destruct (IsEnabled pc) eqn:Hen; cbn [negb]; [|done].
  apply IsEnabled_true in Hen as (Hne & _ & _).
  destruct (String.eqb_spec (URL pc) EmptyString) as [|_]; [done|].
  destruct (Contains (URL pc) "://"); cbn [negb]; [|by intros [=]].
  destruct (negb (Type_ pc =? EmptyString)%string
            && negb (default false (validTypes !! Type_ pc)));
    [by intros [=] | done].
Qed.

Lemma ValidateConfiguration_accepts_witness :
  ValidateConfiguration sample_config = None ∧
  ValidateConfiguration (SetProxyURL "proxy.example.com:8080" sample_config)
  = Some "invalid proxy URL format: proxy.example.com:8080".
Proof.
  split; [|reflexivity].
  destruct (ValidateConfiguration_accepts sample_config) as [Hacc _].
  apply Hacc. right. split; [reflexivity|]. do 3 right. reflexivity.
Defined.

(** When the environment sets a proxy URL and no type, the type is
    inferred from the scheme of the URL and is always a valid one, so
    the validation of the configuration depends on "://" alone. *)
Theorem NewProxyConfig_infers_type
        (unicode_To_LowerCase : Z → Z) (Getenv : string → string) :
  Getenv "PROXY_TYPE" = EmptyString → Getenv "PROXY_URL" ≠ EmptyString →
  let pc := NewProxyConfig unicode_To_LowerCase Getenv in
  URL pc = Getenv "PROXY_URL" ∧
  Type_ pc =
    (if HasPrefix (URL pc) "socks5://" then "socks5"
     else if HasPrefix (URL pc) "https://" then "https" else "http") ∧
  ProxyList pc = [] ∧ CurrentIndex pc = 0 ∧
  (ValidateConfiguration pc = None ↔
   IsEnabled pc = false ∨ Contains (URL pc) "://" = true).
Proof.
  intros Htype Hurl pc.
  assert (Hpc : URL pc = Getenv "PROXY_URL" ∧
    Type_ pc =
      (if HasPrefix (URL pc) "socks5://" then "socks5"
       else if HasPrefix (URL pc) "https://" then "https" else "http") ∧
    ProxyList pc = [] ∧ CurrentIndex pc = 0).
  { subst pc. unfold NewProxyConfig. cbn [Type_ URL]. rewrite Htype.
    destruct (String.eqb_spec (Getenv "PROXY_URL") EmptyString); [done|].
    cbn [String.eqb negb andb].
    destruct (HasPrefix (Getenv "PROXY_URL") "socks5://") eqn:H5;
      [|destruct (HasPrefix (Getenv "PROXY_URL") "https://") eqn:Hs];
      cbn [set_Type URL Type_ ProxyList CurrentIndex];
      rewrite ?H5, ?Hs; done. }
  destruct Hpc as (Hu & Ht & Hl & Hi). repeat split; try done.
  - intros Hok. apply Proxy_validate_None in Hok. tauto.
  - intros Hok. apply Proxy_validate_None.
    destruct Hok as [|Hc]; [by left|]. right. split; [done|]. rewrite Ht.
    destruct (HasPrefix (URL pc) "socks5://"); [tauto|].
    destruct (HasPrefix (URL pc) "https://"); tauto.
Qed.

Section Rotation.
Implicit Types (pc : ProxyConfig) (i k : nat).

(** The configuration with its index at [i]. *)
Local Abbreviation at_index i pc := (set_CurrentIndex (Z.of_nat i) pc).

Lemma set_CurrentIndex_same pc : set_CurrentIndex (CurrentIndex pc) pc = pc.
Proof. by destruct pc. Qed.

Lemma set_CurrentIndex_twice v w pc :
  set_CurrentIndex v (set_CurrentIndex w pc) = set_CurrentIndex v pc.
Proof. reflexivity. Qed.

Lemma GetNextProxy_step pc i proxy :
  RotationEnabled pc = true →
  Z.of_nat (length (ProxyList pc)) ≤ MaxInt →
  ProxyList pc !! i = Some proxy →
  GetNextProxy (at_index i pc) =
  Returns (proxy, at_index ((i + 1) mod length (ProxyList pc)) pc).
Proof.
  intros Hrot Hmax Hi. pose proof (lookup_lt_Some _ _ _ Hi) as Hlt.
  unfold GetNextProxy. cbn [RotationEnabled ProxyList CurrentIndex set_CurrentIndex
                            URL].
  rewrite Hrot. cbn [negb orb].
  destruct (Z.eqb_spec (Z.of_nat (length (ProxyList pc))) 0); [lia|].
  destruct (Z.ltb_spec (Z.of_nat i) 0); [lia|].
  destruct (Z.leb_spec (Z.of_nat (length (ProxyList pc))) (Z.of_nat i));
    [lia|].
  cbn [orb]. rewrite Nat2Z.id, Hi.
  rewrite wrap_int_small by (unfold MaxInt in *; lia).
  rewrite Z.rem_mod_nonneg by lia.
  rewrite Nat2Z.inj_mod, set_CurrentIndex_twice. do 3 f_equal. lia.
Qed.

Lemma next_proxies_app k1 k2 pc l1 pc1 :
  next_proxies k1 pc = Returns (l1, pc1) →
  next_proxies (k1 + k2) pc =
  match next_proxies k2 pc1 with
  | Returns (l2, pc2) => Returns (l1 ++ l2, pc2)
  | Panics => Panics
  end.
Proof.
  revert pc l1. induction k1 as [|k1 IH]; intros pc l1; simpl.
  - intros [= Hl Hp]. subst. by destruct (next_proxies k2 pc1) as [[]|].
  - destruct (GetNextProxy pc) as [[proxy pc']|]; [|done].
    destruct (next_proxies k1 pc') as [[l pc'']|] eqn:Hk; [|done].
    intros [= Hl Hp]. subst. rewrite (IH _ _ Hk).
    by destruct (next_proxies k2 pc1) as [[]|].
Qed.

(** From index [i], the next [k] calls hand out the proxies from [i] on,
    as long as they do not run past the end of the list. *)
Lemma next_proxies_run pc k i :
  RotationEnabled pc = true →
  Z.of_nat (length (ProxyList pc)) ≤ MaxInt →
  (i < length (ProxyList pc))%nat → (i + k ≤ length (ProxyList pc))%nat →
  next_proxies k (at_index i pc) =
  Returns (take k (drop i (ProxyList pc)),
           at_index ((i + k) mod length (ProxyList pc)) pc).
Proof.
  intros Hrot Hmax. revert i. induction k as [|k IH]; intros i Hi Hik.
  - cbn [next_proxies]. rewrite Nat.add_0_r, Nat.mod_small by done.
    by rewrite take_0.
  - destruct (lookup_lt_is_Some_2 (ProxyList pc) i Hi) as [proxy Hp].
    cbn [next_proxies]. rewrite (GetNextProxy_step _ _ _ Hrot Hmax Hp).
    rewrite (drop_S _ _ _ Hp). cbn [take].
    destruct (decide (i + 1 = length (ProxyList pc))%nat) as [Hend|Hmid].
    + assert (k = 0%nat) as -> by lia. cbn [next_proxies].
      by rewrite take_0.
    + rewrite Nat.mod_small by lia.
      rewrite (IH (i + 1)%nat) by lia.
      rewrite Nat.add_1_r.
      by replace (S i + k)%nat with (i + S k)%nat by lia.
Qed.

End Rotation.

(** With rotation on and the index inside the list, a call returns the
    proxy at the index and moves the index on by one, back to the start
    after the last proxy; as many calls as there are proxies hand out
    every proxy once, in list order from the index on, and leave the
    configuration as it was. *)
Theorem GetNextProxy_round_robin (pc : ProxyConfig) :
  RotationEnabled pc = true →
  Z.of_nat (length (ProxyList pc)) ≤ MaxInt →
  0 ≤ CurrentIndex pc < Z.of_nat (length (ProxyList pc)) →
  (∃ proxy,
     ProxyList pc !! Z.to_nat (CurrentIndex pc) = Some proxy ∧
     GetNextProxy pc =
     Returns (proxy,
              set_CurrentIndex
                ((CurrentIndex pc + 1) mod Z.of_nat (length (ProxyList pc)))
                pc)) ∧
  next_proxies (length (ProxyList pc)) pc =
  Returns (drop (Z.to_nat (CurrentIndex pc)) (ProxyList pc)
           ++ take (Z.to_nat (CurrentIndex pc)) (ProxyList pc), pc).
Proof.
  intros Hrot Hmax Hidx.
  set (i := Z.to_nat (CurrentIndex pc)).
  set (n := length (ProxyList pc)) in *.
  assert (Hi : (i < n)%nat) by lia.
  assert (Hpc : pc = set_CurrentIndex (Z.of_nat i) pc).
  { subst i. rewrite Z2Nat.id by lia. by rewrite set_CurrentIndex_same. }
  split.
  - destruct (lookup_lt_is_Some_2 (ProxyList pc) i Hi) as [proxy Hp].
    exists proxy. split; [done|]. rewrite Hpc at 1.
    rewrite (GetNextProxy_step _ _ _ Hrot Hmax Hp). do 2 f_equal.
    rewrite Nat2Z.inj_mod. fold n.
    replace (Z.of_nat (i + 1)) with (CurrentIndex pc + 1) by (subst i; lia).
    done.
  - replace n with ((n - i) + i)%nat at 1 by lia. rewrite Hpc at 1.
    pose proof (next_proxies_run pc (n - i) i Hrot Hmax Hi ltac:(lia)) as H1.
    rewrite (next_proxies_app _ _ _ _ _ H1).
    replace (i + (n - i))%nat with n by lia. fold n. rewrite Nat.Div0.mod_same.
    pose proof (next_proxies_run pc i 0 Hrot Hmax ltac:(lia) ltac:(lia))
      as H2.
    rewrite H2, drop_0. cbn [Nat.add]. fold n.
    rewrite Nat.mod_small by lia. rewrite <- Hpc.
    do 2 f_equal. rewrite take_ge; [done|]. rewrite length_drop. fold n. lia.
Qed.

Section ProxyInvariant.
Implicit Types (pc : ProxyConfig).

Lemma GetNextProxy_cases pc proxy pc' :
  GetNextProxy pc = Returns (proxy, pc') →
  (proxy = URL pc ∧ pc' = pc) ∨
  (0 ≤ CurrentIndex pc < Z.of_nat (length (ProxyList pc)) ∧
   ProxyList pc !! Z.to_nat (CurrentIndex pc) = Some proxy ∧
   pc' = set_CurrentIndex
           (Z.rem (wrap_int (CurrentIndex pc + 1))
                  (Z.of_nat (length (ProxyList pc)))) pc).
Proof.
  unfold GetNextProxy.
  destruct (negb (RotationEnabled pc)
            || (Z.of_nat (length (ProxyList pc)) =? 0));
    [intros [= <- <-]; by left|].
  destruct (Z.of_nat (length (ProxyList pc)) =? 0);
    [intros [= <- <-]; by left|].
  destruct (Z.ltb_spec (CurrentIndex pc) 0); [done|].
  destruct (Z.leb_spec (Z.of_nat (length (ProxyList pc))) (CurrentIndex pc));
    [done|].
  cbn [orb].
  destruct (ProxyList pc !! Z.to_nat (CurrentIndex pc)) as [p|] eqn:Hp;
    [|done].
  intros [= <- <-]. right. split; [lia | done].
Qed.

(** The index of a configuration built through the interface is inside
    the list, or 0 when the list is empty. *)
Lemma config_built_index pc :
  config_built pc →
  Z.of_nat (length (ProxyList pc)) ≤ MaxInt →
  0 ≤ CurrentIndex pc < Z.max 1 (Z.of_nat (length (ProxyList pc))).
Proof.
  induction 1 as [table env | url pc Hb IH | proxy pc Hb IH
                 | pc proxy pc' Hb IH Hnext]; intros Hmax.
  - unfold NewProxyConfig.
    repeat match goal with
           | |- context [if ?b then _ else _] => destruct b
           end; simpl; lia.
  - simpl in *. by apply IH.
  - simpl in *. rewrite length_app in *. simpl in *.
    assert (0 ≤ CurrentIndex pc
            < Z.max 1 (Z.of_nat (length (ProxyList pc)))) by (apply IH; lia).
    lia.
  - apply GetNextProxy_cases in Hnext as [[_ ->]|(Hidx & _ & ->)];
      [by apply IH|].
    cbn [set_CurrentIndex CurrentIndex ProxyList] in *.
    rewrite wrap_int_small by (unfold MaxInt in *; lia).
    rewrite Z.rem_mod_nonneg by lia.
    pose proof (Z.mod_pos_bound (CurrentIndex pc + 1)
                  (Z.of_nat (length (ProxyList pc))) ltac:(lia)).
    lia.
Qed.

End ProxyInvariant.

(** For a configuration built from the environment and changed through
    the methods only, [GetNextProxy] never panics: it returns the URL of
    the configuration or a proxy of the list, and changes neither the
    URL nor the list. *)
Theorem GetNextProxy_never_panics (pc : ProxyConfig) :
  config_built pc →
  Z.of_nat (length (ProxyList pc)) ≤ MaxInt →
  ∃ proxy pc',
    GetNextProxy pc = Returns (proxy, pc') ∧
    (proxy = URL pc ∨ proxy ∈ ProxyList pc) ∧
    URL pc' = URL pc ∧ ProxyList pc' = ProxyList pc ∧
    (RotationEnabled pc = false ∨ ProxyList pc = [] →
     proxy = URL pc ∧ pc' = pc).
Proof.
  intros Hb Hmax. pose proof (config_built_index pc Hb Hmax) as Hidx.
  unfold GetNextProxy.
  destruct (RotationEnabled pc) eqn:Hrot; cbn [negb orb].
  2:{ exists (URL pc), pc. repeat split; auto. }
  destruct (Z.eqb_spec (Z.of_nat (length (ProxyList pc))) 0) as [Hz|Hnz].
  { exists (URL pc), pc. repeat split; auto. }
  destruct (Z.ltb_spec (CurrentIndex pc) 0); [lia|].
  destruct (Z.leb_spec (Z.of_nat (length (ProxyList pc))) (CurrentIndex pc));
    [lia|].
  cbn [orb].
  destruct (lookup_lt_is_Some_2 (ProxyList pc) (Z.to_nat (CurrentIndex pc)))
    as [proxy Hp]; [lia|].
  rewrite Hp. eexists _, _. split; [reflexivity|].
  split; [right; by eapply list_elem_of_lookup_2|].
  split; [done|]. split; [done|].
  intros [|Hnil]; [done|]. rewrite Hnil in Hnz. done.
Qed.

(** [SleepBetweenProxyRequests] never panics, whatever bounds it is
    given: a lower bound that is not positive becomes 1000 ms, and an
    upper bound that is not above the lower one becomes the lower bound
    plus 2000 ms.  For bounds below nine million million milliseconds the
    delay is at least the lower and less than the upper bound. *)
Theorem SleepBetweenProxyRequests_bounds (minMs maxMs draw : Z) :
  - 2 ^ 63 ≤ minMs ≤ MaxInt → - 2 ^ 63 ≤ maxMs ≤ MaxInt →
  let lo := sleep_min minMs in
  let hi := sleep_max lo maxMs in
  0 < wrap_int (hi - lo) ∧
  (∃ delay, SleepBetweenProxyRequests minMs maxMs draw = Returns delay) ∧
  (minMs ≤ 9000000000000 → maxMs ≤ 9000000000000 →
   0 ≤ draw < wrap_int (hi - lo) →
   1 ≤ lo ∧ lo < hi ∧
   ∃ delay, SleepBetweenProxyRequests minMs maxMs draw = Returns delay ∧
            lo * 1000000 ≤ delay < hi * 1000000).
Proof.
  intros Hmin Hmax lo hi.
  assert (Hlo : 1 ≤ lo ≤ MaxInt).
  { subst lo. unfold sleep_min, MaxInt in *.
    destruct (Z.leb_spec minMs 0); lia. }
  assert (Hn : 0 < wrap_int (hi - lo)).
  { subst hi. unfold sleep_max.
    destruct (Z.leb_spec maxMs lo).
    - unfold wrap_int, MaxInt in *.
      destruct (Z.le_gt_cases (lo + 2000) (2 ^ 63 - 1)).
      + rewrite (Z.mod_small (lo + 2000 + 2 ^ 63)) by lia.
        rewrite Z.mod_small by lia. lia.
      + replace (lo + 2000 + 2 ^ 63) with (lo + 2000 - 2 ^ 63 + 1 * 2 ^ 64)
          by lia.
        rewrite Z.mod_add by lia.
        rewrite (Z.mod_small (lo + 2000 - 2 ^ 63)) by lia.
        replace (lo + 2000 - 2 ^ 63 - 2 ^ 63 - lo + 2 ^ 63)
          with (2000 + 2 ^ 63 + (-1) * 2 ^ 64) by lia.
        rewrite Z.mod_add by lia. rewrite Z.mod_small by lia. lia.
    - rewrite wrap_int_small by (unfold MaxInt in *; lia). lia. }
  assert (Hret : ∃ delay,
             SleepBetweenProxyRequests minMs maxMs draw = Returns delay).
  { unfold SleepBetweenProxyRequests. fold lo. fold hi.
    destruct (Z.leb_spec (wrap_int (hi - lo)) 0); [lia | eauto]. }
  split; [exact Hn|]. split; [exact Hret|].
  intros Hmin' Hmax' Hdraw.
  assert (Hlo' : lo ≤ 9000000000000).
  { subst lo. unfold sleep_min. destruct (Z.leb_spec minMs 0); lia. }
  assert (Hhi : lo < hi ≤ 9000000002000 ∧ wrap_int (hi - lo) = hi - lo).
  { subst hi. unfold sleep_max in *.
    destruct (Z.leb_spec maxMs lo).
    - rewrite (wrap_int_small (lo + 2000)) by (unfold MaxInt; lia).
      rewrite wrap_int_small by (unfold MaxInt; lia). lia.
    - rewrite wrap_int_small by (unfold MaxInt; lia). lia. }
  destruct Hhi as [Hhi Hw]. rewrite Hw in Hdraw.
  split; [lia|]. split; [lia|].
  unfold SleepBetweenProxyRequests. fold lo. fold hi.
  destruct (Z.leb_spec (wrap_int (hi - lo)) 0); [lia|].
  eexists. split; [reflexivity|].
  rewrite (wrap_int_small (lo + draw)) by (unfold MaxInt; lia).
  rewrite wrap_int_small by (unfold MaxInt; lia). lia.
Qed.

Lemma NewProxyConfig_infers_type_witness :
  Type_ (NewProxyConfig (λ r, r) sample_env) = "socks5" ∧
  ValidateConfiguration (NewProxyConfig (λ r, r) sample_env) = None.
Proof.
  destruct (NewProxyConfig_infers_type (λ r, r) sample_env)
    as (_ & Htype & _ & _ & Hvalid).
  - reflexivity.
  - discriminate.
  - split; [rewrite Htype; reflexivity|].
    apply Hvalid. right. reflexivity.
Defined.

Lemma sample_config_built : config_built sample_config.
Proof. repeat apply built_add_proxy. apply built_env. Qed.

Lemma GetNextProxy_round_robin_witness :
  next_proxies 3 (set_CurrentIndex 1 sample_config) =
  Returns (["http://b:2"; "http://c:3"; "http://a:1"],
           set_CurrentIndex 1 sample_config).
Proof.
  destruct (GetNextProxy_round_robin (set_CurrentIndex 1 sample_config))
    as [_ Hcycle].
  - reflexivity.
  - vm_compute. discriminate.
  - vm_compute. split; [discriminate | reflexivity].
  - exact Hcycle.
Defined.

Lemma GetNextProxy_never_panics_witness :
  ∃ proxy pc', GetNextProxy sample_config = Returns (proxy, pc') ∧
               ProxyList pc' = ProxyList sample_config.
Proof.
  destruct (GetNextProxy_never_panics sample_config)
    as (proxy & pc' & Hret & _ & _ & Hlist & _).
  - apply sample_config_built.
  - vm_compute. discriminate.
  - by exists proxy, pc'.
Defined.

Lemma SleepBetweenProxyRequests_bounds_witness :
  ∃ delay, SleepBetweenProxyRequests 0 500 1999 = Returns delay ∧
           1000 * 1000000 ≤ delay < 3000 * 1000000.
Proof.
  destruct (SleepBetweenProxyRequests_bounds 0 500 1999)
    as (_ & _ & Hin).
  - vm_compute. split; discriminate.
  - vm_compute. split; discriminate.
  - destruct Hin as (_ & _ & delay & Hret & Hbounds).
    + vm_compute. discriminate.
    + vm_compute. discriminate.
    + vm_compute. split; [discriminate | reflexivity].
    + exists delay. split; [exact Hret | exact Hbounds].
Defined.

Import Scraper.

(** ** The ScraperAPI configuration *)

Section ScraperFacts.
Implicit Types (sc : ScraperAPIConfig) (s t : string) (c : ascii).

Lemma escape_byte_safe c :
  query_safe (upperhex (Z.shiftr (byte_val c) 4)) = true ∧
  query_safe (upperhex (Z.land (byte_val c) 15)) = true.
Proof. by destruct c as [[] [] [] [] [] [] [] []]. Qed.

Lemma QueryEscape_safe_bytes s : all_bytes query_safe (QueryEscape s) = true.
Proof.
  induction s as [|c s IH]; [done|]. cbn [QueryEscape].
  destruct (Ascii.eqb_spec c " "%char) as [->|_]; [by cbn; rewrite IH|].
  destruct (shouldEscape c) eqn:Hc.
  - destruct (escape_byte_safe c) as [H1 H2].
    cbn [all_bytes]. by rewrite H1, H2, IH.
  - cbn [all_bytes]. unfold query_safe at 1. by rewrite Hc, IH.
Qed.

Lemma unescape_byte c :
  shouldEscape c = true →
  byte_of (Z.lor (Z.shiftl (unhex (upperhex (Z.shiftr (byte_val c) 4))) 4)
                 (unhex (upperhex (Z.land (byte_val c) 15)))) = c.
Proof. by destruct c as [[] [] [] [] [] [] [] []]. Qed.

Lemma shouldEscape_plus_percent c :
  shouldEscape c = false →
  Ascii.eqb c "+"%char = false ∧ Ascii.eqb c "%"%char = false.
Proof. by destruct c as [[] [] [] [] [] [] [] []]. Qed.

(** Unescaping gives back what was escaped. *)
Lemma unescape_QueryEscape s : unescape (QueryEscape s) = s.
Proof.
  induction s as [|c s IH]; [done|]. cbn [QueryEscape].
  destruct (Ascii.eqb_spec c " "%char) as [->|Hsp].
  - cbn. by rewrite IH.
  - destruct (shouldEscape c) eqn:Hc.
    + cbn. by rewrite unescape_byte, IH.
    + destruct (shouldEscape_plus_percent c Hc) as [Hp Hq].
      cbn [unescape]. by rewrite Hp, Hq, IH.
Qed.

Lemma QueryEscape_inj s t : QueryEscape s = QueryEscape t → s = t.
Proof.
  intros Heq. by rewrite <- (unescape_QueryEscape s), Heq, unescape_QueryEscape.
Qed.

Lemma string_app_length s t :
  String.length (s +:+ t) = (String.length s + String.length t)%nat.
Proof.
  induction s as [|c s IH]; [done|]. rewrite string_app_cons. simpl.
  by rewrite IH.
Qed.

Lemma string_app_inv_tail s t u : s +:+ u = t +:+ u → s = t.
Proof.
  revert t. induction s as [|c s IH]; intros t Heq.
  - destruct t as [|d t]; [done|].
    apply (f_equal String.length) in Heq.
    rewrite !string_app_length in Heq. simpl in Heq. lia.
  - destruct t as [|d t].
    + apply (f_equal String.length) in Heq.
      rewrite !string_app_length in Heq. simpl in Heq. lia.
    + rewrite !string_app_cons in Heq. injection Heq as -> Heq.
      f_equal. by apply IH.
Qed.

Lemma GetScraperURL_enabled sc t :
  Enabled sc = true →
  GetScraperURL sc t =
  "http://api.scraperapi.com?api_key=" +:+ APIKey sc +:+ "&url="
  +:+ QueryEscape t +:+ url_options sc.
Proof.
  intros Hen. unfold GetScraperURL, url_options. rewrite Hen. cbn [negb].
  destruct (RenderJS sc), (negb (CountryCode sc =? EmptyString)%string),
    (0 <? Timeout sc);
    rewrite ?string_app_assoc, ?string_app_nil_r, ?string_app_nil_l;
    reflexivity.
Qed.

End ScraperFacts.

(** With ScraperAPI disabled the target URL is used as it is.  With it
    enabled the URL is the API endpoint with the key, the escaped target
    and the options, and different targets give different URLs. *)
Theorem GetScraperURL_rewrite (sc : ScraperAPIConfig) :
  (Enabled sc = false → ∀ t, GetScraperURL sc t = t) ∧
  (Enabled sc = true →
   (∀ t, GetScraperURL sc t =
         "http://api.scraperapi.com?api_key=" +:+ APIKey sc +:+ "&url="
         +:+ QueryEscape t +:+ url_options sc) ∧
   (∀ t1 t2, GetScraperURL sc t1 = GetScraperURL sc t2 → t1 = t2)).
Proof.
  split.
  - intros Hen t. unfold GetScraperURL. by rewrite Hen.
  - intros Hen. split; [intros t; by apply GetScraperURL_enabled|].
    intros t1 t2. rewrite !GetScraperURL_enabled by done.
    rewrite <- !string_app_assoc. intros Heq.
    apply string_app_inv_tail in Heq.
    rewrite !string_app_assoc in Heq.
    do 3 apply String.app_inj in Heq. by apply QueryEscape_inj.
Qed.

Lemma GetScraperURL_rewrite_witness :
  let sc := {| APIKey := "0123456789abcdef"; Enabled := true;
               RenderJS := true; CountryCode := "US"; Timeout := 10000 |} in
  GetScraperURL sc "https://example.test/a b?x=1&y=2" =
  "http://api.scraperapi.com?api_key=0123456789abcdef&url=https%3A%2F%2Fexample.test%2Fa+b%3Fx%3D1%26y%3D2&render=true&country_code=US&timeout=10000".
Proof.
  intros sc.
  destruct (GetScraperURL_rewrite sc) as [_ Hen].
  destruct Hen as [Hurl _]; [reflexivity|].
  rewrite Hurl. vm_compute. reflexivity.
Defined.

(** The escaped target holds only letters, digits and the bytes [-],
    [_], [.], [~], [%] and [+], so it cannot add a parameter to the
    query; a target made of letters, digits and the four marks is left
    as it is, and unescaping an escaped target gives the target back. *)
Theorem QueryEscape_safe (t : string) :
  all_bytes query_safe (QueryEscape t) = true ∧
  Contains (QueryEscape t) "&" = false ∧
  Contains (QueryEscape t) "=" = false ∧
  Contains (QueryEscape t) "#" = false ∧
  unescape (QueryEscape t) = t ∧
  (all_bytes (λ c, negb (shouldEscape c)) t = true → QueryEscape t = t).
Proof.
  pose proof (QueryEscape_safe_bytes t) as Hsafe.
  assert (Hno : ∀ c, query_safe c = false →
                     Contains (QueryEscape t) (String c EmptyString) = false).
  { intros c Hc. apply not_true_iff_false. intros Hin.
    apply Contains_spec in Hin as (pre & post & Heq).
    rewrite Heq in Hsafe. clear Heq.
    induction pre as [|d pre IH].
    - rewrite string_app_nil_l, string_app_cons in Hsafe.
      cbn [all_bytes] in Hsafe. by rewrite Hc in Hsafe.
    - rewrite string_app_cons in Hsafe. cbn [all_bytes] in Hsafe.
      apply andb_true_iff in Hsafe as [_ Hsafe]. by apply IH. }
  split; [exact Hsafe|]. split; [by apply Hno|]. split; [by apply Hno|].
  split; [by apply Hno|]. split; [apply unescape_QueryEscape|].
  clear Hsafe Hno.
  induction t as [|c t IH]; [done|]. cbn [all_bytes QueryEscape].
  rewrite andb_true_iff, negb_true_iff. intros [Hc Ht].
  destruct (Ascii.eqb_spec c " "%char) as [->|_]; [discriminate Hc|].
  rewrite Hc. f_equal. by apply IH.
Qed.

Lemma Scraper_validate_None (sc : ScraperAPIConfig) :
  ValidateConfiguration sc = None ↔ Enabled sc = false ∨ 10 ≤ len (APIKey sc).
Proof.
  unfold ValidateConfiguration. destruct (Enabled sc); cbn [negb].
  2:{ by intuition. }
  destruct (String.eqb_spec (APIKey sc) EmptyString) as [He|_].
  { rewrite He. split; [done|]. intros [|H]; [done|].
    unfold len in H. simpl in H. lia. }
  destruct (Z.ltb_spec (len (APIKey sc)) 10).
  - split; [done|]. intros [|]; [done | lia].
  - split; [|done]. by right.
Qed.

(** The validation accepts a configuration exactly when it is disabled
    or its key has at least ten bytes.  For a configuration made from the
    environment the key is refused exactly when it is set, is not
    "none", and is shorter than ten bytes; the error for a key that is
    not set is never returned. *)
Theorem Scraper_ValidateConfiguration_accepts
        (unicode_To_LowerCase : Z → Z) (Getenv : string → string)
        (sc : ScraperAPIConfig) :
  (ValidateConfiguration sc = None ↔ Enabled sc = false ∨ 10 ≤ len (APIKey sc)) ∧
  let made := NewScraperAPIConfig unicode_To_LowerCase Getenv in
  let key := Getenv "SCRAPER_API_KEY" in
  (ValidateConfiguration made =
     if negb (String.eqb key EmptyString) && negb (String.eqb key "none")
        && (len key <? 10)
     then Some "API key appears to be invalid (too short)" else None).
Proof.
  split; [apply Scraper_validate_None|].
  intros made key. subst made. unfold ValidateConfiguration.
  cbn [NewScraperAPIConfig Enabled APIKey]. fold key.
  destruct (String.eqb_spec key EmptyString) as [He|Hne]; [done|].
  destruct (String.eqb_spec key "none"); [done|]. cbn [negb andb].
  by destruct (len key <? 10).
Qed.

Lemma Scraper_ValidateConfiguration_accepts_witness :
  ValidateConfiguration
    {| APIKey := "0123456789abcdef"; Enabled := true; RenderJS := false;
       CountryCode := EmptyString; Timeout := 10000 |} = None.
Proof.
  destruct (Scraper_ValidateConfiguration_accepts (λ r, r) (λ _, EmptyString)
              {| APIKey := "0123456789abcdef"; Enabled := true;
                 RenderJS := false; CountryCode := EmptyString;
                 Timeout := 10000 |}) as [Hacc _].
  apply Hacc. right. vm_compute. discriminate.
Defined.

(** Printing the configuration panics exactly when ScraperAPI is enabled
    and the key is shorter than four bytes, after the first two lines
    are written.  A configuration that passes the validation prints
    without panic; a key of one to three bytes in the environment gives
    a configuration that is enabled and panics. *)
Theorem PrintConfiguration_short_key
        (unicode_To_LowerCase : Z → Z) (Getenv : string → string)
        (sc : ScraperAPIConfig) :
  ((PrintConfiguration sc).2 = Panics ↔
   Enabled sc = true ∧ len (APIKey sc) < 4) ∧
  (ValidateConfiguration sc = None → (PrintConfiguration sc).2 = Returns tt) ∧
  (Getenv "SCRAPER_API_KEY" ≠ EmptyString →
   len (Getenv "SCRAPER_API_KEY") < 4 →
   PrintConfiguration (NewScraperAPIConfig unicode_To_LowerCase Getenv) =
   ("🔗 ScraperAPI Configuration:" +:+ nl
    +:+ "   • Status: ✅ ENABLED" +:+ nl, Panics)).
Proof.
  assert (Hiff : (PrintConfiguration sc).2 = Panics ↔
                 Enabled sc = true ∧ len (APIKey sc) < 4).
  { unfold PrintConfiguration. destruct (Enabled sc); cbn [negb snd].
    2:{ split; [done | by intros []]. }
    destruct (Z.ltb_spec (len (APIKey sc)) 4); cbn [snd].
    - by split.
    - split; [done|]. intros [_ ?]. lia. }
  split; [exact Hiff|]. split.
  - intros Hok. apply Scraper_validate_None in Hok.
    destruct ((PrintConfiguration sc).2) as [[]|]; [done|].
    destruct (proj1 Hiff eq_refl) as [Hen Hlen].
    destruct Hok as [Hd|Hl]; [congruence|lia].
  - intros Hne Hlen. unfold PrintConfiguration.
    cbn [NewScraperAPIConfig Enabled APIKey].
    destruct (String.eqb_spec (Getenv "SCRAPER_API_KEY") EmptyString);
      [done|].
    destruct (String.eqb_spec (Getenv "SCRAPER_API_KEY") "none") as [He|_].
    { rewrite He in Hlen. unfold len in Hlen. simpl in Hlen. lia. }
    cbn [negb andb].
    by destruct (Z.ltb_spec (len (Getenv "SCRAPER_API_KEY")) 4); [|lia].
Qed.

Lemma QueryEscape_safe_witness : QueryEscape "safe-Name_1.0~x" = "safe-Name_1.0~x".
Proof.
  destruct (QueryEscape_safe "safe-Name_1.0~x") as (_ & _ & _ & _ & _ & Hid).
  apply Hid. reflexivity.
Defined.

Lemma PrintConfiguration_short_key_witness :
  let env := λ name : string,
               if String.eqb name "SCRAPER_API_KEY" then "abc" else EmptyString in
  Enabled (NewScraperAPIConfig (λ r, r) env) = true ∧
  (PrintConfiguration (NewScraperAPIConfig (λ r, r) env)).2 = Panics.
Proof.
  intros env. split; [reflexivity|].
  destruct (PrintConfiguration_short_key (λ r, r) env
              (NewScraperAPIConfig (λ r, r) env)) as (_ & _ & Hshort).
  rewrite Hshort; [reflexivity | discriminate | vm_compute; reflexivity].
Defined.

Import Behavior.


